(** * A shallow embedding of the library API (full_library_api)

    The development follows the layout of the Python package:

    - [Py]       the fragment of Python's built-ins the program relies on
                 (strings, [int()], truthiness, JSON values, [int / int]
                 and [math.ceil], list slices);
    - models.py  [User], [Author], [Book], [Loan], [Loan.status];
    - storage.py the five JSON files, as a record, with a log of the
                 files written;
    - utils.py   [paginate], and after the handlers that write the
                 searches, the filters and the orderings;
    - auth.py    registration, login, tokens, [require_role];
    - app.py     [_parse_resource_path], [_get_auth_user] and the handlers
                 [do_POST], [do_PUT], [do_PATCH], [do_DELETE], then
                 [do_GET].

    Modelling conventions.
    - Text is a [string] of 8-bit characters, which is what http.server
      hands to the handler for the request line and the headers (they are
      decoded as ISO-8859-1).  Case mapping is the ASCII one.
    - Python [int] is [Z]; a JSON float is a [spec_float].
    - A handler is a computation in the monad [M]: it reads and replaces
      the files of the data directory, and ends with a value, with an
      uncaught exception, or not at all.
    - The handlers of GET and OPTIONS never call [storage.save_*]; they
      are not part of the transition system below.  [do_GET] takes the
      query as the dict that [utils.parse_query_params] returns;
      [do_OPTIONS] sends headers only and is not modelled. *)

From Stdlib Require Import ZArith String Ascii List Lia Bool.
From Stdlib Require Import Floats.SpecFloat Numbers.DecimalString Sorted.
From stdpp Require Import base option list gmap strings.

Local Open Scope string_scope.
Local Open Scope list_scope.
Local Open Scope Z_scope.

(* ===================================================================== *)
(** * Outcomes of Python computations *)
(* ===================================================================== *)

(** The exceptions that the modelled code can raise. *)
Inductive exn : Type :=
| ValueError
| TypeError
| OverflowError
| AttributeError
| KeyError.

(** How a computation ends: with a value, with an exception, or never
    (the only unbounded loop of the program is the token loop of
    [auth.login]). *)
Inductive result (A : Type) : Type :=
| Ok (a : A)
| Raise (e : exn)
| Diverge.
Arguments Ok {A} a.
Arguments Raise {A} e.
Arguments Diverge {A}.

(** Sequencing: the first exception ends the computation. *)
Definition and_then {A B} (r : result A) (k : A -> result B) : result B :=
  match r with
  | Ok a => k a
  | Raise e => Raise e
  | Diverge => Diverge
  end.

Declare Scope py_scope.
Delimit Scope py_scope with py.
Notation "'let?' x ':=' r 'in' k" := (and_then r (fun x => k))
  (at level 10, x name, r at level 100, k at level 200) : py_scope.

Module Py.

(* --------------------------------------------------------------------- *)
(** ** Strings *)
(* --------------------------------------------------------------------- *)

(** [s.startswith(p)] *)
Definition startswith (s p : string) : bool := String.prefix p s.

(** [s[n:]] *)
Fixpoint drop (n : nat) (s : string) : string :=
  match n, s with
  | O, _ => s
  | S n', String _ s' => drop n' s'
  | S _, EmptyString => EmptyString
  end.

(** [s.endswith(p)] *)
Definition endswith (s p : string) : bool :=
  (String.length p <=? String.length s)%nat
  && String.eqb (drop (String.length s - String.length p) s) p.

(** [s.split(sep)] for a one-character separator: never empty. *)
Fixpoint split (sep : ascii) (s : string) : list string :=
  match s with
  | EmptyString => [EmptyString]
  | String c s' =>
      if Ascii.eqb c sep then EmptyString :: split sep s'
      else match split sep s' with
           | p :: ps => String c p :: ps
           | [] => [String c EmptyString]
           end
  end.

(** [needle in s] for two strings *)
Fixpoint contains (s needle : string) : bool :=
  String.prefix needle s ||
  match s with
  | EmptyString => false
  | String _ s' => contains s' needle
  end.

(** [str.isspace] on one character (code points below 256):
    TAB, LF, VT, FF, CR, FS, GS, RS, US, SPACE, NEL, NBSP. *)
Definition isspace (c : ascii) : bool :=
  let n := nat_of_ascii c in
  ((9 <=? n) && (n <=? 13) || (28 <=? n) && (n <=? 32)
   || (n =? 133) || (n =? 160))%nat.

Fixpoint lstrip (s : string) : string :=
  match s with
  | String c s' => if isspace c then lstrip s' else s
  | EmptyString => EmptyString
  end.

Fixpoint rstrip (s : string) : string :=
  match s with
  | EmptyString => EmptyString
  | String c s' =>
      match rstrip s' with
      | EmptyString => if isspace c then EmptyString else String c EmptyString
      | r => String c r
      end
  end.

(** [s.strip()] *)
Definition strip (s : string) : string := rstrip (lstrip s).

Definition upper_char (c : ascii) : ascii :=
  let n := nat_of_ascii c in
  if ((97 <=? n) && (n <=? 122))%nat then ascii_of_nat (n - 32) else c.

Definition lower_char (c : ascii) : ascii :=
  let n := nat_of_ascii c in
  if ((65 <=? n) && (n <=? 90))%nat then ascii_of_nat (n + 32) else c.

Fixpoint map_chars (f : ascii -> ascii) (s : string) : string :=
  match s with
  | EmptyString => EmptyString
  | String c s' => String (f c) (map_chars f s')
  end.

(** [s.upper()], [s.lower()] *)
Definition upper : string -> string := map_chars upper_char.
Definition lower : string -> string := map_chars lower_char.

(** [str(n)] and [f"{n}"] for an [int] *)
Definition str_of_int (n : Z) : string := NilZero.string_of_int (Z.to_int n).

(* --------------------------------------------------------------------- *)
(** ** [int(s)] for a string *)
(* --------------------------------------------------------------------- *)

(** The white space that [int()] skips around the number.  It is smaller
    than [isspace]: the separators FS, GS, RS, US are not skipped. *)
Definition int_space (c : ascii) : bool :=
  let n := nat_of_ascii c in
  ((9 <=? n) && (n <=? 13) || (n =? 32) || (n =? 133) || (n =? 160))%nat.

Fixpoint int_lstrip (s : string) : string :=
  match s with
  | String c s' => if int_space c then int_lstrip s' else s
  | EmptyString => EmptyString
  end.

Fixpoint int_rstrip (s : string) : string :=
  match s with
  | EmptyString => EmptyString
  | String c s' =>
      match int_rstrip s' with
      | EmptyString => if int_space c then EmptyString else String c EmptyString
      | r => String c r
      end
  end.

Definition digit_value (c : ascii) : option Z :=
  let n := nat_of_ascii c in
  if ((48 <=? n) && (n <=? 57))%nat then Some (Z.of_nat n - 48) else None.

(** Digits with single underscores between them.  [prev] tells whether
    the previous character was a digit (an underscore is allowed only
    then, and not last); [acc] is the value and [cnt] the number of digits
    read so far. *)
Fixpoint digits (s : string) (prev : bool) (acc : Z) (cnt : nat)
  : option (Z * nat) :=
  match s with
  | EmptyString => if prev then Some (acc, cnt) else None
  | String c s' =>
      match digit_value c with
      | Some d => digits s' true (10 * acc + d) (S cnt)
      | None =>
          if Ascii.eqb c "_" && prev then digits s' false acc cnt else None
      end
  end.

(** [int(s)]: [None] stands for ValueError.  [max_digits] is the
    interpreter's [sys.get_int_max_str_digits()] (4300 unless changed,
    0 for no limit). *)
Definition int_of_str (max_digits : nat) (s : string) : option Z :=
  let body := int_rstrip (int_lstrip s) in
  let '(neg, ds) :=
    match body with
    | String "-" r => (true, r)
    | String "+" r => (false, r)
    | _ => (false, body)
    end in
  match digits ds false 0 0 with
  | Some (v, cnt) =>
      if ((0 <? max_digits) && (max_digits <? cnt))%nat then None
      else Some (if neg then - v else v)
  | None => None
  end.

(* --------------------------------------------------------------------- *)
(** ** JSON values, as [json.loads] returns them *)
(* --------------------------------------------------------------------- *)

(** [None], [bool], [int], [float], [str], [list], [dict].  A [dict] is
    kept as the list of its items; a lookup takes the first binding of a
    key, so that every Python dict is represented. *)
#[warnings="-register-all"]
Inductive json : Type :=
| JNull
| JBool (b : bool)
| JInt (n : Z)
| JFloat (f : spec_float)
| JStr (s : string)
| JList (l : list json)
| JObj (o : list (string * json)).

(** [bool(v)] *)
Definition truthy (v : json) : bool :=
  match v with
  | JNull => false
  | JBool b => b
  | JInt n => negb (Z.eqb n 0)
  | JFloat (S754_zero _) => false
  | JFloat _ => true
  | JStr s => negb (String.eqb s EmptyString)
  | JList l => match l with [] => false | _ => true end
  | JObj o => match o with [] => false | _ => true end
  end.

(** [int(f)] for a finite float: truncation towards zero. *)
Definition trunc_float (s : bool) (m : positive) (e : Z) : Z :=
  let a := if 0 <=? e then Z.pos m * 2 ^ e else Z.pos m / 2 ^ (- e) in
  if s then - a else a.

(** [int(v)] *)
Definition int (max_digits : nat) (v : json) : result Z :=
  match v with
  | JInt n => Ok n
  | JBool b => Ok (if b then 1 else 0)
  | JFloat (S754_zero _) => Ok 0
  | JFloat (S754_infinity _) => Raise OverflowError
  | JFloat S754_nan => Raise ValueError
  | JFloat (S754_finite s m e) => Ok (trunc_float s m e)
  | JStr s =>
      match int_of_str max_digits s with
      | Some n => Ok n
      | None => Raise ValueError
      end
  | JNull | JList _ | JObj _ => Raise TypeError
  end.

(** [str(v)]; [repr] gives the text of floats, lists and dicts. *)
Definition str (repr : json -> string) (v : json) : string :=
  match v with
  | JStr s => s
  | JInt n => str_of_int n
  | JBool true => "True"
  | JBool false => "False"
  | JNull => "None"
  | JFloat _ | JList _ | JObj _ => repr v
  end.

Fixpoint lookup (o : list (string * json)) (k : string) : option json :=
  match o with
  | [] => None
  | (k', v) :: o' => if String.eqb k' k then Some v else lookup o' k
  end.

(** [body.get(k, default)]: AttributeError unless [body] is a dict. *)
Definition get (body : json) (k : string) (default : json) : result json :=
  match body with
  | JObj o => Ok (match lookup o k with Some v => v | None => default end)
  | _ => Raise AttributeError
  end.

Definition is_str (k : string) (v : json) : bool :=
  match v with JStr s => String.eqb s k | _ => false end.

(** [k in body] for a string [k]: key of a dict, element of a list,
    substring of a string; TypeError otherwise. *)
Definition has (body : json) (k : string) : result bool :=
  match body with
  | JObj o => Ok (match lookup o k with Some _ => true | None => false end)
  | JList l => Ok (existsb (is_str k) l)
  | JStr s => Ok (contains s k)
  | JNull | JBool _ | JInt _ | JFloat _ => Raise TypeError
  end.

(** [body[k]] for a string [k] *)
Definition item (body : json) (k : string) : result json :=
  match body with
  | JObj o => match lookup o k with Some v => Ok v | None => Raise KeyError end
  | _ => Raise TypeError
  end.

(* --------------------------------------------------------------------- *)
(** ** Lists *)
(* --------------------------------------------------------------------- *)

(** [items[start:stop]] *)
Definition slice {A} (items : list A) (start stop : Z) : list A :=
  let n := Z.of_nat (length items) in
  let norm i := if i <? 0 then Z.max (i + n) 0 else Z.min i n in
  let lo := norm start in
  let hi := Z.max (norm stop) lo in
  firstn (Z.to_nat (hi - lo)) (skipn (Z.to_nat lo) items).

(** [max(ids, default=0)] *)
Definition max_default0 (ids : list Z) : Z :=
  match ids with
  | [] => 0
  | x :: xs => fold_left Z.max xs x
  end.

(* --------------------------------------------------------------------- *)
(** ** [a / b] on two ints, and [math.ceil] *)
(* --------------------------------------------------------------------- *)

(** [a / b] is the rational a/b rounded to the nearest binary64 number,
    ties to even, subnormals included.  A non-negative float is kept as
    the pair [(m, e)] that stands for m * 2^e. *)

(** num/den rounded to the nearest integer, ties to even (den > 0). *)
Definition round_half_even (num den : Z) : Z :=
  let q := num / den in
  let r := num mod den in
  if 2 * r <? den then q
  else if den <? 2 * r then q + 1
  else if Z.even q then q else q + 1.

(** floor(log2(a/b)) for a, b > 0 *)
Definition quotient_exponent (a b : Z) : Z :=
  let d := Z.log2 a - Z.log2 b in
  if (if 0 <=? d then b * 2 ^ d <=? a else b <=? a * 2 ^ (- d))
  then d else d - 1.

(** [a / b] for 0 <= a and 0 < b (the only use, in [paginate], divides a
    length by a positive page size).  The spacing of the floats around
    a/b is 2^e with e = max(E - 52, -1074). *)
Definition true_divide (a b : Z) : result (Z * Z) :=
  if Z.eqb a 0 then Ok (0, 0)
  else
    let e := Z.max (quotient_exponent a b - 52) (-1074) in
    let m :=
      if 0 <=? e then round_half_even a (b * 2 ^ e)
      else round_half_even (a * 2 ^ (- e)) b in
    if (0 <=? e) && (2 ^ 1024 <=? m * 2 ^ e) then Raise OverflowError
    else Ok (m, e).

(** [math.ceil(x)] for a float m * 2^e *)
Definition ceil (x : Z * Z) : Z :=
  let '(m, e) := x in
  if 0 <=? e then m * 2 ^ e else - ((- m) / 2 ^ (- e)).

End Py.

Import Py.

(** What the program takes from the interpreter and its libraries. *)
Record Runtime : Type := {
  (** [sys.get_int_max_str_digits()] *)
  int_max_str_digits : nat;
  (** [repr] of floats, lists and dicts, as [str()] prints them *)
  repr : json -> string;
  (** [hashlib.sha256(s.encode("utf-8")).hexdigest()] *)
  sha256_hexdigest : string -> string;
  (** [datetime.isoformat()]; an instant is a number of microseconds *)
  isoformat : Z -> string
}.

(** [timedelta(days=n)], in microseconds *)
Definition timedelta_days (n : Z) : Z := n * 86400000000.

(* ===================================================================== *)
(** * models.py *)
(* ===================================================================== *)

(** The fields read from a request body are stored as they come: the
    username and e-mail of a user and the name of an author hold whatever
    JSON value the client sent. *)

Module User.
Record t : Type := {
  id : Z;
  username : json;
  email : json;
  password_hash : string;
  role : string
}.
End User.

Module Author.
Record t : Type := { id : Z; name : json }.

Definition set_name (a : t) (v : json) : t := {| id := id a; name := v |}.
End Author.

Module Book.
Record t : Type := {
  id : Z;
  title : string;
  publication_year : Z;
  isbn : string;
  author_id : Z;
  total_copies : Z;
  available_copies : Z
}.

Definition set_title (b : t) (v : string) : t :=
  {| id := id b; title := v; publication_year := publication_year b;
     isbn := isbn b; author_id := author_id b;
     total_copies := total_copies b;
     available_copies := available_copies b |}.
Definition set_publication_year (b : t) (v : Z) : t :=
  {| id := id b; title := title b; publication_year := v;
     isbn := isbn b; author_id := author_id b;
     total_copies := total_copies b;
     available_copies := available_copies b |}.
Definition set_isbn (b : t) (v : string) : t :=
  {| id := id b; title := title b; publication_year := publication_year b;
     isbn := v; author_id := author_id b;
     total_copies := total_copies b;
     available_copies := available_copies b |}.
Definition set_author_id (b : t) (v : Z) : t :=
  {| id := id b; title := title b; publication_year := publication_year b;
     isbn := isbn b; author_id := v;
     total_copies := total_copies b;
     available_copies := available_copies b |}.
Definition set_total_copies (b : t) (v : Z) : t :=
  {| id := id b; title := title b; publication_year := publication_year b;
     isbn := isbn b; author_id := author_id b;
     total_copies := v;
     available_copies := available_copies b |}.
Definition set_available_copies (b : t) (v : Z) : t :=
  {| id := id b; title := title b; publication_year := publication_year b;
     isbn := isbn b; author_id := author_id b;
     total_copies := total_copies b;
     available_copies := v |}.
End Book.

Module Loan.
Record t : Type := {
  id : Z;
  user_id : Z;
  book_id : Z;
  borrowed_at : string;
  due_at : string;
  returned_at : option string
}.

Definition set_returned_at (l : t) (v : option string) : t :=
  {| id := id l; user_id := user_id l; book_id := book_id l;
     borrowed_at := borrowed_at l; due_at := due_at l;
     returned_at := v |}.

(** The property [status]. *)
Definition status (l : t) : string :=
  match returned_at l with
  | Some _ => "RETURNED"
  | None => "BORROWED"
  end.
End Loan.

(* ===================================================================== *)
(** * storage.py *)
(* ===================================================================== *)

(** The content of the data directory. *)
Record Data : Type := {
  users : list User.t;
  authors : list Author.t;
  books : list Book.t;
  loans : list Loan.t;
  tokens : gmap string Z
}.

Inductive File : Type :=
| users_json | authors_json | books_json | loans_json | tokens_json.

(** The data directory and the files written so far, oldest first. *)
Record World : Type := {
  data : Data;
  written : list File
}.

(** A computation over the data directory. *)
Definition M (A : Type) : Type := World -> result A * World.

Definition ret {A} (a : A) : M A := fun w => (Ok a, w).

Definition bind {A B} (m : M A) (k : A -> M B) : M B :=
  fun w =>
    match m w with
    | (Ok a, w') => k a w'
    | (Raise e, w') => (Raise e, w')
    | (Diverge, w') => (Diverge, w')
    end.

(** A computation that does not touch the files. *)
Definition lift {A} (r : result A) : M A := fun w => (r, w).

Definition raise {A} (e : exn) : M A := lift (Raise e).

Notation "'let*' x ':=' m 'in' k" := (bind m (fun x => k))
  (at level 10, x name, m at level 100, k at level 200) : py_scope.
Notation "m ';;' k" := (bind m (fun _ => k))
  (at level 100, k at level 200, right associativity) : py_scope.
Local Open Scope py_scope.

(** [try: x = r ... except (caught): handler], the body continuing with
    [ok x]; an exception that is not caught goes on. *)
Definition try_except {A B} (caught : exn -> bool) (r : result A)
    (ok : A -> M B) (handler : M B) : M B :=
  match r with
  | Ok a => ok a
  | Raise e => if caught e then handler else raise e
  | Diverge => lift Diverge
  end.

Definition is_ValueError (e : exn) : bool :=
  match e with ValueError => true | _ => false end.
Definition is_TypeError_or_ValueError (e : exn) : bool :=
  match e with ValueError | TypeError => true | _ => false end.

Definition load_users : M (list User.t) := fun w => (Ok (users (data w)), w).
Definition load_authors : M (list Author.t) :=
  fun w => (Ok (authors (data w)), w).
Definition load_books : M (list Book.t) := fun w => (Ok (books (data w)), w).
Definition load_loans : M (list Loan.t) := fun w => (Ok (loans (data w)), w).
Definition load_tokens : M (gmap string Z) :=
  fun w => (Ok (tokens (data w)), w).

Definition save_users (us : list User.t) : M unit := fun w =>
  (Ok tt,
   {| data := {| users := us; authors := authors (data w);
                 books := books (data w); loans := loans (data w);
                 tokens := tokens (data w) |};
      written := written w ++ [users_json] |}).

Definition save_authors (aus : list Author.t) : M unit := fun w =>
  (Ok tt,
   {| data := {| users := users (data w); authors := aus;
                 books := books (data w); loans := loans (data w);
                 tokens := tokens (data w) |};
      written := written w ++ [authors_json] |}).

Definition save_books (bs : list Book.t) : M unit := fun w =>
  (Ok tt,
   {| data := {| users := users (data w); authors := authors (data w);
                 books := bs; loans := loans (data w);
                 tokens := tokens (data w) |};
      written := written w ++ [books_json] |}).

Definition save_loans (ls : list Loan.t) : M unit := fun w =>
  (Ok tt,
   {| data := {| users := users (data w); authors := authors (data w);
                 books := books (data w); loans := ls;
                 tokens := tokens (data w) |};
      written := written w ++ [loans_json] |}).

Definition save_tokens (ts : gmap string Z) : M unit := fun w =>
  (Ok tt,
   {| data := {| users := users (data w); authors := authors (data w);
                 books := books (data w); loans := loans (data w);
                 tokens := ts |};
      written := written w ++ [tokens_json] |}).

(* ===================================================================== *)
(** * utils.py *)
(* ===================================================================== *)

(** The second component of the result of [paginate]. *)
Module Pagination.
Record t : Type := {
  count : Z;
  page : Z;
  page_size : Z;
  total_pages : Z
}.
End Pagination.

(** [paginate(items, page, page_size)]: OverflowError when the quotient
    of the division is too large for a float. *)
Definition paginate {A} (items : list A) (page page_size : Z)
  : result (list A * Pagination.t) :=
  let total := Z.of_nat (length items) in
  let page := Z.max page 1 in
  let page_size := Z.max page_size 1 in
  let start := (page - 1) * page_size in
  let end_ := start + page_size in
  let paged := slice items start end_ in
  let? pages :=
    if 0 <? page_size
    then let? x := true_divide total page_size in Ok (ceil x)
    else Ok 1 in
  Ok (paged,
      {| Pagination.count := total; Pagination.page := page;
         Pagination.page_size := page_size;
         Pagination.total_pages := pages |}).

(** [v.lower()] and [v.upper()] on a JSON value: only [str] has them. *)
Definition str_lower (v : json) : result string :=
  match v with JStr s => Ok (lower s) | _ => Raise AttributeError end.
Definition str_upper (v : json) : result string :=
  match v with JStr s => Ok (upper s) | _ => Raise AttributeError end.

(** What a request brings besides its text: the clock and the values that
    [secrets.token_hex(16)] returns, in the order of the calls. *)
Record Env : Type := {
  utcnow : Z;
  token_hex : list string
}.

(** A request, as the handler reads it: the path component of the URL,
    the Authorization header (empty when absent) and what
    [_parse_json_body] makes of the body ([None] for an empty or
    malformed one; it raises on a Content-Length that is not a number and
    on bytes that are not UTF-8). *)
Record Request : Type := {
  path : string;
  authorization : string;
  json_body : result (option json)
}.

Inductive Payload : Type :=
| Error (detail code : string)
| UserSummary (id : Z) (username email : json) (role : string)
| TokenBody (token : option string)
| AuthorDict (a : Author.t)
| BookDict (b : Book.t)
| LoanDict (l : Loan.t).

(** What is sent back: a JSON document with a status, or 204. *)
Inductive Response : Type :=
| Json (status : Z) (payload : Payload)
| NoContent.

Section Program.

Variable rt : Runtime.

(* ===================================================================== *)
(** * auth.py *)
(* ===================================================================== *)

Definition _hash_password (password : json) : result string :=
  match password with
  | JStr s => Ok (sha256_hexdigest rt s)
  | _ => Raise AttributeError
  end.

(** [any(field(u).lower() == x.lower() for u in users)] *)
Fixpoint any_same_lower (field : User.t -> json) (x : json)
    (us : list User.t) : result bool :=
  match us with
  | [] => Ok false
  | u :: us' =>
      let? a := str_lower (field u) in
      let? b := str_lower x in
      if String.eqb a b then Ok true else any_same_lower field x us'
  end.

Definition register_user (username email password role : json)
  : M (option User.t * option string) :=
  let* users := load_users in
  let* taken := lift (any_same_lower User.username username users) in
  if taken : bool then ret (None, Some "username_taken") else
  let* taken := lift (any_same_lower User.email email users) in
  if taken : bool then ret (None, Some "email_taken") else
  let next_id := max_default0 (map User.id users) + 1 in
  let* password_hash := lift (_hash_password password) in
  let* role := lift (str_upper role) in
  let new_user :=
    {| User.id := next_id; User.username := username; User.email := email;
       User.password_hash := password_hash; User.role := role |} in
  let users := users ++ [new_user] in
  save_users users ;;
  ret (Some new_user, None).

(** The loop of [authenticate_user]. *)
Fixpoint first_with_credentials (username : json) (password_hash : string)
    (us : list User.t) : result (option User.t) :=
  match us with
  | [] => Ok None
  | u :: us' =>
      let? a := str_lower (User.username u) in
      let? b := str_lower username in
      if String.eqb a b && String.eqb (User.password_hash u) password_hash
      then Ok (Some u)
      else first_with_credentials username password_hash us'
  end.

Definition authenticate_user (username password : json)
  : M (option User.t) :=
  let* users := load_users in
  let* password_hash := lift (_hash_password password) in
  lift (first_with_credentials username password_hash users).

(** [while True: token = secrets.token_hex(16); if token not in tokens:
    break].  The loop has no bound: when every value drawn is in use it
    does not end. *)
Fixpoint fresh_token (draws : list string) (tokens : gmap string Z)
  : result string :=
  match draws with
  | [] => Diverge
  | token :: draws' =>
      match tokens !! token with
      | None => Ok token
      | Some _ => fresh_token draws' tokens
      end
  end.

Definition login (env : Env) (username password : json)
  : M (option string * option string) :=
  let* user := authenticate_user username password in
  match user with
  | None => ret (None, Some "invalid_credentials")
  | Some user =>
      let* tokens := load_tokens in
      let* token := lift (fresh_token (token_hex env) tokens) in
      let tokens := <[token := User.id user]> tokens in
      save_tokens tokens ;;
      ret (Some token, None)
  end.

Definition logout (token : string) : M bool :=
  let* tokens := load_tokens in
  match tokens !! token with
  | Some _ =>
      save_tokens (delete token tokens) ;;
      ret true
  | None => ret false
  end.

Definition get_user_by_token (token : string) : M (option User.t) :=
  let* tokens := load_tokens in
  match tokens !! token with
  | None => ret None
  | Some user_id =>
      let* users := load_users in
      ret (snd <$> list_find (fun u => User.id u = user_id) users)
  end.

Definition require_role (user : option User.t) (roles : list string) : bool :=
  match user with
  | None => false
  | Some u =>
      existsb (String.eqb (upper (User.role u))) (map upper roles)
  end.

(* ===================================================================== *)
(** * app.py *)
(* ===================================================================== *)

Definition _send_json (payload : Payload) (status : Z) : M Response :=
  ret (Json status payload).

Definition _parse_json_body (req : Request) : M (option json) :=
  lift (json_body req).

(** [self._parse_json_body() or {}] *)
Definition or_empty_dict (parsed : option json) : json :=
  match parsed with
  | Some v => if truthy v then v else JObj []
  | None => JObj []
  end.

Definition _get_auth_user (req : Request) : M (option User.t) :=
  let auth_header := authorization req in
  if startswith auth_header "Token "
  then get_user_by_token (strip (Py.drop 6 auth_header))
  else ret None.

Definition _parse_resource_path (path prefix : string)
  : string * option Z :=
  let prefix := if endswith prefix "/" then prefix else prefix +:+ "/" in
  if negb (startswith path prefix) then (path, None)
  else
    let remainder := Py.drop (String.length prefix) path in
    if String.eqb remainder EmptyString || String.eqb remainder "/"
    then (prefix, None)
    else
      let parts := split "/" remainder in
      match int_of_str (int_max_str_digits rt) (hd EmptyString parts) with
      | Some res_id => (prefix +:+ str_of_int res_id +:+ "/", Some res_id)
      | None => (path, None)
      end.

(** [user.id], for the user that [_get_auth_user] returned.  Where the
    handlers read it [require_role] has passed, so the user is not None. *)
Definition id_of (user : option User.t) : result Z :=
  match user with
  | Some u => Ok (User.id u)
  | None => Raise AttributeError
  end.

(** [body.get("book_id") or body.get("book")] *)
Definition book_id_of (body : json) : result json :=
  let? a := get body "book_id" JNull in
  if truthy a then Ok a else get body "book" JNull.

(** ** do_POST *)

(** POST /api/auth/register/ *)
Definition post_auth_register (req : Request) : M Response :=
  let* parsed := _parse_json_body req in
  let body := or_empty_dict parsed in
  let* username := lift (get body "username" JNull) in
  let* email := lift (get body "email" JNull) in
  let* password := lift (get body "password" JNull) in
  let* role := lift (get body "role" (JStr "MEMBER")) in
  if negb (truthy username) || negb (truthy email) || negb (truthy password)
  then _send_json (Error "Missing fields" "invalid") 400
  else
    let* ue := register_user username email password role in
    match snd ue with
    | Some "username_taken" =>
        _send_json (Error "Username already exists" "username_taken") 400
    | Some "email_taken" =>
        _send_json (Error "Email already exists" "email_taken") 400
    | _ =>
        match fst ue with
        | Some user =>
            _send_json
              (UserSummary (User.id user) (User.username user)
                 (User.email user) (User.role user)) 201
        | None => raise AttributeError
        end
    end.

(** POST /api/auth/login/ *)
Definition post_auth_login (env : Env) (req : Request) : M Response :=
  let* parsed := _parse_json_body req in
  let body := or_empty_dict parsed in
  let* username := lift (get body "username" JNull) in
  let* password := lift (get body "password" JNull) in
  if negb (truthy username) || negb (truthy password)
  then _send_json (Error "Missing credentials" "invalid") 400
  else
    let* te := login env username password in
    let error := snd te in
    if match error with
       | Some e => negb (String.eqb e EmptyString)
       | None => false
       end
    then _send_json
           (Error "Invalid username or password" "invalid_credentials") 401
    else _send_json (TokenBody (fst te)) 200.

(** POST /api/auth/logout/ *)
Definition post_auth_logout (req : Request) : M Response :=
  let* user := _get_auth_user req in
  match user with
  | None =>
      _send_json (Error "Authentication required" "not_authenticated") 401
  | Some _ =>
      let token :=
        if startswith (authorization req) "Token "
        then strip (Py.drop 6 (authorization req))
        else EmptyString in
      let* removed := logout token in
      if removed : bool then ret NoContent
      else _send_json (Error "Invalid token" "invalid") 401
  end.

(** POST /api/loans/borrow/ *)
Definition post_loans_borrow (env : Env) (req : Request) : M Response :=
  let* user := _get_auth_user req in
  if negb (require_role user ["MEMBER"; "LIBRARIAN"; "ADMIN"])
  then _send_json (Error "Authentication required" "not_authenticated") 401
  else
    let* parsed := _parse_json_body req in
    let body := or_empty_dict parsed in
    let* book_id := lift (book_id_of body) in
    if negb (truthy book_id)
    then _send_json (Error "Missing book_id" "invalid") 400
    else
      try_except is_ValueError (int (int_max_str_digits rt) book_id)
        (fun book_id =>
           let* books := load_books in
           match list_find (fun b => Book.id b = book_id) books with
           | None => _send_json (Error "Book not found" "not_found") 404
           | Some (i, book) =>
               if Book.available_copies book <? 1
               then _send_json (Error "No copies available" "no_copies") 409
               else
                 let* loans := load_loans in
                 let* uid := lift (id_of user) in
                 match
                   list_find
                     (fun l => Loan.user_id l = uid
                               /\ Loan.book_id l = book_id
                               /\ Loan.returned_at l = None) loans
                 with
                 | Some _ =>
                     _send_json
                       (Error "Book already borrowed by user"
                          "duplicate_loan") 409
                 | None =>
                     let next_id := max_default0 (map Loan.id loans) + 1 in
                     let now := utcnow env in
                     let due := now + timedelta_days 14 in
                     let new_loan :=
                       {| Loan.id := next_id; Loan.user_id := uid;
                          Loan.book_id := book_id;
                          Loan.borrowed_at := isoformat rt now;
                          Loan.due_at := isoformat rt due;
                          Loan.returned_at := None |} in
                     let loans := loans ++ [new_loan] in
                     let books :=
                       <[i := Book.set_available_copies book
                                (Book.available_copies book - 1)]> books in
                     save_books books ;;
                     save_loans loans ;;
                     _send_json (LoanDict new_loan) 201
                 end
           end)
        (_send_json (Error "Invalid book_id" "invalid") 400).

(** The loan that POST /api/loans/return/ is about: by [loan_id] when
    the body has one, else by [book_id] among the open loans of the
    user.  A ValueError of [int()] leaves it unset. *)
Definition target_loan_of (loan_id book_id : json) (user : option User.t)
    (loans : list Loan.t) : result (option (nat * Loan.t)) :=
  match loan_id with
  | JNull =>
      match book_id with
      | JNull => Ok None
      | _ =>
          match int (int_max_str_digits rt) book_id with
          | Ok book_id =>
              let? uid := id_of user in
              Ok (list_find
                    (fun l => Loan.book_id l = book_id
                              /\ Loan.user_id l = uid
                              /\ Loan.returned_at l = None) loans)
          | Raise ValueError => Ok None
          | Raise e => Raise e
          | Diverge => Diverge
          end
      end
  | _ =>
      match int (int_max_str_digits rt) loan_id with
      | Ok loan_id => Ok (list_find (fun l => Loan.id l = loan_id) loans)
      | Raise ValueError => Ok None
      | Raise e => Raise e
      | Diverge => Diverge
      end
  end.

(** POST /api/loans/return/ *)
Definition post_loans_return (env : Env) (req : Request) : M Response :=
  let* user := _get_auth_user req in
  if negb (require_role user ["MEMBER"; "LIBRARIAN"; "ADMIN"])
  then _send_json (Error "Authentication required" "not_authenticated") 401
  else
    let* parsed := _parse_json_body req in
    let body := or_empty_dict parsed in
    let* loan_id := lift (get body "loan_id" JNull) in
    let* book_id := lift (book_id_of body) in
    let* loans := load_loans in
    let* books := load_books in
    let* target := lift (target_loan_of loan_id book_id user loans) in
    match target with
    | None => _send_json (Error "Loan not found" "not_found") 404
    | Some (k, target_loan) =>
        let* uid := lift (id_of user) in
        if negb (Loan.user_id target_loan =? uid)
           && negb (require_role user ["LIBRARIAN"; "ADMIN"])
        then _send_json (Error "Forbidden" "permission_denied") 403
        else
          match Loan.returned_at target_loan with
          | Some _ =>
              _send_json (Error "Loan already returned" "already_returned")
                409
          | None =>
              let now := isoformat rt (utcnow env) in
              let target_loan := Loan.set_returned_at target_loan (Some now) in
              let loans := <[k := target_loan]> loans in
              match
                list_find (fun b => Book.id b = Loan.book_id target_loan)
                  books
              with
              | Some (i, book) =>
                  let books :=
                    <[i := Book.set_available_copies book
                             (Book.available_copies book + 1)]> books in
                  save_books books ;;
                  save_loans loans ;;
                  _send_json (LoanDict target_loan) 200
              | None =>
                  save_loans loans ;;
                  _send_json (LoanDict target_loan) 200
              end
          end
    end.

(** POST /api/authors/ *)
Definition post_authors (req : Request) : M Response :=
  let* user := _get_auth_user req in
  if negb (require_role user ["LIBRARIAN"; "ADMIN"])
  then _send_json (Error "Authentication required" "not_authenticated") 401
  else
    let* parsed := _parse_json_body req in
    let body := or_empty_dict parsed in
    let* name := lift (get body "name" JNull) in
    if negb (truthy name)
    then _send_json (Error "Missing name" "invalid") 400
    else
      let* authors := load_authors in
      let next_id := max_default0 (map Author.id authors) + 1 in
      let new_author := {| Author.id := next_id; Author.name := name |} in
      let authors := authors ++ [new_author] in
      save_authors authors ;;
      _send_json (AuthorDict new_author) 201.

(** [all(field in body for field in required_fields)] *)
Fixpoint all_in (body : json) (fields : list string) : result bool :=
  match fields with
  | [] => Ok true
  | f :: fields' =>
      let? present := has body f in
      if present : bool then all_in body fields' else Ok false
  end.

(** The conversions of the book creation, in the order of the source:
    title, publication_year, isbn, author, total_copies,
    available_copies. *)
Definition new_book_fields (body : json)
  : result (string * Z * string * Z * Z * Z) :=
  let? title := item body "title" in
  let title := str (repr rt) title in
  let? publication_year := item body "publication_year" in
  let? publication_year := int (int_max_str_digits rt) publication_year in
  let? isbn := item body "isbn" in
  let isbn := str (repr rt) isbn in
  let? author_id := item body "author" in
  let? author_id := int (int_max_str_digits rt) author_id in
  let? total_copies := item body "total_copies" in
  let? total_copies := int (int_max_str_digits rt) total_copies in
  let? available_copies := get body "available_copies" (JInt total_copies) in
  let? available_copies := int (int_max_str_digits rt) available_copies in
  Ok (title, publication_year, isbn, author_id, total_copies,
      available_copies).

(** POST /api/books/ *)
Definition post_books (req : Request) : M Response :=
  let* user := _get_auth_user req in
  if negb (require_role user ["LIBRARIAN"; "ADMIN"])
  then _send_json (Error "Authentication required" "not_authenticated") 401
  else
    let* parsed := _parse_json_body req in
    let body := or_empty_dict parsed in
    let* complete :=
      lift (all_in body ["title"; "publication_year"; "isbn"; "author";
                         "total_copies"]) in
    if negb complete
    then _send_json (Error "Missing fields" "invalid") 400
    else
      try_except is_TypeError_or_ValueError (new_book_fields body)
        (fun '(title, publication_year, isbn, author_id, total_copies,
               available_copies) =>
           let* authors := load_authors in
           if negb (existsb (fun a => Author.id a =? author_id) authors)
           then _send_json (Error "Author not found" "invalid_author") 400
           else
             let* books := load_books in
             let next_id := max_default0 (map Book.id books) + 1 in
             let new_book :=
               {| Book.id := next_id; Book.title := title;
                  Book.publication_year := publication_year;
                  Book.isbn := isbn; Book.author_id := author_id;
                  Book.total_copies := total_copies;
                  Book.available_copies := available_copies |} in
             let books := books ++ [new_book] in
             save_books books ;;
             _send_json (BookDict new_book) 201)
        (_send_json (Error "Invalid field types" "invalid") 400).

Definition not_found : M Response :=
  _send_json (Error "Not found" "not_found") 404.

Definition do_POST (env : Env) (req : Request) : M Response :=
  let path := path req in
  if String.eqb path "/api/auth/register/" then post_auth_register req
  else if String.eqb path "/api/auth/login/" then post_auth_login env req
  else if String.eqb path "/api/auth/logout/" then post_auth_logout req
  else if String.eqb path "/api/loans/borrow/" then post_loans_borrow env req
  else if String.eqb path "/api/loans/return/" then post_loans_return env req
  else if String.eqb path "/api/authors/" then post_authors req
  else if String.eqb path "/api/books/" then post_books req
  else not_found.

(** ** do_PUT *)

(** PUT /api/authors/{id}/ *)
Definition put_author (req : Request) (res_id : Z) : M Response :=
  let* user := _get_auth_user req in
  if negb (require_role user ["LIBRARIAN"; "ADMIN"])
  then _send_json (Error "Forbidden" "permission_denied") 403
  else
    let* parsed := _parse_json_body req in
    let body := or_empty_dict parsed in
    let* authors := load_authors in
    match list_find (fun a => Author.id a = res_id) authors with
    | None => _send_json (Error "Author not found" "not_found") 404
    | Some (i, author) =>
        let* name := lift (get body "name" JNull) in
        if truthy name
        then
          let author := Author.set_name author name in
          save_authors (<[i := author]> authors) ;;
          _send_json (AuthorDict author) 200
        else _send_json (AuthorDict author) 200
    end.

(** [int(body[k])] *)
Definition int_item (body : json) (k : string) : result Z :=
  let? v := item body k in
  int (int_max_str_digits rt) v.

(** The field updates of PUT /api/books/{id}/, in the order of the
    source; the book is the object found in the list. *)
Definition update_book (body : json) (book : Book.t) : M Book.t :=
  let* present := lift (has body "title") in
  let* book :=
    if present : bool
    then let* v := lift (item body "title") in
         ret (Book.set_title book (str (repr rt) v))
    else ret book in
  let* present := lift (has body "publication_year") in
  let* book :=
    if present : bool
    then try_except is_TypeError_or_ValueError
           (int_item body "publication_year")
           (fun year => ret (Book.set_publication_year book year))
           (ret book)
    else ret book in
  let* present := lift (has body "isbn") in
  let* book :=
    if present : bool
    then let* v := lift (item body "isbn") in
         ret (Book.set_isbn book (str (repr rt) v))
    else ret book in
  let* present := lift (has body "author") in
  let* book :=
    if present : bool
    then try_except is_TypeError_or_ValueError (int_item body "author")
           (fun author_id =>
              let* authors := load_authors in
              if existsb (fun a => Author.id a =? author_id) authors
              then ret (Book.set_author_id book author_id)
              else ret book)
           (ret book)
    else ret book in
  let* present := lift (has body "total_copies") in
  let* book :=
    if present : bool
    then try_except is_TypeError_or_ValueError (int_item body "total_copies")
           (fun new_total =>
              let diff := new_total - Book.total_copies book in
              let book := Book.set_total_copies book new_total in
              ret (Book.set_available_copies book
                     (Z.max (Book.available_copies book + diff) 0)))
           (ret book)
    else ret book in
  let* present := lift (has body "available_copies") in
  if present : bool
  then try_except is_TypeError_or_ValueError
         (int_item body "available_copies")
         (fun n => ret (Book.set_available_copies book n))
         (ret book)
  else ret book.

(** PUT /api/books/{id}/ *)
Definition put_book (req : Request) (res_id : Z) : M Response :=
  let* user := _get_auth_user req in
  if negb (require_role user ["LIBRARIAN"; "ADMIN"])
  then _send_json (Error "Forbidden" "permission_denied") 403
  else
    let* parsed := _parse_json_body req in
    let body := or_empty_dict parsed in
    let* books := load_books in
    match list_find (fun b => Book.id b = res_id) books with
    | None => _send_json (Error "Book not found" "not_found") 404
    | Some (i, book) =>
        let* book := update_book body book in
        save_books (<[i := book]> books) ;;
        _send_json (BookDict book) 200
    end.

(** [base.startswith(prefix) and res_id is not None], after
    [base, res_id = self._parse_resource_path(path, prefix)] *)
Definition detail_id (path prefix : string) : option Z :=
  let '(base, res_id) := _parse_resource_path path prefix in
  if startswith base prefix then res_id else None.

Definition do_PUT (req : Request) : M Response :=
  let path := path req in
  match detail_id path "/api/authors/" with
  | Some res_id => put_author req res_id
  | None =>
      match detail_id path "/api/books/" with
      | Some res_id => put_book req res_id
      | None => not_found
      end
  end.

(** ** do_PATCH *)

Definition do_PATCH (req : Request) : M Response := do_PUT req.

(** ** do_DELETE *)

(** DELETE /api/authors/{id}/ *)
Definition delete_author (req : Request) (res_id : Z) : M Response :=
  let* user := _get_auth_user req in
  if negb (require_role user ["LIBRARIAN"; "ADMIN"])
  then _send_json (Error "Forbidden" "permission_denied") 403
  else
    let* authors := load_authors in
    if negb (existsb (fun a => Author.id a =? res_id) authors)
    then _send_json (Error "Author not found" "not_found") 404
    else
      let authors :=
        List.filter (fun a => negb (Author.id a =? res_id)) authors in
      save_authors authors ;;
      ret NoContent.

(** DELETE /api/books/{id}/ *)
Definition delete_book (req : Request) (res_id : Z) : M Response :=
  let* user := _get_auth_user req in
  if negb (require_role user ["LIBRARIAN"; "ADMIN"])
  then _send_json (Error "Forbidden" "permission_denied") 403
  else
    let* books := load_books in
    match list_find (fun b => Book.id b = res_id) books with
    | None => _send_json (Error "Book not found" "not_found") 404
    | Some _ =>
        let books :=
          List.filter (fun b => negb (Book.id b =? res_id)) books in
        save_books books ;;
        ret NoContent
    end.

Definition do_DELETE (req : Request) : M Response :=
  let path := path req in
  match detail_id path "/api/authors/" with
  | Some res_id => delete_author req res_id
  | None =>
      match detail_id path "/api/books/" with
      | Some res_id => delete_book req res_id
      | None => not_found
      end
  end.

(** ** The methods that can change the files *)

Inductive Method : Type := POST | PUT | PATCH | DELETE.

(** http.server calls the method [do_<METHOD>] of the handler. *)
Definition handle (m : Method) (env : Env) (req : Request) : M Response :=
  match m with
  | POST => do_POST env req
  | PUT => do_PUT req
  | PATCH => do_PATCH req
  | DELETE => do_DELETE req
  end.

End Program.


(* ===================================================================== *)
(** * utils.py: search, filters, ordering *)
(* ===================================================================== *)

(** [[x for x in l if p(x)]], where [p] can raise. *)
Fixpoint filter_result {A} (p : A -> result bool) (l : list A)
  : result (list A) :=
  match l with
  | [] => Ok []
  | x :: l' =>
      let? keep := p x in
      let? rest := filter_result p l' in
      Ok (if keep : bool then x :: rest else rest)
  end.

(** [[f(x) for x in l]], where [f] can raise. *)
Fixpoint map_result {A B} (f : A -> result B) (l : list A)
  : result (list B) :=
  match l with
  | [] => Ok []
  | x :: l' =>
      let? y := f x in
      let? rest := map_result f l' in
      Ok (y :: rest)
  end.

(** The keys that the orderings compare: ints and strings. *)
Inductive sortkey : Type :=
| KInt (n : Z)
| KStr (s : string).

(** [k1 < k2]; an ordering compares keys of one kind only. *)
Definition key_lt (k1 k2 : sortkey) : bool :=
  match k1, k2 with
  | KInt a, KInt b => a <? b
  | KStr a, KStr b => String.ltb a b
  | _, _ => false
  end.

(** [sorted] is stable: among equal keys the order of the input stays,
    also with [reverse=True], where the comparisons are turned round.
    The elements come with their keys; [x] stood before all of [l]. *)
Fixpoint insert_sorted {A} (reverse : bool) (x : sortkey * A)
    (l : list (sortkey * A)) : list (sortkey * A) :=
  match l with
  | [] => [x]
  | y :: l' =>
      if (if reverse then key_lt (fst x) (fst y) else key_lt (fst y) (fst x))
      then y :: insert_sorted reverse x l'
      else x :: y :: l'
  end.

Definition sort_keyed {A} (reverse : bool) (l : list (sortkey * A))
  : list (sortkey * A) :=
  fold_right (insert_sorted reverse) [] l.

(** [sorted(l, key=key, reverse=reverse)]: the keys are computed first,
    in the order of the list. *)
Definition sorted {A} (key : A -> result sortkey) (reverse : bool)
    (l : list A) : result (list A) :=
  let? ks := map_result key l in
  Ok (map snd (sort_keyed reverse (zip ks l))).

(** The head of the orderings: an empty ordering and a field that is not
    in [key_funcs] leave the list as it is. *)
Definition apply_order {A} (key_funcs : string -> option (A -> result sortkey))
    (l : list A) (ordering : string) : result (list A) :=
  if String.eqb ordering EmptyString then Ok l
  else
    let reverse := startswith ordering "-" in
    let field := if reverse then Py.drop 1 ordering else ordering in
    match key_funcs field with
    | None => Ok l
    | Some key => sorted key reverse l
    end.

Definition apply_author_search (authors : list Author.t) (search : string)
  : result (list Author.t) :=
  if String.eqb search EmptyString then Ok authors
  else
    let term := lower search in
    filter_result
      (fun a => let? name := str_lower (Author.name a) in
                Ok (contains name term))
      authors.

Definition author_key_funcs (field : string)
  : option (Author.t -> result sortkey) :=
  if String.eqb field "id" then Some (fun a => Ok (KInt (Author.id a)))
  else if String.eqb field "name"
  then Some (fun a => let? name := str_lower (Author.name a) in
                      Ok (KStr name))
  else None.

Definition apply_author_order (authors : list Author.t) (ordering : string)
  : result (list Author.t) :=
  apply_order author_key_funcs authors ordering.

(** [{a.id: a for a in authors}]: the last author of an id stays. *)
Definition author_lookup (authors : list Author.t) : gmap Z Author.t :=
  fold_left (fun m a => <[Author.id a := a]> m) authors ∅.

Definition apply_book_search (books : list Book.t) (authors : list Author.t)
    (search : string) : result (list Book.t) :=
  if String.eqb search EmptyString then Ok books
  else
    let term := lower search in
    let lookup := author_lookup authors in
    filter_result
      (fun b =>
         if contains (lower (Book.title b)) term then Ok true
         else
           match lookup !! Book.author_id b with
           | Some author =>
               let? name := str_lower (Author.name author) in
               Ok (contains name term)
           | None => Ok false
           end)
      books.

(** [loan.__dict__ | {"status": loan.status, "overdue":
    loan.is_overdue()}] *)
Module LoanView.
Record t : Type := {
  loan : Loan.t;
  status : string;
  overdue : bool
}.
End LoanView.

(** What GET sends: the documents of the other methods, and the pages
    of results with their pagination. *)
Inductive GetPayload : Type :=
| Plain (p : Payload)
| AuthorPage (results : list Author.t) (meta : Pagination.t)
| BookPage (results : list Book.t) (meta : Pagination.t)
| LoanPage (results : list LoanView.t) (meta : Pagination.t)
| LoanDetail (v : LoanView.t).

Inductive GetResponse : Type :=
| GetJson (status : Z) (payload : GetPayload).

Section Queries.

Variable rt : Runtime.

(** [datetime.fromisoformat(s)], as the instant that is compared with
    [utcnow()]; a string that is not a date raises ValueError, and a
    date with an offset makes the comparison raise TypeError. *)
Variable fromisoformat : string -> result Z.

(** One integer filter: [if k in params: try: v = int(params[k]);
    filtered = [x for x in filtered if field(x) == v] except ValueError:
    pass]. *)
Definition filter_int_param {A} (params : gmap string string) (k : string)
    (field : A -> Z) (filtered : list A) : list A :=
  match params !! k with
  | None => filtered
  | Some s =>
      match int_of_str (int_max_str_digits rt) s with
      | Some v => List.filter (fun x => field x =? v) filtered
      | None => filtered
      end
  end.

Definition apply_book_filters (books : list Book.t)
    (params : gmap string string) : list Book.t :=
  let filtered := books in
  let filtered := filter_int_param params "author" Book.author_id filtered in
  filter_int_param params "publication_year" Book.publication_year filtered.

Definition book_key_funcs (field : string)
  : option (Book.t -> result sortkey) :=
  if String.eqb field "id" then Some (fun b => Ok (KInt (Book.id b)))
  else if String.eqb field "title"
  then Some (fun b => Ok (KStr (lower (Book.title b))))
  else if String.eqb field "publication_year"
  then Some (fun b => Ok (KInt (Book.publication_year b)))
  else if String.eqb field "author"
  then Some (fun b => Ok (KInt (Book.author_id b)))
  else None.

Definition apply_book_order (books : list Book.t) (ordering : string)
  : result (list Book.t) :=
  apply_order book_key_funcs books ordering.

(** [Loan.is_overdue]: a returned loan is not overdue and the clock is
    not read; else the due date is parsed and compared with the clock.
    [clock n] is what the [n]-th call of [datetime.utcnow()] in the
    request returns; the number of calls so far goes along. *)
Definition is_overdue (clock : nat -> Z) (n : nat) (l : Loan.t)
  : result (bool * nat) :=
  match Loan.returned_at l with
  | Some _ => Ok (false, n)
  | None =>
      let? due := fromisoformat (Loan.due_at l) in
      Ok (due <? clock n, S n)
  end.

(** [[l for l in filtered if l.is_overdue()]] *)
Fixpoint filter_overdue (clock : nat -> Z) (n : nat) (ls : list Loan.t)
  : result (list Loan.t * nat) :=
  match ls with
  | [] => Ok ([], n)
  | l :: ls' =>
      let? on := is_overdue clock n l in
      let? rest := filter_overdue clock (snd on) ls' in
      Ok (if fst on then l :: fst rest else fst rest, snd rest)
  end.

Definition apply_loan_filters (clock : nat -> Z) (n : nat)
    (loans : list Loan.t) (params : gmap string string)
  : result (list Loan.t * nat) :=
  let filtered := loans in
  let filtered := filter_int_param params "user_id" Loan.user_id filtered in
  let filtered :=
    match params !! "status" with
    | None => filtered
    | Some s =>
        let status := upper s in
        if String.eqb status "BORROWED"
        then List.filter
               (fun l => match Loan.returned_at l with
                         | None => true
                         | Some _ => false
                         end) filtered
        else if String.eqb status "RETURNED"
        then List.filter
               (fun l => match Loan.returned_at l with
                         | None => false
                         | Some _ => true
                         end) filtered
        else filtered
    end in
  if String.eqb (lower (default "false" (params !! "overdue"))) "true"
  then filter_overdue clock n filtered
  else Ok (filtered, n).

Definition loan_key_funcs (field : string)
  : option (Loan.t -> result sortkey) :=
  if String.eqb field "id" then Some (fun l => Ok (KInt (Loan.id l)))
  else if String.eqb field "borrowed_at"
  then Some (fun l => Ok (KStr (Loan.borrowed_at l)))
  else if String.eqb field "due_at"
  then Some (fun l => Ok (KStr (Loan.due_at l)))
  else None.

Definition apply_loan_order (loans : list Loan.t) (ordering : string)
  : result (list Loan.t) :=
  apply_order loan_key_funcs loans ordering.

(* ===================================================================== *)
(** * app.py: do_GET *)
(* ===================================================================== *)

(** The payloads are declared before the section, with [LoanView]. *)

(** [int(params.get(k, d) or d)]: ValueError, which is not caught, for a
    value that is not an integer. *)
Definition int_param (params : gmap string string) (k : string) (d : Z)
  : result Z :=
  match params !! k with
  | None => Ok d
  | Some s =>
      if String.eqb s EmptyString then Ok d
      else match int_of_str (int_max_str_digits rt) s with
           | Some n => Ok n
           | None => Raise ValueError
           end
  end.

(** The annotation of one loan. *)
Definition loan_view (clock : nat -> Z) (n : nat) (l : Loan.t)
  : result (LoanView.t * nat) :=
  let? on := is_overdue clock n l in
  Ok ({| LoanView.loan := l; LoanView.status := Loan.status l;
         LoanView.overdue := fst on |}, snd on).

Fixpoint loan_views (clock : nat -> Z) (n : nat) (ls : list Loan.t)
  : result (list LoanView.t * nat) :=
  match ls with
  | [] => Ok ([], n)
  | l :: ls' =>
      let? v := loan_view clock n l in
      let? rest := loan_views clock (snd v) ls' in
      Ok (fst v :: fst rest, snd rest)
  end.

Definition get_error (detail code : string) (status : Z) : M GetResponse :=
  ret (GetJson status (Plain (Error detail code))).

(** GET /api/authors/ and every path under it that has no id *)
Definition get_authors (params : gmap string string) : M GetResponse :=
  let* page := lift (int_param params "page" 1) in
  let* page_size := lift (int_param params "page_size" 10) in
  let search := default EmptyString (params !! "search") in
  let ordering := default EmptyString (params !! "ordering") in
  let* authors := load_authors in
  let* authors := lift (apply_author_search authors search) in
  let* authors := lift (apply_author_order authors ordering) in
  let* pp := lift (paginate authors page page_size) in
  ret (GetJson 200 (AuthorPage (fst pp) (snd pp))).

(** GET /api/authors/{id}/ *)
Definition get_author (res_id : Z) : M GetResponse :=
  let* authors := load_authors in
  match list_find (fun a => Author.id a = res_id) authors with
  | None => get_error "Author not found" "not_found" 404
  | Some (_, author) => ret (GetJson 200 (Plain (AuthorDict author)))
  end.

(** GET /api/books/ and every path under it that has no id *)
Definition get_books (params : gmap string string) : M GetResponse :=
  let* page := lift (int_param params "page" 1) in
  let* page_size := lift (int_param params "page_size" 10) in
  let search := default EmptyString (params !! "search") in
  let ordering := default EmptyString (params !! "ordering") in
  let* books := load_books in
  let* authors := load_authors in
  let* books := lift (apply_book_search books authors search) in
  let books := apply_book_filters books params in
  let* books := lift (apply_book_order books ordering) in
  let* pp := lift (paginate books page page_size) in
  ret (GetJson 200 (BookPage (fst pp) (snd pp))).

(** GET /api/books/{id}/ *)
Definition get_book (res_id : Z) : M GetResponse :=
  let* books := load_books in
  match list_find (fun b => Book.id b = res_id) books with
  | None => get_error "Book not found" "not_found" 404
  | Some (_, book) => ret (GetJson 200 (Plain (BookDict book)))
  end.

(** The end of the two loan listings: filters, ordering, page, views. *)
Definition loan_page (clock : nat -> Z) (params : gmap string string)
    (page page_size : Z) (loans : list Loan.t) : M GetResponse :=
  let* fl := lift (apply_loan_filters clock 0 loans params) in
  let ordering := default EmptyString (params !! "ordering") in
  let* loans := lift (apply_loan_order (fst fl) ordering) in
  let* pp := lift (paginate loans page page_size) in
  let* data := lift (loan_views clock (snd fl) (fst pp)) in
  ret (GetJson 200 (LoanPage (fst data) (snd pp))).

(** GET /api/loans/mine/ *)
Definition get_loans_mine (clock : nat -> Z) (params : gmap string string)
    (req : Request) : M GetResponse :=
  let* user := _get_auth_user req in
  match user with
  | None => get_error "Authentication required" "not_authenticated" 401
  | Some u =>
      let* page := lift (int_param params "page" 1) in
      let* page_size := lift (int_param params "page_size" 10) in
      let* loans := load_loans in
      let loans :=
        List.filter (fun l => Loan.user_id l =? User.id u) loans in
      loan_page clock params page page_size loans
  end.

(** GET /api/loans/ *)
Definition get_loans (clock : nat -> Z) (params : gmap string string)
    (req : Request) : M GetResponse :=
  let* user := _get_auth_user req in
  if negb (require_role user ["LIBRARIAN"; "ADMIN"])
  then get_error "Forbidden" "permission_denied" 403
  else
    let* page := lift (int_param params "page" 1) in
    let* page_size := lift (int_param params "page_size" 10) in
    let* loans := load_loans in
    loan_page clock params page page_size loans.

(** GET /api/loans/{id}/ *)
Definition get_loan (clock : nat -> Z) (req : Request) (res_id : Z)
  : M GetResponse :=
  let* user := _get_auth_user req in
  match user with
  | None => get_error "Authentication required" "not_authenticated" 401
  | Some u =>
      let* loans := load_loans in
      match list_find (fun l => Loan.id l = res_id) loans with
      | None => get_error "Loan not found" "not_found" 404
      | Some (_, loan) =>
          if negb (Loan.user_id loan =? User.id u)
             && negb (require_role user ["LIBRARIAN"; "ADMIN"])
          then get_error "Forbidden" "permission_denied" 403
          else
            let* v := lift (loan_view clock 0 loan) in
            ret (GetJson 200 (LoanDetail (fst v)))
      end
  end.

(** [do_GET]; [params] is [utils.parse_query_params(query)]. *)
Definition do_GET (clock : nat -> Z) (params : gmap string string)
    (req : Request) : M GetResponse :=
  let path := path req in
  let '(base, res_id) := _parse_resource_path rt path "/api/authors/" in
  if startswith base "/api/authors/"
  then match res_id with
       | None => get_authors params
       | Some res_id => get_author res_id
       end
  else
    let '(base, res_id) := _parse_resource_path rt path "/api/books/" in
    if startswith base "/api/books/"
    then match res_id with
         | None => get_books params
         | Some res_id => get_book res_id
         end
    else if String.eqb path "/api/loans/mine/"
    then get_loans_mine clock params req
    else if String.eqb path "/api/loans/"
    then get_loans clock params req
    else
      match detail_id rt path "/api/loans/" with
      | Some res_id => get_loan clock req res_id
      | None => get_error "Not found" "not_found" 404
      end.

End Queries.
(* ===================================================================== *)
(** * Notions used in the statements *)
(* ===================================================================== *)

(** An open loan of user [uid] on book [book_id]. *)
Definition unreturned_loan_of (uid book_id : Z) (l : Loan.t) : Prop :=
  Loan.user_id l = uid /\ Loan.book_id l = book_id /\ Loan.returned_at l = None.

#[global] Instance unreturned_loan_of_dec uid book_id l :
  Decision (unreturned_loan_of uid book_id l).
Proof. unfold unreturned_loan_of. apply _. Defined.

(** The world after [save_books bs ;; save_loans ls]. *)
Definition with_books_and_loans (w : World) (bs : list Book.t)
    (ls : list Loan.t) : World :=
  {| data := {| users := users (data w); authors := authors (data w);
                books := bs; loans := ls; tokens := tokens (data w) |};
     written := (written w ++ [books_json]) ++ [loans_json] |}.

(** No two open loans of one user on one book. *)
Definition at_most_one_active (ls : list Loan.t) : Prop :=
  forall i j li lj,
    ls !! i = Some li -> ls !! j = Some lj ->
    Loan.user_id li = Loan.user_id lj ->
    Loan.book_id li = Loan.book_id lj ->
    Loan.returned_at li = None -> Loan.returned_at lj = None ->
    i = j.

(** How a request can change the list of loans: not at all, by one new
    loan where the user has no open loan on the book, or by closing one
    loan. *)
Inductive loans_step (ls : list Loan.t) : list Loan.t -> Prop :=
| loans_same : loans_step ls ls
| loans_borrow new :
    (forall l, l ∈ ls ->
               ~ unreturned_loan_of (Loan.user_id new) (Loan.book_id new) l) ->
    loans_step ls (ls ++ [new])
| loans_return k l t :
    ls !! k = Some l ->
    loans_step ls (<[k := Loan.set_returned_at l (Some t)]> ls).

(** The data directory before the first request: every file is created
    empty. *)
Definition initial : World :=
  {| data := {| users := []; authors := []; books := []; loans := [];
                tokens := ∅ |};
     written := [] |}.

(** The worlds that the requests can lead to. *)
Inductive reachable (rt : Runtime) : World -> Prop :=
| reachable_initial : reachable rt initial
| reachable_handle m env req w :
    reachable rt w -> reachable rt (snd (handle rt m env req w)).

(** A computation that only reads: it leaves the world as it found it. *)
Definition reads {A} (m : M A) : Prop := forall w, snd (m w) = w.

(** A computation that leaves the loans as they are. *)
Definition keeps_loans {A} (m : M A) : Prop :=
  forall w, loans (data (snd (m w))) = loans (data w).


(** The world after [save_books bs]. *)
Definition with_books (w : World) (bs : list Book.t) : World :=
  {| data := {| users := users (data w); authors := authors (data w);
                books := bs; loans := loans (data w);
                tokens := tokens (data w) |};
     written := written w ++ [books_json] |}.

(** The words of the specification for a detail path: the remainder is
    one segment, closed or not by a slash, that reads as a positive
    integer. *)
Definition positive_integer_only (rt : Runtime) (remainder : string) : bool :=
  match split "/" remainder with
  | [seg] | [seg; EmptyString] =>
      match int_of_str (int_max_str_digits rt) seg with
      | Some n => 0 <? n
      | None => false
      end
  | _ => false
  end.

(* ===================================================================== *)
(** * A small library, for the examples *)
(* ===================================================================== *)

(** Stand-ins for the hash and for the format of instants; the theorems
    hold for every runtime. *)
Definition example_runtime : Runtime :=
  {| int_max_str_digits := 4300;
     repr := fun _ => "?";
     sha256_hexdigest := fun s => "sha256:" +:+ s;
     isoformat := fun t => "t" +:+ str_of_int t |}.

Definition request (p auth : string) (body : json) : Request :=
  {| path := p; authorization := auth; json_body := Ok (Some body) |}.

Definition at_time (t : Z) (draws : list string) : Env :=
  {| utcnow := t; token_hex := draws |}.

(** The requests that set the library up: a librarian registers, logs
    in, creates an author and a book with two copies; a member registers
    and logs in. *)
Definition setup : list (Method * Env * Request) :=
  [ (POST, at_time 1 [],
     request "/api/auth/register/" EmptyString
       (JObj [("username", JStr "libby"); ("email", JStr "libby@example.org");
              ("password", JStr "pw"); ("role", JStr "librarian")]));
    (POST, at_time 2 ["token-libby"],
     request "/api/auth/login/" EmptyString
       (JObj [("username", JStr "libby"); ("password", JStr "pw")]));
    (POST, at_time 3 [],
     request "/api/authors/" "Token token-libby" (JObj [("name", JStr "Ann")]));
    (POST, at_time 4 [],
     request "/api/books/" "Token token-libby"
       (JObj [("title", JStr "Emma"); ("publication_year", JInt 1815);
              ("isbn", JStr "x"); ("author", JInt 1);
              ("total_copies", JInt 2)]));
    (POST, at_time 5 [],
     request "/api/auth/register/" EmptyString
       (JObj [("username", JStr "alice"); ("email", JStr "alice@example.org");
              ("password", JStr "secret1")]));
    (POST, at_time 6 ["token-libby"; "token-alice"],
     request "/api/auth/login/" EmptyString
       (JObj [("username", JStr "Alice"); ("password", JStr "secret1")])) ].

Definition run_all (rt : Runtime) (script : list (Method * Env * Request))
    (w : World) : World :=
  fold_left (fun w '(m, env, req) => snd (handle rt m env req w)) script w.

Definition libby : User.t :=
  {| User.id := 1; User.username := JStr "libby";
     User.email := JStr "libby@example.org";
     User.password_hash := "sha256:pw"; User.role := "LIBRARIAN" |}.

Definition alice : User.t :=
  {| User.id := 2; User.username := JStr "alice";
     User.email := JStr "alice@example.org";
     User.password_hash := "sha256:secret1"; User.role := "MEMBER" |}.

Definition ann : Author.t := {| Author.id := 1; Author.name := JStr "Ann" |}.

Definition emma : Book.t :=
  {| Book.id := 1; Book.title := "Emma"; Book.publication_year := 1815;
     Book.isbn := "x"; Book.author_id := 1; Book.total_copies := 2;
     Book.available_copies := 2 |}.

(** The library after [setup]. *)
Definition seeded : World :=
  {| data := {| users := [libby; alice]; authors := [ann]; books := [emma];
                loans := [];
                tokens :=
                  <["token-alice" := 2]> (<["token-libby" := 1]> ∅) |};
     written := [users_json; tokens_json; authors_json; books_json;
                 users_json; tokens_json] |}.

Definition borrow_emma : Request :=
  request "/api/loans/borrow/" "Token token-alice" (JObj [("book_id", JInt 1)]).

Definition loan_of_alice : Loan.t :=
  {| Loan.id := 1; Loan.user_id := 2; Loan.book_id := 1;
     Loan.borrowed_at := "t7"; Loan.due_at := "t1209600000007";
     Loan.returned_at := None |}.

(** The library after the member has borrowed the book at time 7. *)
Definition borrowed : World :=
  {| data := {| users := [libby; alice]; authors := [ann];
                books := [Book.set_available_copies emma 1];
                loans := [loan_of_alice];
                tokens :=
                  <["token-alice" := 2]> (<["token-libby" := 1]> ∅) |};
     written := [users_json; tokens_json; authors_json; books_json;
                 users_json; tokens_json; books_json; loans_json] |}.

(* ===================================================================== *)
(** * Notions used in the further statements *)
(* ===================================================================== *)

(** The number of open loans on book [n]. *)
Definition open_loans_on (n : Z) (ls : list Loan.t) : Z :=
  Z.of_nat
    (length
       (filter (fun l => Loan.book_id l = n /\ Loan.returned_at l = None) ls)).

(** A book without its count of available copies. *)
Definition catalogue_entry (b : Book.t) : Book.t :=
  Book.set_available_copies b 0.

(** In each collection an id names one record. *)
Definition ids_unique (d : Data) : Prop :=
  NoDup (map User.id (users d))
  /\ NoDup (map Author.id (authors d))
  /\ NoDup (map Book.id (books d))
  /\ NoDup (map Loan.id (loans d)).

(** The world after [save_loans ls]. *)
Definition with_loans (w : World) (ls : list Loan.t) : World :=
  {| data := {| users := users (data w); authors := authors (data w);
                books := books (data w); loans := ls;
                tokens := tokens (data w) |};
     written := written w ++ [loans_json] |}.

(** The world after [save_authors aus]. *)
Definition with_authors (w : World) (aus : list Author.t) : World :=
  {| data := {| users := users (data w); authors := aus;
                books := books (data w); loans := loans (data w);
                tokens := tokens (data w) |};
     written := written w ++ [authors_json] |}.

(** The world after [save_users us]. *)
Definition with_users (w : World) (us : list User.t) : World :=
  {| data := {| users := us; authors := authors (data w);
                books := books (data w); loans := loans (data w);
                tokens := tokens (data w) |};
     written := written w ++ [users_json] |}.

(** The world after [save_tokens ts]. *)
Definition with_tokens (w : World) (ts : gmap string Z) : World :=
  {| data := {| users := users (data w); authors := authors (data w);
                books := books (data w); loans := loans (data w);
                tokens := ts |};
     written := written w ++ [tokens_json] |}.

(** A JSON value that is a string. *)
Definition is_string (v : json) : Prop := exists s, v = JStr s.

(** The inverse of the format of instants of [example_runtime]. *)
Definition example_fromisoformat (s : string) : result Z :=
  match s with
  | String "t" r =>
      match int_of_str 0 r with
      | Some n => Ok n
      | None => Raise ValueError
      end
  | _ => Raise ValueError
  end.


(** What a POST request can do to the data: nothing; one new user, author
    or book, under the id after the largest; one token more or less; a
    loan opened and a copy taken; a loan closed and a copy given back. *)
Inductive post_step (d : Data) : Data -> Prop :=
| post_same : post_step d d
| post_user u :
    User.id u = max_default0 (map User.id (users d)) + 1 ->
    post_step d
      {| users := users d ++ [u]; authors := authors d; books := books d;
         loans := loans d; tokens := tokens d |}
| post_login token uid :
    tokens d !! token = None ->
    post_step d
      {| users := users d; authors := authors d; books := books d;
         loans := loans d; tokens := <[token := uid]> (tokens d) |}
| post_logout token :
    post_step d
      {| users := users d; authors := authors d; books := books d;
         loans := loans d; tokens := delete token (tokens d) |}
| post_author a :
    Author.id a = max_default0 (map Author.id (authors d)) + 1 ->
    post_step d
      {| users := users d; authors := authors d ++ [a]; books := books d;
         loans := loans d; tokens := tokens d |}
| post_book b :
    Book.id b = max_default0 (map Book.id (books d)) + 1 ->
    post_step d
      {| users := users d; authors := authors d; books := books d ++ [b];
         loans := loans d; tokens := tokens d |}
| post_borrow i b new :
    list_find (fun b => Book.id b = Loan.book_id new) (books d)
    = Some (i, b) ->
    1 <= Book.available_copies b ->
    Loan.id new = max_default0 (map Loan.id (loans d)) + 1 ->
    Loan.returned_at new = None ->
    post_step d
      {| users := users d; authors := authors d;
         books := <[i := Book.set_available_copies b
                           (Book.available_copies b - 1)]> (books d);
         loans := loans d ++ [new]; tokens := tokens d |}
| post_return k l t i b :
    loans d !! k = Some l ->
    Loan.returned_at l = None ->
    list_find (fun b => Book.id b = Loan.book_id l) (books d)
    = Some (i, b) ->
    post_step d
      {| users := users d; authors := authors d;
         books := <[i := Book.set_available_copies b
                           (Book.available_copies b + 1)]> (books d);
         loans := <[k := Loan.set_returned_at l (Some t)]> (loans d);
         tokens := tokens d |}
| post_return_no_book k l t :
    loans d !! k = Some l ->
    Loan.returned_at l = None ->
    list_find (fun b => Book.id b = Loan.book_id l) (books d) = None ->
    post_step d
      {| users := users d; authors := authors d; books := books d;
         loans := <[k := Loan.set_returned_at l (Some t)]> (loans d);
         tokens := tokens d |}.

(** What a PUT or PATCH request can do: nothing, or replace one author or
    one book by a record of the same id. *)
Inductive put_step (d : Data) : Data -> Prop :=
| put_same : put_step d d
| put_author_at i a a' :
    authors d !! i = Some a ->
    Author.id a' = Author.id a ->
    put_step d
      {| users := users d; authors := <[i := a']> (authors d);
         books := books d; loans := loans d; tokens := tokens d |}
| put_book_at i b b' :
    books d !! i = Some b ->
    Book.id b' = Book.id b ->
    put_step d
      {| users := users d; authors := authors d;
         books := <[i := b']> (books d); loans := loans d;
         tokens := tokens d |}.

(** What a DELETE request can do: nothing, or drop the authors or the
    books of one id. *)
Inductive delete_step (d : Data) : Data -> Prop :=
| delete_same : delete_step d d
| delete_authors_of rid :
    delete_step d
      {| users := users d;
         authors :=
           List.filter (fun a => negb (Author.id a =? rid)) (authors d);
         books := books d; loans := loans d; tokens := tokens d |}
| delete_books_of rid :
    delete_step d
      {| users := users d; authors := authors d;
         books := List.filter (fun b => negb (Book.id b =? rid)) (books d);
         loans := loans d; tokens := tokens d |}.

(** A computation that leaves the part [f] of the data as it is. *)
Definition keeps {A X} (f : Data -> X) (m : M A) : Prop :=
  forall w, f (data (snd (m w))) = f (data w).

(** The catalogue: the authors, and the books without their counts of
    available copies. *)
Definition catalogue (d : Data) : list Author.t * list Book.t :=
  (authors d, map catalogue_entry (books d)).

(** The loans that a response to GET shows. *)
Definition loans_shown (p : GetPayload) : list Loan.t :=
  match p with
  | LoanPage results _ => map LoanView.loan results
  | LoanDetail v => [LoanView.loan v]
  | _ => []
  end.

(** The library of the example with no copy of the book left. *)
Definition sold_out : World :=
  {| data := {| users := [libby; alice]; authors := [ann];
                books := [Book.set_available_copies emma 0];
                loans := []; tokens := tokens (data seeded) |};
     written := written seeded |}.

Definition loan_of_libby : Loan.t :=
  {| Loan.id := 2; Loan.user_id := 1; Loan.book_id := 1;
     Loan.borrowed_at := "t8"; Loan.due_at := "t1209600000008";
     Loan.returned_at := None |}.

(** The library after the librarian too has borrowed the book. *)
Definition two_loans : World :=
  {| data := {| users := [libby; alice]; authors := [ann];
                books := [Book.set_available_copies emma 0];
                loans := [loan_of_alice; loan_of_libby];
                tokens := tokens (data seeded) |};
     written := written borrowed ++ [books_json; loans_json] |}.

(** A return request that names a loan. *)
Definition return_loan (auth : string) (loan_id : Z) : Request :=
  request "/api/loans/return/" auth (JObj [("loan_id", JInt loan_id)]).

(** A clock that shows [t] at every reading. *)
Definition clock_at (t : Z) : nat -> Z := fun _ => t.
(* ===================================================================== *)
(** * Running a computation *)
(* ===================================================================== *)

Lemma bind_ok {A B} (m : M A) (k : A -> M B) w a w1 :
  m w = (Ok a, w1) -> bind m k w = k a w1.
Proof. intros H. unfold bind. now rewrite H. Qed.


Lemma bind_diverge {A B} (m : M A) (k : A -> M B) w w1 :
  m w = (Diverge, w1) -> bind m k w = (Diverge, w1).
Proof. intros H. unfold bind. now rewrite H. Qed.

Lemma bind_lift {A B} (r : result A) (k : A -> M B) w :
  bind (lift r) k w =
  match r with
  | Ok a => k a w
  | Raise e => (Raise e, w)
  | Diverge => (Diverge, w)
  end.
Proof. unfold bind, lift. now destruct r. Qed.

Lemma bind_assoc {A B C} (m : M A) (k1 : A -> M B) (k2 : B -> M C) w :
  bind (bind m k1) k2 w = bind m (fun a => bind (k1 a) k2) w.
Proof. unfold bind. now destruct (m w) as [[a|e|] w1]. Qed.

Lemma bind_ret {A B} (a : A) (k : A -> M B) w : bind (ret a) k w = k a w.
Proof. reflexivity. Qed.

Lemma reads_run {A} (m : M A) w :
  reads m -> m w = (fst (m w), w).
Proof. intros H. specialize (H w). destruct (m w); simpl in *; congruence. Qed.

Lemma reads_lift {A} (r : result A) : reads (lift r).
Proof. now intros w. Qed.

Lemma reads_ret {A} (a : A) : reads (ret a).
Proof. now intros w. Qed.

Lemma reads_bind {A B} (m : M A) (k : A -> M B) :
  reads m -> (forall a, reads (k a)) -> reads (bind m k).
Proof.
  intros Hm Hk w. unfold bind. rewrite (reads_run m w Hm).
  destruct (fst (m w)); simpl; auto. apply Hk.
Qed.

Lemma reads_get_user_by_token token : reads (get_user_by_token token).
Proof.
  intros w. unfold get_user_by_token, bind, load_tokens, load_users, ret.
  simpl. now destruct (tokens (data w) !! token).
Qed.

Lemma reads__get_auth_user req : reads (_get_auth_user req).
Proof.
  unfold _get_auth_user.
  destruct (startswith _ _); [apply reads_get_user_by_token | apply reads_ret].
Qed.

(** [_get_auth_user] never raises. *)
Lemma _get_auth_user_total req w :
  exists user, _get_auth_user req w = (Ok user, w).
Proof.
  unfold _get_auth_user.
  destruct (startswith _ _); [| now eexists].
  unfold get_user_by_token, bind, load_tokens, load_users, ret. simpl.
  destruct (tokens (data w) !! _); now eexists.
Qed.

Lemma require_role_Some user roles :
  require_role user roles = true -> exists u, user = Some u.
Proof. destruct user; [eauto | discriminate]. Qed.

(** The routes of [do_POST]. *)
Lemma do_POST_borrow rt env req :
  path req = "/api/loans/borrow/" ->
  do_POST rt env req = post_loans_borrow rt env req.
Proof. intros H. unfold do_POST. now rewrite H. Qed.

Lemma do_POST_return rt env req :
  path req = "/api/loans/return/" ->
  do_POST rt env req = post_loans_return rt env req.
Proof. intros H. unfold do_POST. now rewrite H. Qed.

Lemma do_POST_authors rt env req :
  path req = "/api/authors/" ->
  do_POST rt env req = post_authors req.
Proof. intros H. unfold do_POST. now rewrite H. Qed.
Lemma list_find_insert_same {A} (P : A -> Prop) `{forall x, Decision (P x)}
    (l : list A) i x y :
  list_find P l = Some (i, x) -> P y ->
  list_find P (<[i:=y]> l) = Some (i, y).
Proof.
  intros (Hi & HP & Hlt)%list_find_Some Hy.
  apply list_find_Some. split_and!.
  - apply list_lookup_insert_eq. eauto using lookup_lt_Some.
  - done.
  - intros j z Hj Hji. rewrite list_lookup_insert_ne in Hj by lia. eauto.
Qed.


Lemma post_loans_borrow_success rt env req w u parsed v n i b :
  _get_auth_user req w = (Ok (Some u), w) ->
  require_role (Some u) ["MEMBER"; "LIBRARIAN"; "ADMIN"] = true ->
  json_body req = Ok parsed ->
  book_id_of (or_empty_dict parsed) = Ok v ->
  truthy v = true ->
  int (int_max_str_digits rt) v = Ok n ->
  list_find (fun b => Book.id b = n) (books (data w)) = Some (i, b) ->
  1 <= Book.available_copies b ->
  (forall l, l ∈ loans (data w) -> ~ unreturned_loan_of (User.id u) n l) ->
  let new_loan :=
    {| Loan.id := max_default0 (map Loan.id (loans (data w))) + 1;
       Loan.user_id := User.id u; Loan.book_id := n;
       Loan.borrowed_at := isoformat rt (utcnow env);
       Loan.due_at := isoformat rt (utcnow env + timedelta_days 14);
       Loan.returned_at := None |} in
  post_loans_borrow rt env req w =
  (Ok (Json 201 (LoanDict new_loan)),
   with_books_and_loans w
     (<[i := Book.set_available_copies b (Book.available_copies b - 1)]>
        (books (data w)))
     (loans (data w) ++ [new_loan])).
Proof.
  intros Hauth Hrole Hbody Hbid Htruthy Hint Hbook Havail Hnone new_loan.
  unfold post_loans_borrow.
  rewrite (bind_ok _ _ _ _ _ Hauth). rewrite Hrole. cbn [negb].
  unfold _parse_json_body. rewrite bind_lift, Hbody, bind_lift, Hbid, Htruthy.
  cbn [negb]. rewrite Hint. cbn [try_except].
  rewrite (bind_ok load_books _ w _ w eq_refl), Hbook.
  destruct (Z.ltb_spec (Book.available_copies b) 1) as [?|_]; [lia|].
  rewrite (bind_ok load_loans _ w _ w eq_refl), bind_lift. cbn [id_of].
  replace (list_find _ (loans (data w))) with (@None (nat * Loan.t)).
  - reflexivity.
  - symmetry. apply list_find_None, Forall_forall. intros l Hl HP.
    apply (Hnone l Hl). exact HP.
Qed.


(** C9.  A borrow request that is not answered 201, whatever the reason
    (no authentication, a missing or malformed book_id, an unknown book,
    no copy left, a loan already open, or an exception that the handler
    does not catch), writes no file: the world afterwards is the world
    before, and nothing was added to the log of written files. *)
Theorem borrow_failure_saves_nothing rt env req w r w' :
  path req = "/api/loans/borrow/" ->
  do_POST rt env req w = (r, w') ->
  (forall p, r <> Ok (Json 201 p)) ->
  w' = w /\ written w' = written w.
Proof.
  intros Hpath Hrun Hfail.
  rewrite (do_POST_borrow _ _ _ Hpath) in Hrun.
  destruct (_get_auth_user_total req w) as [user Huser].
  unfold post_loans_borrow in Hrun.
  rewrite (bind_ok _ _ _ _ _ Huser) in Hrun.
  unfold _parse_json_body, try_except, _send_json, raise in Hrun.
  rewrite ?bind_lift in Hrun.
  assert (w' = w); [|now subst].
  repeat match type of Hrun with
         | (if ?c then _ else _) _ = _ => destruct c eqn:?
         | (if ?c then _ else _) = _ => destruct c eqn:?
         | match ?x with _ => _ end _ = _ => destruct x eqn:?
         | match ?x with _ => _ end = _ => destruct x eqn:?
         | bind (lift _) _ _ = _ => rewrite bind_lift in Hrun
         | bind load_books _ ?w = _ =>
             rewrite (bind_ok load_books _ w _ w eq_refl) in Hrun
         | bind load_loans _ ?w = _ =>
             rewrite (bind_ok load_loans _ w _ w eq_refl) in Hrun
         end;
    try (injection Hrun as <- <-; first [reflexivity | now edestruct Hfail]).
Qed.

(* ===================================================================== *)
(** * The loans under the requests *)
(* ===================================================================== *)

Lemma keeps_loans_lift {A} (r : result A) : keeps_loans (lift r).
Proof. now intros w. Qed.

Lemma keeps_loans_ret {A} (a : A) : keeps_loans (ret a).
Proof. now intros w. Qed.

Lemma keeps_loans_bind {A B} (m : M A) (k : A -> M B) :
  keeps_loans m -> (forall a, keeps_loans (k a)) -> keeps_loans (bind m k).
Proof.
  intros Hm Hk w. unfold bind. specialize (Hm w).
  destruct (m w) as [[a|e|] w1]; simpl in *; [|done..].
  now rewrite Hk.
Qed.

Lemma keeps_loans_reads {A} (m : M A) : reads m -> keeps_loans m.
Proof. intros H w. now rewrite H. Qed.

Lemma keeps_loans_try_except {A B} c (r : result A) (ok : A -> M B) h :
  (forall a, keeps_loans (ok a)) -> keeps_loans h ->
  keeps_loans (try_except c r ok h).
Proof.
  intros Hok Hh. destruct r as [a|e|]; simpl; [apply Hok | | done].
  destruct (c e); [apply Hh | done].
Qed.

Ltac keeps_loans_step :=
  first
    [ apply keeps_loans_ret
    | apply keeps_loans_lift
    | apply keeps_loans_reads, reads__get_auth_user
    | (intros w; reflexivity)
    | apply keeps_loans_bind; [| intros ?]
    | apply keeps_loans_try_except; [intros ? |]
    | match goal with
      | |- keeps_loans (if ?c then _ else _) => destruct c
      | |- keeps_loans (match ?x with _ => _ end) => destruct x
      end ].

Ltac keeps_loans_tac := repeat keeps_loans_step.

Lemma keeps_loans_register_user rt a b c d :
  keeps_loans (register_user rt a b c d).
Proof. unfold register_user. keeps_loans_tac. Qed.

Lemma keeps_loans_login rt env a b : keeps_loans (login rt env a b).
Proof. unfold login, authenticate_user. keeps_loans_tac. Qed.

Lemma keeps_loans_logout t : keeps_loans (logout t).
Proof. unfold logout. keeps_loans_tac. Qed.

Lemma keeps_loans_post_auth_register rt req :
  keeps_loans (post_auth_register rt req).
Proof.
  unfold post_auth_register, _parse_json_body, _send_json, raise.
  repeat first [apply keeps_loans_register_user | keeps_loans_step].
Qed.

Lemma keeps_loans_post_auth_login rt env req :
  keeps_loans (post_auth_login rt env req).
Proof.
  unfold post_auth_login, _parse_json_body, _send_json.
  repeat first [apply keeps_loans_login | keeps_loans_step].
Qed.

Lemma keeps_loans_post_auth_logout req : keeps_loans (post_auth_logout req).
Proof.
  unfold post_auth_logout, _send_json.
  repeat first [apply keeps_loans_logout | keeps_loans_step].
Qed.

Lemma keeps_loans_post_authors req : keeps_loans (post_authors req).
Proof.
  unfold post_authors, _parse_json_body, _send_json. keeps_loans_tac.
Qed.

Lemma keeps_loans_post_books rt req : keeps_loans (post_books rt req).
Proof.
  unfold post_books, _parse_json_body, _send_json. keeps_loans_tac.
Qed.

Lemma keeps_loans_put_author req rid : keeps_loans (put_author req rid).
Proof.
  unfold put_author, _parse_json_body, _send_json. keeps_loans_tac.
Qed.

Lemma keeps_loans_update_book rt body b : keeps_loans (update_book rt body b).
Proof. unfold update_book. keeps_loans_tac. Qed.

Lemma keeps_loans_put_book rt req rid : keeps_loans (put_book rt req rid).
Proof.
  unfold put_book, _parse_json_body, _send_json.
  repeat first [apply keeps_loans_update_book | keeps_loans_step].
Qed.

Lemma keeps_loans_do_PUT rt req : keeps_loans (do_PUT rt req).
Proof.
  unfold do_PUT, not_found, _send_json.
  repeat first [apply keeps_loans_put_author | apply keeps_loans_put_book
               | keeps_loans_step].
Qed.

Lemma keeps_loans_do_DELETE rt req : keeps_loans (do_DELETE rt req).
Proof.
  unfold do_DELETE, delete_author, delete_book, not_found, _send_json.
  keeps_loans_tac.
Qed.

Ltac run_case Hrun :=
  match type of Hrun with
  | (if ?c then _ else _) _ = _ => destruct c eqn:?
  | (if ?c then _ else _) = _ => destruct c eqn:?
  | match ?x with _ => _ end _ = _ => destruct x eqn:?
  | match ?x with _ => _ end = _ => destruct x eqn:?
  | bind (lift _) _ _ = _ => rewrite bind_lift in Hrun
  | bind load_books _ ?w = _ =>
      rewrite (bind_ok load_books _ w _ w eq_refl) in Hrun
  | bind load_loans _ ?w = _ =>
      rewrite (bind_ok load_loans _ w _ w eq_refl) in Hrun
  | bind load_authors _ ?w = _ =>
      rewrite (bind_ok load_authors _ w _ w eq_refl) in Hrun
  | bind (ret _) _ _ = _ => rewrite bind_ret in Hrun
  | bind (bind _ _) _ _ = _ => rewrite bind_assoc in Hrun
  | bind (if ?c then _ else _) _ _ = _ => destruct c eqn:?
  | bind (match ?x with _ => _ end) _ _ = _ => destruct x eqn:?
  end.

Ltac run_cases Hrun := repeat run_case Hrun.

Lemma post_loans_borrow_step rt env req w :
  loans_step (loans (data w))
    (loans (data (snd (post_loans_borrow rt env req w)))).
Proof.
  destruct (post_loans_borrow rt env req w) as [r w'] eqn:Hrun.
  destruct (_get_auth_user_total req w) as [user Huser].
  unfold post_loans_borrow in Hrun.
  rewrite (bind_ok _ _ _ _ _ Huser) in Hrun.
  unfold _parse_json_body, try_except, _send_json, raise in Hrun.
  rewrite ?bind_lift in Hrun.
  run_cases Hrun;
    try (injection Hrun as <- <-; first [apply loans_same | idtac]).
  cbn. apply loans_borrow. cbn.
  match goal with
  | H : list_find _ (loans (data w)) = None |- _ =>
      apply list_find_None in H; rewrite Forall_forall in H;
      intros l Hl HP; eapply H; [exact Hl|]; exact HP
  end.
Qed.

Lemma post_loans_return_step rt env req w :
  loans_step (loans (data w))
    (loans (data (snd (post_loans_return rt env req w)))).
Proof.
  destruct (post_loans_return rt env req w) as [r w'] eqn:Hrun.
  destruct (_get_auth_user_total req w) as [user Huser].
  unfold post_loans_return in Hrun.
  rewrite (bind_ok _ _ _ _ _ Huser) in Hrun.
  unfold _parse_json_body, _send_json, raise in Hrun.
  rewrite ?bind_lift in Hrun.
  run_cases Hrun;
    try (injection Hrun as <- <-; first [apply loans_same | idtac]);
    cbn; apply loans_return;
    match goal with
    | H : target_loan_of _ _ _ _ _ = Ok (Some (?k, ?l)) |- _ =>
        unfold target_loan_of, and_then in H;
        repeat match type of H with
               | match ?x with _ => _ end = _ =>
                   destruct x eqn:?; try discriminate
               end;
        injection H as H; apply list_find_Some in H; tauto
    end.
Qed.

Lemma handle_loans_step rt m env req w :
  loans_step (loans (data w)) (loans (data (snd (handle rt m env req w)))).
Proof.
  destruct m; cbn [handle].
  - unfold do_POST.
    repeat match goal with
           | |- context [if ?c then _ else _] => destruct c
           end;
      first [ apply post_loans_borrow_step
            | apply post_loans_return_step
            | idtac ].
    + rewrite keeps_loans_post_auth_register. apply loans_same.
    + rewrite keeps_loans_post_auth_login. apply loans_same.
    + rewrite keeps_loans_post_auth_logout. apply loans_same.
    + rewrite keeps_loans_post_authors. apply loans_same.
    + rewrite keeps_loans_post_books. apply loans_same.
    + apply loans_same.
  - rewrite keeps_loans_do_PUT. apply loans_same.
  - unfold do_PATCH. rewrite keeps_loans_do_PUT. apply loans_same.
  - rewrite keeps_loans_do_DELETE. apply loans_same.
Qed.

Lemma loans_step_at_most_one ls ls' :
  loans_step ls ls' -> at_most_one_active ls -> at_most_one_active ls'.
Proof.
  intros [|new Hnew|k l t Hk] Hinv; [done| |].
  - intros i j li lj Hi Hj Hu Hb Hri Hrj.
    apply lookup_app_Some in Hi as [Hi|[Hi Hi']];
      apply lookup_app_Some in Hj as [Hj|[Hj Hj']].
    + eauto.
    + apply list_lookup_singleton_Some in Hj' as [_ <-].
      destruct (Hnew li); [by eapply list_elem_of_lookup_2|done].
    + apply list_lookup_singleton_Some in Hi' as [_ <-].
      destruct (Hnew lj); [by eapply list_elem_of_lookup_2|done].
    + apply list_lookup_singleton_Some in Hi' as [? _].
      apply list_lookup_singleton_Some in Hj' as [? _]. lia.
  - intros i j li lj Hi Hj Hu Hb Hri Hrj.
    apply list_lookup_insert_Some in Hi as [(-> & <- & _)|[Hik Hi]];
      [discriminate|].
    apply list_lookup_insert_Some in Hj as [(-> & <- & _)|[Hjk Hj]];
      [discriminate|].
    eauto.
Qed.

Lemma handle_at_most_one rt m env req w :
  at_most_one_active (loans (data w)) ->
  at_most_one_active (loans (data (snd (handle rt m env req w)))).
Proof. apply loans_step_at_most_one, handle_loans_step. Qed.

Lemma reachable_at_most_one rt w :
  reachable rt w -> at_most_one_active (loans (data w)).
Proof.
  induction 1 as [|m env req w _ IH].
  - intros i j li lj Hi. cbn in Hi. discriminate.
  - now apply handle_at_most_one.
Qed.

Lemma post_loans_borrow_duplicate rt env req w u parsed v n i b l :
  _get_auth_user req w = (Ok (Some u), w) ->
  require_role (Some u) ["MEMBER"; "LIBRARIAN"; "ADMIN"] = true ->
  json_body req = Ok parsed ->
  book_id_of (or_empty_dict parsed) = Ok v ->
  truthy v = true ->
  int (int_max_str_digits rt) v = Ok n ->
  list_find (fun b => Book.id b = n) (books (data w)) = Some (i, b) ->
  1 <= Book.available_copies b ->
  l ∈ loans (data w) ->
  unreturned_loan_of (User.id u) n l ->
  post_loans_borrow rt env req w =
  (Ok (Json 409 (Error "Book already borrowed by user" "duplicate_loan")), w).
Proof.
  intros Hauth Hrole Hbody Hbid Htruthy Hint Hbook Havail Hl Hopen.
  unfold post_loans_borrow.
  rewrite (bind_ok _ _ _ _ _ Hauth). rewrite Hrole. cbn [negb].
  unfold _parse_json_body. rewrite bind_lift, Hbody, bind_lift, Hbid, Htruthy.
  cbn [negb]. rewrite Hint. cbn [try_except].
  rewrite (bind_ok load_books _ w _ w eq_refl), Hbook.
  destruct (Z.ltb_spec (Book.available_copies b) 1) as [?|_]; [lia|].
  rewrite (bind_ok load_loans _ w _ w eq_refl), bind_lift. cbn [id_of].
  destruct (list_find _ (loans (data w))) as [[k l']|] eqn:Hfind;
    [reflexivity|].
  apply list_find_None in Hfind. rewrite Forall_forall in Hfind.
  now destruct (Hfind l Hl).
Qed.

(** C3.  Where a user [u], who passes the gate of the handler, holds an
    open loan [l] on the book [n], and the first book with that id has a
    copy left, a borrow request of [u] for [n] is answered 409 with the
    code duplicate_loan and changes nothing.  And in every world that
    POST, PUT, PATCH and DELETE requests lead to from the empty data
    directory, a user has at most one open loan on a book. *)
Theorem second_borrow_is_duplicate rt :
  (forall env req w u parsed v n i b l,
     path req = "/api/loans/borrow/" ->
     _get_auth_user req w = (Ok (Some u), w) ->
     require_role (Some u) ["MEMBER"; "LIBRARIAN"; "ADMIN"] = true ->
     json_body req = Ok parsed ->
     book_id_of (or_empty_dict parsed) = Ok v ->
     truthy v = true ->
     int (int_max_str_digits rt) v = Ok n ->
     list_find (fun b => Book.id b = n) (books (data w)) = Some (i, b) ->
     1 <= Book.available_copies b ->
     l ∈ loans (data w) ->
     unreturned_loan_of (User.id u) n l ->
     do_POST rt env req w =
     (Ok (Json 409 (Error "Book already borrowed by user" "duplicate_loan")),
      w))
  /\ (forall w, reachable rt w -> at_most_one_active (loans (data w))).
Proof.
  split.
  - intros env req w u parsed v n i b l Hpath. intros.
    rewrite (do_POST_borrow _ _ _ Hpath).
    by eapply post_loans_borrow_duplicate.
  - apply reachable_at_most_one.
Qed.

Lemma target_loan_of_lookup rt lid bid user ls k l :
  target_loan_of rt lid bid user ls = Ok (Some (k, l)) -> ls !! k = Some l.
Proof.
  intros H. unfold target_loan_of, and_then in H.
  repeat match type of H with
         | match ?x with _ => _ end = _ => destruct x eqn:?; try discriminate
         end;
    injection H as H; apply list_find_Some in H; tauto.
Qed.


(* ===================================================================== *)
(** * The path parser *)
(* ===================================================================== *)

Lemma prefix_app p s :
  String.prefix p s = true -> exists r, s = p +:+ r.
Proof.
  revert s. induction p as [|a p IH]; intros s H.
  - now exists s.
  - destruct s as [|c s]; [discriminate|]. cbn in H.
    destruct (ascii_dec a c) as [->|]; [|discriminate].
    destruct (IH s H) as [r ->]. now exists r.
Qed.

(** The prefix with its closing slash. *)
Lemma _parse_resource_path_Some rt path prefix base id :
  _parse_resource_path rt path prefix = (base, Some id) ->
  let prefix' := if endswith prefix "/" then prefix else prefix +:+ "/" in
  let remainder := Py.drop (String.length prefix') path in
  startswith path prefix' = true
  /\ remainder <> EmptyString /\ remainder <> "/"
  /\ int_of_str (int_max_str_digits rt) (hd EmptyString (split "/" remainder))
     = Some id
  /\ base = prefix' +:+ str_of_int id +:+ "/".
Proof.
  intros H prefix' remainder. unfold _parse_resource_path in H.
  fold prefix' in H. fold remainder in H.
  destruct (startswith path prefix'); [|discriminate]. cbn [negb] in H.
  destruct (String.eqb_spec remainder EmptyString) as [|Hne1]; [discriminate|].
  destruct (String.eqb_spec remainder "/") as [|Hne2]; [discriminate|].
  cbn [orb] in H.
  destruct (int_of_str _ _) as [n|]; [|discriminate].
  injection H as <- <-. done.
Qed.

Lemma detail_id_startswith rt path prefix id :
  endswith prefix "/" = true ->
  detail_id rt path prefix = Some id -> startswith path prefix = true.
Proof.
  intros Hslash H. unfold detail_id in H.
  destruct (_parse_resource_path rt path prefix) as [base [rid|]] eqn:Hparse.
  - apply _parse_resource_path_Some in Hparse as (Hstart & _).
    now rewrite Hslash in Hstart.
  - now destruct (startswith base prefix).
Qed.

Lemma detail_id_not_startswith rt path prefix :
  endswith prefix "/" = true ->
  startswith path prefix = false -> detail_id rt path prefix = None.
Proof.
  intros Hslash H.
  destruct (detail_id rt path prefix) as [id|] eqn:E; [|done].
  apply detail_id_startswith in E; [congruence|done].
Qed.

(** A path under /api/books/ is not under /api/authors/. *)
Lemma detail_id_books_not_authors rt path id :
  detail_id rt path "/api/books/" = Some id ->
  detail_id rt path "/api/authors/" = None.
Proof.
  intros H. apply detail_id_startswith in H; [|done].
  apply prefix_app in H as [r ->].
  now apply detail_id_not_startswith.
Qed.

(** The routes of [do_PUT]. *)
Lemma do_PUT_author rt req rid :
  detail_id rt (path req) "/api/authors/" = Some rid ->
  do_PUT rt req = put_author req rid.
Proof. intros H. unfold do_PUT. now rewrite H. Qed.

Lemma do_PUT_book rt req rid :
  detail_id rt (path req) "/api/books/" = Some rid ->
  do_PUT rt req = put_book rt req rid.
Proof.
  intros H. unfold do_PUT.
  now rewrite (detail_id_books_not_authors _ _ _ H), H.
Qed.

(* ===================================================================== *)
(** * Updates *)
(* ===================================================================== *)

(** C8.  PATCH is PUT: on every request and in every world the two
    handlers give the same outcome and leave the same world, called
    directly or through the dispatch on the method. *)
Theorem patch_is_put rt env req w :
  do_PATCH rt req w = do_PUT rt req w
  /\ handle rt PATCH env req w = handle rt PUT env req w.
Proof. split; reflexivity. Qed.

(** C10.  An author update by a librarian or an administrator, on an
    author that exists, whose body has no name or a name that is false
    in Python (null, the empty string, 0, false, an empty list or
    dict), is answered 200 with the author as stored; no file is
    written: the world, with its log of written files, stays as it
    was. *)
Theorem author_update_without_name rt req w user parsed v rid i a :
  detail_id rt (path req) "/api/authors/" = Some rid ->
  _get_auth_user req w = (Ok user, w) ->
  require_role user ["LIBRARIAN"; "ADMIN"] = true ->
  json_body req = Ok parsed ->
  get (or_empty_dict parsed) "name" JNull = Ok v ->
  truthy v = false ->
  list_find (fun a => Author.id a = rid) (authors (data w)) = Some (i, a) ->
  exists w',
    do_PUT rt req w = (Ok (Json 200 (AuthorDict a)), w')
    /\ w' = w
    /\ written w' = written w
    /\ authors (data w') = authors (data w)
    /\ list_find (fun a => Author.id a = rid) (authors (data w'))
       = Some (i, a).
Proof.
  intros Hpath Hauth Hrole Hbody Hname Hfalsy Hfind.
  exists w. split; [|done].
  rewrite (do_PUT_author _ _ _ Hpath). unfold put_author.
  rewrite (bind_ok _ _ _ _ _ Hauth). rewrite Hrole. cbn [negb].
  unfold _parse_json_body. rewrite bind_lift, Hbody.
  rewrite (bind_ok load_authors _ w _ w eq_refl), Hfind.
  now rewrite bind_lift, Hname, Hfalsy.
Qed.





(* ===================================================================== *)
(** * Roles *)
(* ===================================================================== *)

Lemma post_authors_without_role req w user :
  _get_auth_user req w = (Ok user, w) ->
  require_role user ["LIBRARIAN"; "ADMIN"] = false ->
  post_authors req w =
  (Ok (Json 401 (Error "Authentication required" "not_authenticated")), w).
Proof.
  intros Hauth Hrole. unfold post_authors.
  now rewrite (bind_ok _ _ _ _ _ Hauth), Hrole.
Qed.

Lemma put_author_without_role req rid w user :
  _get_auth_user req w = (Ok user, w) ->
  require_role user ["LIBRARIAN"; "ADMIN"] = false ->
  put_author req rid w =
  (Ok (Json 403 (Error "Forbidden" "permission_denied")), w).
Proof.
  intros Hauth Hrole. unfold put_author.
  now rewrite (bind_ok _ _ _ _ _ Hauth), Hrole.
Qed.

(** The parser, case by case. *)
Lemma _parse_resource_path_single rt path prefix seg id :
  let prefix' := if endswith prefix "/" then prefix else prefix +:+ "/" in
  let remainder := Py.drop (String.length prefix') path in
  startswith path prefix' = true ->
  remainder <> EmptyString -> remainder <> "/" ->
  hd EmptyString (split "/" remainder) = seg ->
  int_of_str (int_max_str_digits rt) seg = Some id ->
  _parse_resource_path rt path prefix
  = (prefix' +:+ str_of_int id +:+ "/", Some id).
Proof.
  intros prefix' remainder Hstart Hne1 Hne2 Hseg Hint.
  unfold _parse_resource_path. fold prefix'. rewrite Hstart. cbn [negb].
  fold remainder.
  destruct (String.eqb_spec remainder EmptyString); [done|].
  destruct (String.eqb_spec remainder "/"); [done|]. cbn [orb].
  now rewrite Hseg, Hint.
Qed.

Lemma _parse_resource_path_not_int rt path prefix :
  let prefix' := if endswith prefix "/" then prefix else prefix +:+ "/" in
  let remainder := Py.drop (String.length prefix') path in
  startswith path prefix' = true ->
  remainder <> EmptyString -> remainder <> "/" ->
  int_of_str (int_max_str_digits rt) (hd EmptyString (split "/" remainder))
  = None ->
  _parse_resource_path rt path prefix = (path, None).
Proof.
  intros prefix' remainder Hstart Hne1 Hne2 Hint.
  unfold _parse_resource_path. fold prefix'. rewrite Hstart. cbn [negb].
  fold remainder.
  destruct (String.eqb_spec remainder EmptyString); [done|].
  destruct (String.eqb_spec remainder "/"); [done|]. cbn [orb].
  now rewrite Hint.
Qed.

Lemma detail_id_no_id rt path prefix :
  snd (_parse_resource_path rt path prefix) = None ->
  detail_id rt path prefix = None.
Proof.
  unfold detail_id. destruct (_parse_resource_path rt path prefix) as [base r].
  cbn [snd]. intros ->. now destruct (startswith base prefix).
Qed.

(** C5, amended.  The parser gives a detail match with id n only when
    the path starts with the prefix and the first segment of the
    remainder is an integer for [int()], of any sign, whose value is n;
    it does so when the remainder is that one segment, closed or not by
    a slash.  A remainder, other than the empty one and "/", whose first
    segment is not an integer is no match: the parser returns the path
    and no id, and where that holds for /api/authors/ and /api/books/
    alike, PUT, PATCH and DELETE answer 404. *)
Theorem parse_resource_path_detail rt p prefix :
  let prefix' := if endswith prefix "/" then prefix else prefix +:+ "/" in
  let remainder := Py.drop (String.length prefix') p in
  let first := hd EmptyString (split "/" remainder) in
  (forall base id,
     _parse_resource_path rt p prefix = (base, Some id) ->
     startswith p prefix' = true
     /\ int_of_str (int_max_str_digits rt) first = Some id
     /\ base = prefix' +:+ str_of_int id +:+ "/")
  /\ (forall id,
        startswith p prefix' = true ->
        remainder = first \/ remainder = first +:+ "/" ->
        int_of_str (int_max_str_digits rt) first = Some id ->
        snd (_parse_resource_path rt p prefix) = Some id)
  /\ (startswith p prefix' = true ->
      remainder <> EmptyString -> remainder <> "/" ->
      int_of_str (int_max_str_digits rt) first = None ->
      _parse_resource_path rt p prefix = (p, None))
  /\ (forall req w,
        snd (_parse_resource_path rt (path req) "/api/authors/")
        = None ->
        snd (_parse_resource_path rt (path req) "/api/books/")
        = None ->
        let answer := (Ok (Json 404 (Error "Not found" "not_found")), w) in
        do_PUT rt req w = answer
        /\ do_PATCH rt req w = answer
        /\ do_DELETE rt req w = answer).
Proof.
  intros prefix' remainder first. split_and!.
  - intros base id H.
    apply _parse_resource_path_Some in H as (? & _ & _ & ? & ?). done.
  - intros id Hstart Hrem Hint.
    assert (remainder <> EmptyString /\ remainder <> "/") as [Hne1 Hne2].
    { unfold first in Hint.
      split; intros E; rewrite E in Hint; vm_compute in Hint; discriminate. }
    now rewrite (_parse_resource_path_single rt p prefix first id).
  - apply _parse_resource_path_not_int.
  - intros req w Ha Hb answer.
    apply detail_id_no_id in Ha as Ea. apply detail_id_no_id in Hb as Eb.
    unfold do_PATCH, do_PUT, do_DELETE. now rewrite Ea, Eb.
Qed.

(* ===================================================================== *)
(** * utils.paginate *)
(* ===================================================================== *)

Lemma round_half_even_bounds num den :
  0 < den ->
  num / den <= round_half_even num den <= num / den + 1
  /\ (num mod den = 0 -> round_half_even num den = num / den)
  /\ (den < 2 * (num mod den) -> round_half_even num den = num / den + 1).
Proof.
  intros Hden. unfold round_half_even.
  pose proof (Z.mod_pos_bound num den Hden) as Hr.
  destruct (Z.ltb_spec (2 * (num mod den)) den);
    [|destruct (Z.ltb_spec den (2 * (num mod den)));
      [|destruct (Z.even (num / den))]];
    repeat split; intros; lia.
Qed.

Lemma quotient_exponent_spec a b :
  0 < a -> 0 < b ->
  (b <= a -> 0 <= quotient_exponent a b /\ b * 2 ^ quotient_exponent a b <= a)
  /\ (a < b ->
      quotient_exponent a b < 0 /\ b <= a * 2 ^ (- quotient_exponent a b)).
Proof.
  intros Ha Hb. unfold quotient_exponent.
  destruct (Z.log2_spec a Ha) as [Hla1 Hla2].
  destruct (Z.log2_spec b Hb) as [Hlb1 Hlb2].
  pose proof (Z.log2_nonneg a) as Hla0.
  pose proof (Z.log2_nonneg b) as Hlb0.
  assert (b <= a -> Z.log2 b <= Z.log2 a) as Hmono1
    by (intros; apply Z.log2_le_mono; lia).
  assert (a <= b -> Z.log2 a <= Z.log2 b) as Hmono2
    by (intros; apply Z.log2_le_mono; lia).
  generalize dependent (Z.log2 a). generalize dependent (Z.log2 b).
  intros lb Hlb1 Hlb2 Hlb0 la Hla1 Hla2 Hla0 Hmono1 Hmono2.
  split; intros Hab.
  - assert (lb <= la) by auto.
    destruct (Z.leb_spec 0 (la - lb)) as [_|?]; [|lia].
    destruct (Z.leb_spec (b * 2 ^ (la - lb)) a) as [Hle|Hgt].
    + split; [lia|done].
    + assert (la - lb <> 0) by (intros E; rewrite E in Hgt; lia).
      split; [lia|].
      assert (b * 2 ^ (la - lb - 1) < 2 ^ (Z.succ lb) * 2 ^ (la - lb - 1))
        as Hlt.
      { apply Z.mul_lt_mono_pos_r; [apply Z.pow_pos_nonneg; lia | done]. }
      rewrite <- Z.pow_add_r in Hlt by lia.
      replace (Z.succ lb + (la - lb - 1)) with la in Hlt by lia.
      clear - Hlt Hla1. lia.
  - assert (la <= lb) by (apply Hmono2; lia).
    destruct (Z.leb_spec 0 (la - lb)) as [?|?].
    + assert (la - lb = 0) as E by lia. rewrite E, Z.pow_0_r.
      destruct (Z.leb_spec (b * 1) a); [lia|].
      split; [lia|]. replace (- (0 - 1)) with 1 by lia.
      replace la with lb in * by lia.
      rewrite Z.pow_succ_r in Hlb2 by lia. clear - Hlb2 Hla1. lia.
    + destruct (Z.leb_spec b (a * 2 ^ (- (la - lb)))) as [Hle|Hgt].
      * split; [lia|done].
      * split; [lia|].
        assert (2 ^ la * 2 ^ (- (la - lb - 1)) <= a * 2 ^ (- (la - lb - 1)))
          as Hle.
        { apply Z.mul_le_mono_nonneg_r; [apply Z.pow_nonneg; lia | done]. }
        rewrite <- Z.pow_add_r in Hle by lia.
        replace (la + - (la - lb - 1)) with (Z.succ lb) in Hle by lia.
        clear - Hle Hlb2. lia.
Qed.

Lemma ceil_neg_exp m k t :
  0 < k -> (t - 1) * 2 ^ k < m <= t * 2 ^ k -> ceil (m, - k) = t.
Proof.
  intros Hk Hm. unfold ceil.
  destruct (Z.leb_spec 0 (- k)); [lia|]. rewrite Z.opp_involutive.
  assert (0 < 2 ^ k) as Hp by (apply Z.pow_pos_nonneg; lia).
  enough (- m / 2 ^ k = - t) by lia.
  symmetry. apply (Z.div_unique_pos _ _ _ (t * 2 ^ k - m)); lia.
Qed.

(** Rounding a quotient above L * b, where b is less than twice the
    excess, gives more than L; rounding a quotient of at most U * b gives
    at most U. *)
Lemma round_half_even_between num b L U x :
  0 < b ->
  b * L + x <= num -> 0 < x -> b < 2 * x ->
  num <= b * U ->
  L < round_half_even num b <= U.
Proof.
  intros Hb Hlo Hx Hbx Hup.
  destruct (round_half_even_bounds num b Hb) as (Hq & Hexact & Hround).
  pose proof (Z.div_mod num b ltac:(lia)) as Hdm.
  pose proof (Z.mod_pos_bound num b Hb) as Hr.
  set (q := num / b) in *. set (r := num mod b) in *.
  clearbody q r.
  assert (L <= q) by nia.
  split.
  - destruct (Z.eq_dec q L) as [->|]; [|lia].
    assert (x <= r) by nia. rewrite Hround; lia.
  - destruct (Z.eq_dec r 0) as [Hr0|Hr0].
    + rewrite Hexact by done. nia.
    + assert (q < U) by nia. lia.
Qed.

Lemma true_divide_ceil a b t :
  0 < a < 2 ^ 53 -> 0 < b -> b < a * 2 ^ 1075 ->
  (t - 1) * b < a <= t * b ->
  exists x, true_divide a b = Ok x /\ ceil x = t.
Proof.
  intros [Ha Ha53] Hb Hbig Ht. unfold true_divide.
  destruct (Z.eqb_spec a 0) as [|_]; [lia|].
  destruct (quotient_exponent_spec a b Ha Hb) as [Hge Hlt].
  set (E := quotient_exponent a b) in *. clearbody E.
  destruct (Z.le_gt_cases b a) as [Hba|Hab].
  - destruct (Hge Hba) as [HE0 HE]. clear Hge Hlt.
    assert (0 < 2 ^ E) as HpE by (apply Z.pow_pos_nonneg; lia).
    assert (E < 53) as HE53.
    { apply (Z.pow_lt_mono_r_iff 2); [lia|lia|]. nia. }
    rewrite Z.max_l by lia.
    destruct (Z.eq_dec E 52) as [->|HE52].
    + assert (b = 1) as -> by (change (2 ^ 53) with (2 * 2 ^ 52) in Ha53; nia).
      change (52 - 52) with 0. cbn [Z.leb Z.compare andb].
      assert (round_half_even a (1 * 2 ^ 0) = a) as ->.
      { change (1 * 2 ^ 0) with 1.
        destruct (round_half_even_bounds a 1 ltac:(lia)) as (_ & Hexact & _).
        rewrite Hexact by apply Z.mod_1_r. apply Z.div_1_r. }
      destruct (Z.leb_spec (2 ^ 1024) (a * 2 ^ 0)) as [Hov|_].
      { change (2 ^ 0) with 1 in Hov.
        assert (2 ^ 53 < 2 ^ 1024) by (apply Z.pow_lt_mono_r; lia). lia. }
      eexists. split; [reflexivity|]. cbn [ceil Z.leb Z.compare].
      change (2 ^ 0) with 1. lia.
    + set (k := 52 - E). assert (0 < k <= 52) as Hk by lia.
      replace (E - 52) with (- k) by lia.
      destruct (Z.leb_spec 0 (- k)) as [?|_]; [lia|]. cbn [andb].
      rewrite Z.opp_involutive.
      eexists. split; [reflexivity|]. apply ceil_neg_exp; [lia|].
      assert (0 < 2 ^ k) as Hpk by (apply Z.pow_pos_nonneg; lia).
      assert (b < 2 * 2 ^ k) as Hbk.
      { assert (2 ^ 53 = 2 ^ E * (2 * 2 ^ k)) as E53.
        { rewrite <- Z.pow_succ_r, <- Z.pow_add_r by lia. f_equal. lia. }
        nia. }
      apply (round_half_even_between _ _ _ _ (2 ^ k)); [lia| |lia|lia|]; nia.
  - destruct (Hlt Hab) as [HE0 HE]. clear Hge Hlt.
    assert (t = 1) as -> by nia.
    set (e := Z.max (E - 52) (-1074)).
    assert (e < 0) as He by lia.
    destruct (Z.leb_spec 0 e) as [?|_]; [lia|]. cbn [andb].
    eexists. split; [reflexivity|].
    replace e with (- (- e)) at 2 by lia.
    apply ceil_neg_exp; [lia|].
    assert (0 < 2 ^ (- e)) as Hpk by (apply Z.pow_pos_nonneg; lia).
    assert (b < 2 * (a * 2 ^ (- e))) as Hbk.
    { subst e. destruct (Z.max_spec (E - 52) (-1074)) as [[_ ->]|[_ ->]].
      - change (- -1074) with 1074.
        change (2 ^ 1075) with (2 * 2 ^ 1074) in Hbig. lia.
      - replace (- (E - 52)) with (- E + 52) by lia.
        rewrite Z.pow_add_r by lia.
        assert (0 < 2 ^ (- E)) by (apply Z.pow_pos_nonneg; lia).
        assert (1 < 2 ^ 52) by (apply Z.pow_gt_1; lia). nia. }
    change ((1 - 1) * 2 ^ (- e)) with 0. rewrite Z.mul_1_l.
    apply (round_half_even_between _ _ _ _ (a * 2 ^ (- e))); nia.
Qed.

Lemma slice_beyond {A} (items : list A) start stop :
  Z.of_nat (length items) <= start -> slice items start stop = [].
Proof.
  intros H. unfold slice.
  destruct (Z.ltb_spec start 0); [lia|].
  rewrite (Z.min_r start) by lia.
  destruct (Z.ltb_spec stop 0).
  - rewrite Z.max_r by lia. now rewrite Z.sub_diag.
  - destruct (Z.max_spec (Z.min stop (Z.of_nat (length items)))
                (Z.of_nat (length items))) as [[_ ->]|[_ ->]].
    + now rewrite Z.sub_diag.
    + replace (Z.to_nat _) with 0%nat by lia. done.
Qed.

(** Within the range of the floats [paginate] is as intended: for a list
    of fewer than 2^53 items and a page size (after clamping) below
    count * 2^1075 it returns, without an error, the page and the page
    size clamped to at least 1, the number of items, and as total_pages
    the least number of pages of that size that hold the items, which is
    ceil(count / page_size); the slice is empty when the page is beyond
    the last one. *)
Lemma paginate_within_float_range {A} (items : list A) page page_size :
  Z.of_nat (length items) < 2 ^ 53 ->
  items = [] \/ Z.max page_size 1 < Z.of_nat (length items) * 2 ^ 1075 ->
  exists paged meta,
    paginate items page page_size = Ok (paged, meta)
    /\ Pagination.page meta = Z.max page 1
    /\ Pagination.page_size meta = Z.max page_size 1
    /\ Pagination.count meta = Z.of_nat (length items)
    /\ (Pagination.total_pages meta - 1) * Pagination.page_size meta
       < Pagination.count meta
       <= Pagination.total_pages meta * Pagination.page_size meta
    /\ (Pagination.total_pages meta < Pagination.page meta -> paged = []).
Proof.
  intros Hcount Hsize. unfold paginate.
  set (a := Z.of_nat (length items)) in *.
  set (b := Z.max page_size 1) in *.
  set (p := Z.max page 1).
  assert (0 < b) as Hb by lia.
  destruct (Z.ltb_spec 0 b) as [_|?]; [|lia].
  set (t := (a + b - 1) / b).
  assert ((t - 1) * b < a <= t * b) as Ht.
  { pose proof (Z.div_mod (a + b - 1) b ltac:(lia)) as Hdm.
    pose proof (Z.mod_pos_bound (a + b - 1) b Hb) as Hr.
    fold t in Hdm. nia. }
  assert (exists x, true_divide a b = Ok x /\ ceil x = t) as (x & -> & Hx).
  { destruct (Z.eq_dec a 0) as [Ha0|Ha0].
    - exists (0, 0). rewrite Ha0 in *. split; [reflexivity|].
      cbn. nia.
    - apply true_divide_ceil; [lia|lia| |done].
      destruct Hsize as [->|]; [done|lia]. }
  eexists _, _. split; [reflexivity|].
  cbn [Pagination.page Pagination.page_size Pagination.count
       Pagination.total_pages].
  rewrite Hx. split_and!; [reflexivity..|apply Ht|apply Ht|].
  intros Hbeyond. apply slice_beyond. fold a. fold p in Hbeyond. nia.
Qed.

(** C6.  [paginate] takes the quotient count / page_size as a float.
    With one item and a page size of 2^1076 the quotient is rounded to
    0.0, and total_pages is 0, where ceil(count / page_size) is 1: the
    total_pages returned is not the least number of pages that hold the
    items.  The other fields and the slice are as the claim says. *)
Theorem paginate_total_pages_underflow :
  paginate [tt] 1 (2 ^ 1076)
  = Ok ([tt],
        {| Pagination.count := 1; Pagination.page := 1;
           Pagination.page_size := 2 ^ 1076;
           Pagination.total_pages := 0 |})
  /\ ~ (forall (items : list unit) pg size paged meta,
          paginate items pg size = Ok (paged, meta) ->
          (Pagination.total_pages meta - 1) * Pagination.page_size meta
          < Pagination.count meta
          <= Pagination.total_pages meta * Pagination.page_size meta).
Proof.
  assert (paginate [tt] 1 (2 ^ 1076)
          = Ok ([tt],
                {| Pagination.count := 1; Pagination.page := 1;
                   Pagination.page_size := 2 ^ 1076;
                   Pagination.total_pages := 0 |})) as E
    by (vm_compute; reflexivity).
  split; [exact E|]. intros H.
  apply H in E.
  cbn [Pagination.count Pagination.total_pages Pagination.page_size] in E.
  lia.
Qed.

(* ===================================================================== *)
(** * The examples *)
(* ===================================================================== *)

Lemma reachable_run_all rt script w :
  reachable rt w -> reachable rt (run_all rt script w).
Proof.
  revert w. induction script as [|[[m env] req] script IH]; intros w Hw.
  - exact Hw.
  - apply IH. now apply reachable_handle.
Qed.

Lemma run_all_setup : run_all example_runtime setup initial = seeded.
Proof. vm_compute. reflexivity. Qed.

Lemma run_all_borrow :
  run_all example_runtime [(POST, at_time 7 [], borrow_emma)] seeded
  = borrowed.
Proof. vm_compute. reflexivity. Qed.

Lemma reachable_seeded : reachable example_runtime seeded.
Proof.
  rewrite <- run_all_setup. apply reachable_run_all, reachable_initial.
Qed.

Lemma reachable_borrowed : reachable example_runtime borrowed.
Proof.
  rewrite <- run_all_borrow. apply reachable_run_all, reachable_seeded.
Qed.

(** C4.  On POST /api/authors/ a token that resolves to a user whose
    role is MEMBER is answered 401 with the code not_authenticated, which
    is the answer given when no user resolves, and not 403 with
    permission_denied; nothing is written. *)
Theorem post_authors_member_not_authenticated rt env req w u :
  path req = "/api/authors/" ->
  _get_auth_user req w = (Ok (Some u), w) ->
  upper (User.role u) = "MEMBER" ->
  do_POST rt env req w =
  (Ok (Json 401 (Error "Authentication required" "not_authenticated")), w).
Proof.
  intros Hpath Hauth Hrole. rewrite (do_POST_authors _ _ _ Hpath).
  apply post_authors_without_role with (user := Some u); [done|].
  cbn [require_role]. now rewrite Hrole.
Qed.

(** The member of the example, on POST /api/authors/: 401, as without a
    token; the same member on PUT /api/authors/1/: 403 permission_denied. *)
Lemma post_authors_member_not_authenticated_witness :
  let post := request "/api/authors/" "Token token-alice"
                (JObj [("name", JStr "Bob")]) in
  let answer :=
    (Ok (Json 401 (Error "Authentication required" "not_authenticated")),
     seeded) in
  (path post = "/api/authors/"
   /\ _get_auth_user post seeded = (Ok (Some alice), seeded)
   /\ upper (User.role alice) = "MEMBER")
  /\ do_POST example_runtime (at_time 7 []) post seeded = answer
  /\ do_POST example_runtime (at_time 7 [])
       (request "/api/authors/" EmptyString (JObj [("name", JStr "Bob")]))
       seeded
     = answer
  /\ do_PUT example_runtime
       (request "/api/authors/1/" "Token token-alice"
          (JObj [("name", JStr "Bob")])) seeded
     = (Ok (Json 403 (Error "Forbidden" "permission_denied")), seeded).
Proof.
  intros post answer.
  assert (path post = "/api/authors/"
          /\ _get_auth_user post seeded = (Ok (Some alice), seeded)
          /\ upper (User.role alice) = "MEMBER") as H
    by (split_and!; vm_compute; reflexivity).
  split; [exact H|]. split_and!.
  - destruct H as (H1 & H2 & H3).
    exact (post_authors_member_not_authenticated
             example_runtime (at_time 7 []) post seeded alice H1 H2 H3).
  - vm_compute. reflexivity.
  - vm_compute. reflexivity.
Defined.



(** C3 at the example: the member asks for the same book again; and the
    library of the example is one that the requests lead to. *)
Lemma second_borrow_is_duplicate_witness :
  (path borrow_emma = "/api/loans/borrow/"
   /\ _get_auth_user borrow_emma borrowed = (Ok (Some alice), borrowed)
   /\ require_role (Some alice) ["MEMBER"; "LIBRARIAN"; "ADMIN"] = true
   /\ json_body borrow_emma = Ok (Some (JObj [("book_id", JInt 1)]))
   /\ book_id_of (or_empty_dict (Some (JObj [("book_id", JInt 1)])))
      = Ok (JInt 1)
   /\ truthy (JInt 1) = true
   /\ int (int_max_str_digits example_runtime) (JInt 1) = Ok 1
   /\ list_find (fun b => Book.id b = 1) (books (data borrowed))
      = Some (0%nat, Book.set_available_copies emma 1)
   /\ 1 <= Book.available_copies (Book.set_available_copies emma 1)
   /\ loan_of_alice ∈ loans (data borrowed)
   /\ unreturned_loan_of (User.id alice) 1 loan_of_alice
   /\ reachable example_runtime borrowed)
  /\ do_POST example_runtime (at_time 8 []) borrow_emma borrowed
     = (Ok (Json 409 (Error "Book already borrowed by user"
                        "duplicate_loan")), borrowed)
  /\ at_most_one_active (loans (data borrowed)).
Proof.
  assert (loan_of_alice ∈ loans (data borrowed)) as Hin by left.
  assert (unreturned_loan_of (User.id alice) 1 loan_of_alice) as Hopen
    by (split_and!; reflexivity).
  split; [|split].
  - split_and!; try (vm_compute; reflexivity);
      [vm_compute; discriminate | exact Hin | exact Hopen
      | exact reachable_borrowed].
  - apply (proj1 (second_borrow_is_duplicate example_runtime)
             (at_time 8 []) borrow_emma borrowed alice
             (Some (JObj [("book_id", JInt 1)])) (JInt 1) 1 0%nat
             (Book.set_available_copies emma 1) loan_of_alice);
      try (vm_compute; reflexivity);
      [vm_compute; discriminate | exact Hin | exact Hopen].
  - exact (proj2 (second_borrow_is_duplicate example_runtime) borrowed
             reachable_borrowed).
Defined.

(** C9 at the example: the member asks for a book that does not exist. *)
Lemma borrow_failure_saves_nothing_witness :
  let req := request "/api/loans/borrow/" "Token token-alice"
               (JObj [("book_id", JInt 99)]) in
  let r := Ok (Json 404 (Error "Book not found" "not_found")) in
  (path req = "/api/loans/borrow/"
   /\ do_POST example_runtime (at_time 7 []) req seeded = (r, seeded)
   /\ (forall p, r <> Ok (Json 201 p)))
  /\ seeded = seeded /\ written seeded = written seeded.
Proof.
  intros req r.
  assert (path req = "/api/loans/borrow/") as H1 by reflexivity.
  assert (do_POST example_runtime (at_time 7 []) req seeded = (r, seeded))
    as H2 by (vm_compute; reflexivity).
  assert (forall p, r <> Ok (Json 201 p)) as H3 by (intros p; discriminate).
  split; [done|].
  exact (borrow_failure_saves_nothing example_runtime (at_time 7 []) req
           seeded r seeded H1 H2 H3).
Defined.

(** C10 at the example: the librarian sends an empty name. *)
Lemma author_update_without_name_witness :
  let req := request "/api/authors/1/" "Token token-libby"
               (JObj [("name", JStr EmptyString)]) in
  let body := Some (JObj [("name", JStr EmptyString)]) in
  (detail_id example_runtime (path req) "/api/authors/" = Some 1
   /\ _get_auth_user req seeded = (Ok (Some libby), seeded)
   /\ require_role (Some libby) ["LIBRARIAN"; "ADMIN"] = true
   /\ json_body req = Ok body
   /\ get (or_empty_dict body) "name" JNull = Ok (JStr EmptyString)
   /\ truthy (JStr EmptyString) = false
   /\ list_find (fun a => Author.id a = 1) (authors (data seeded))
      = Some (0%nat, ann))
  /\ exists w',
       do_PUT example_runtime req seeded = (Ok (Json 200 (AuthorDict ann)), w')
       /\ w' = seeded
       /\ written w' = written seeded
       /\ authors (data w') = authors (data seeded)
       /\ list_find (fun a => Author.id a = 1) (authors (data w'))
          = Some (0%nat, ann).
Proof.
  intros req body. split.
  - split_and!; vm_compute; reflexivity.
  - apply (author_update_without_name example_runtime req seeded
             (Some libby) body (JStr EmptyString) 1 0%nat ann);
      vm_compute; reflexivity.
Defined.


(** C5, as the specification words it, fails: a negative id is a detail
    match, and so is an id followed by more segments. *)
Lemma parse_resource_path_counterexample :
  ~ (forall path prefix id,
       snd (_parse_resource_path example_runtime path prefix) = Some id ->
       positive_integer_only example_runtime
         (Py.drop (String.length prefix) path) = true)
  /\ _parse_resource_path example_runtime "/api/authors/-3/" "/api/authors/"
     = ("/api/authors/-3/", Some (-3))
  /\ _parse_resource_path example_runtime "/api/books/5/copies/2"
       "/api/books/"
     = ("/api/books/5/", Some 5).
Proof.
  split_and!; [|vm_compute; reflexivity..].
  intros H.
  specialize (H "/api/authors/-3/" "/api/authors/" (-3) eq_refl).
  vm_compute in H. discriminate.
Qed.

(** C5 at an example: /api/authors/12/ is the detail path of author 12,
    /api/authors/abc is no match. *)
Lemma parse_resource_path_detail_witness :
  (startswith "/api/authors/12/" "/api/authors/" = true
   /\ int_of_str (int_max_str_digits example_runtime) "12" = Some 12
   /\ startswith "/api/authors/abc" "/api/authors/" = true
   /\ int_of_str (int_max_str_digits example_runtime) "abc" = None)
  /\ snd (_parse_resource_path example_runtime "/api/authors/12/"
            "/api/authors/") = Some 12
  /\ _parse_resource_path example_runtime "/api/authors/abc" "/api/authors/"
     = ("/api/authors/abc", None).
Proof.
  split; [split_and!; vm_compute; reflexivity|]. split.
  - apply (proj1 (proj2 (parse_resource_path_detail example_runtime
                           "/api/authors/12/" "/api/authors/")) 12);
      [vm_compute; reflexivity | right; vm_compute; reflexivity
      | vm_compute; reflexivity].
  - apply (proj1 (proj2 (proj2 (parse_resource_path_detail example_runtime
                                  "/api/authors/abc" "/api/authors/"))));
      [vm_compute; reflexivity | vm_compute; discriminate
      | vm_compute; discriminate | vm_compute; reflexivity].
Defined.

(** [paginate] on five items, pages of two, page 4. *)
Lemma paginate_within_float_range_witness :
  (Z.of_nat (length [10; 20; 30; 40; 50]) < 2 ^ 53
   /\ ([10; 20; 30; 40; 50] = []
       \/ Z.max 2 1 < Z.of_nat (length [10; 20; 30; 40; 50]) * 2 ^ 1075))
  /\ exists paged meta,
       paginate [10; 20; 30; 40; 50] 4 2 = Ok (paged, meta)
       /\ Pagination.page meta = Z.max 4 1
       /\ Pagination.page_size meta = Z.max 2 1
       /\ Pagination.count meta = Z.of_nat (length [10; 20; 30; 40; 50])
       /\ (Pagination.total_pages meta - 1) * Pagination.page_size meta
       < Pagination.count meta
          <= Pagination.total_pages meta * Pagination.page_size meta
       /\ (Pagination.total_pages meta < Pagination.page meta -> paged = []).
Proof.
  assert (Z.of_nat (length [10; 20; 30; 40; 50]) < 2 ^ 53) as H1
    by (vm_compute; reflexivity).
  assert ([10; 20; 30; 40; 50] = []
          \/ Z.max 2 1 < Z.of_nat (length [10; 20; 30; 40; 50]) * 2 ^ 1075)
    as H2 by (right; vm_compute; reflexivity).
  split; [done|].
  exact (paginate_within_float_range [10; 20; 30; 40; 50] 4 2 H1 H2).
Defined.

(* ===================================================================== *)
(** * Further properties: the loans *)
(* ===================================================================== *)

(** The user of a request depends on the users and the tokens only. *)
Lemma _get_auth_user_frame req w w1 user :
  _get_auth_user req w = (Ok user, w) ->
  users (data w1) = users (data w) ->
  tokens (data w1) = tokens (data w) ->
  _get_auth_user req w1 = (Ok user, w1).
Proof.
  unfold _get_auth_user. intros H Hu Ht.
  destruct (startswith _ _); [|injection H as <-; reflexivity].
  unfold get_user_by_token, bind, load_tokens, load_users, ret in *.
  cbn in *. rewrite Ht.
  destruct (tokens (data w) !! _); [rewrite Hu|];
    injection H as <-; reflexivity.
Qed.

Lemma post_loans_borrow_no_copies rt env req w user parsed v n i b :
  _get_auth_user req w = (Ok user, w) ->
  require_role user ["MEMBER"; "LIBRARIAN"; "ADMIN"] = true ->
  json_body req = Ok parsed ->
  book_id_of (or_empty_dict parsed) = Ok v ->
  truthy v = true ->
  int (int_max_str_digits rt) v = Ok n ->
  list_find (fun b => Book.id b = n) (books (data w)) = Some (i, b) ->
  Book.available_copies b < 1 ->
  post_loans_borrow rt env req w =
  (Ok (Json 409 (Error "No copies available" "no_copies")), w).
Proof.
  intros Hauth Hrole Hbody Hbid Htruthy Hint Hbook Havail.
  unfold post_loans_borrow.
  rewrite (bind_ok _ _ _ _ _ Hauth). rewrite Hrole. cbn [negb].
  unfold _parse_json_body. rewrite bind_lift, Hbody, bind_lift, Hbid, Htruthy.
  cbn [negb]. rewrite Hint. cbn [try_except].
  rewrite (bind_ok load_books _ w _ w eq_refl), Hbook.
  destruct (Z.ltb_spec (Book.available_copies b) 1) as [_|?]; [done|lia].
Qed.

(** X1.  A borrow request for a book without a copy left is answered 409
    with the code no_copies and writes nothing; the copies are looked at
    before the loans, so this is the answer also where the user already
    holds an open loan on the book. *)
Theorem borrow_without_copies rt env req w user parsed v n i b :
  path req = "/api/loans/borrow/" ->
  _get_auth_user req w = (Ok user, w) ->
  require_role user ["MEMBER"; "LIBRARIAN"; "ADMIN"] = true ->
  json_body req = Ok parsed ->
  book_id_of (or_empty_dict parsed) = Ok v ->
  truthy v = true ->
  int (int_max_str_digits rt) v = Ok n ->
  list_find (fun b => Book.id b = n) (books (data w)) = Some (i, b) ->
  Book.available_copies b < 1 ->
  do_POST rt env req w =
  (Ok (Json 409 (Error "No copies available" "no_copies")), w).
Proof.
  intros Hpath. intros. rewrite (do_POST_borrow _ _ _ Hpath).
  by eapply post_loans_borrow_no_copies.
Qed.

(** X2.  A return request that is not answered 200, whatever the reason,
    writes no file: the world afterwards is the world before. *)
Theorem return_failure_saves_nothing rt env req w r w' :
  path req = "/api/loans/return/" ->
  do_POST rt env req w = (r, w') ->
  (forall p, r <> Ok (Json 200 p)) ->
  w' = w.
Proof.
  intros Hpath Hrun Hfail.
  rewrite (do_POST_return _ _ _ Hpath) in Hrun.
  destruct (_get_auth_user_total req w) as [user Huser].
  unfold post_loans_return in Hrun.
  rewrite (bind_ok _ _ _ _ _ Huser) in Hrun.
  unfold _parse_json_body, _send_json, raise in Hrun.
  rewrite ?bind_lift in Hrun.
  run_cases Hrun;
    try (injection Hrun as <- <-; first [reflexivity | now edestruct Hfail]).
Qed.

Lemma post_loans_return_outcome rt env req w u parsed lid bid k l :
  _get_auth_user req w = (Ok (Some u), w) ->
  require_role (Some u) ["MEMBER"; "LIBRARIAN"; "ADMIN"] = true ->
  json_body req = Ok parsed ->
  get (or_empty_dict parsed) "loan_id" JNull = Ok lid ->
  book_id_of (or_empty_dict parsed) = Ok bid ->
  target_loan_of rt lid bid (Some u) (loans (data w)) = Ok (Some (k, l)) ->
  post_loans_return rt env req w =
  if negb (Loan.user_id l =? User.id u)
     && negb (require_role (Some u) ["LIBRARIAN"; "ADMIN"])
  then (Ok (Json 403 (Error "Forbidden" "permission_denied")), w)
  else
    match Loan.returned_at l with
    | Some _ =>
        (Ok (Json 409 (Error "Loan already returned" "already_returned")), w)
    | None =>
        let l' := Loan.set_returned_at l (Some (isoformat rt (utcnow env))) in
        let ls := <[k := l']> (loans (data w)) in
        match
          list_find (fun b => Book.id b = Loan.book_id l) (books (data w))
        with
        | Some (i, b) =>
            (Ok (Json 200 (LoanDict l')),
             with_books_and_loans w
               (<[i := Book.set_available_copies b
                         (Book.available_copies b + 1)]> (books (data w)))
               ls)
        | None => (Ok (Json 200 (LoanDict l')), with_loans w ls)
        end
    end.
Proof.
  intros Hauth Hrole Hbody Hlid Hbid Htarget.
  unfold post_loans_return.
  rewrite (bind_ok _ _ _ _ _ Hauth). rewrite Hrole. cbn [negb].
  unfold _parse_json_body.
  rewrite bind_lift, Hbody, bind_lift, Hlid, bind_lift, Hbid.
  rewrite (bind_ok load_loans _ w _ w eq_refl).
  rewrite (bind_ok load_books _ w _ w eq_refl).
  rewrite bind_lift, Htarget, bind_lift. cbn [id_of].
  destruct (negb _ && negb _); [reflexivity|].
  destruct (Loan.returned_at l); [reflexivity|].
  cbn [Loan.book_id Loan.set_returned_at].
  destruct (list_find _ (books (data w))) as [[i b]|]; reflexivity.
Qed.


Lemma _get_auth_user_same_header req req2 w :
  authorization req2 = authorization req ->
  _get_auth_user req2 w = _get_auth_user req w.
Proof. intros H. unfold _get_auth_user. now rewrite H. Qed.

(** The two ways a borrow request ends: without a change, or with the
    book found, a copy taken from it and the new loan added. *)
Lemma post_loans_borrow_cases rt env req w r w' :
  post_loans_borrow rt env req w = (r, w') ->
  w' = w
  \/ exists uid n i b,
       list_find (fun b => Book.id b = n) (books (data w)) = Some (i, b)
       /\ 1 <= Book.available_copies b
       /\ (forall l, l ∈ loans (data w) -> ~ unreturned_loan_of uid n l)
       /\ w' = with_books_and_loans w
                 (<[i := Book.set_available_copies b
                           (Book.available_copies b - 1)]> (books (data w)))
                 (loans (data w)
                  ++ [{| Loan.id :=
                           max_default0 (map Loan.id (loans (data w))) + 1;
                         Loan.user_id := uid; Loan.book_id := n;
                         Loan.borrowed_at := isoformat rt (utcnow env);
                         Loan.due_at :=
                           isoformat rt (utcnow env + timedelta_days 14);
                         Loan.returned_at := None |}]).
Proof.
  intros Hrun.
  destruct (_get_auth_user_total req w) as [user Huser].
  unfold post_loans_borrow in Hrun.
  rewrite (bind_ok _ _ _ _ _ Huser) in Hrun.
  unfold _parse_json_body, try_except, _send_json, raise in Hrun.
  rewrite ?bind_lift in Hrun.
  run_cases Hrun;
    try (injection Hrun as <- <-; first [by left | idtac]).
  right.
  match goal with
  | Hb : list_find _ (books (data w)) = Some (?i, ?b),
    Hl : list_find _ (loans (data w)) = None,
    Ha : (Book.available_copies ?b <? 1) = false |- _ =>
      eexists _, _, i, b; split_and!; [exact Hb | lia | | reflexivity];
      apply list_find_None in Hl; rewrite Forall_forall in Hl;
      intros l Hin HP; eapply Hl; [exact Hin|]; exact HP
  end.
Qed.

(** The two ways a return request ends: without a change, or with an
    open loan closed and, where the books have its book, a copy given
    back to the first book of that id. *)
Lemma post_loans_return_cases rt env req w r w' :
  post_loans_return rt env req w = (r, w') ->
  w' = w
  \/ exists k l,
       loans (data w) !! k = Some l
       /\ Loan.returned_at l = None
       /\ let ls := <[k := Loan.set_returned_at l
                            (Some (isoformat rt (utcnow env)))]>
                      (loans (data w)) in
          match
            list_find (fun b => Book.id b = Loan.book_id l) (books (data w))
          with
          | Some (i, b) =>
              w' = with_books_and_loans w
                     (<[i := Book.set_available_copies b
                               (Book.available_copies b + 1)]>
                        (books (data w))) ls
          | None => w' = with_loans w ls
          end.
Proof.
  intros Hrun.
  destruct (_get_auth_user_total req w) as [user Huser].
  unfold post_loans_return in Hrun.
  rewrite (bind_ok _ _ _ _ _ Huser) in Hrun.
  unfold _parse_json_body, _send_json, raise in Hrun.
  rewrite ?bind_lift in Hrun.
  run_cases Hrun;
    try (injection Hrun as <- <-; first [by left | idtac]).
  all: right;
    match goal with
    | Ht : target_loan_of _ _ _ _ _ = Ok (Some (?k, ?l)),
      Hr : Loan.returned_at ?l = None |- _ =>
        exists k, l; split_and!;
        [ exact (target_loan_of_lookup _ _ _ _ _ _ _ Ht) | exact Hr | ]
    end.
  all: cbn [Loan.book_id Loan.set_returned_at] in *.
  all: match goal with
       | H : list_find _ (books (data _)) = _ |- _ => cbn zeta; rewrite H
       end; reflexivity.
Qed.



(** X5.  Borrowing and giving back.  After a valid borrow request for
    book [n], a return request of the same user that names the book (and
    no loan) is answered 200 with the loan of the borrow request, closed
    at the time of the return; the books are then again those of before
    the borrow, and the loans are those of before and the closed loan. *)
Theorem borrow_then_return rt env env2 req req2 w u parsed v n i b
    parsed2 bid2 :
  path req = "/api/loans/borrow/" ->
  _get_auth_user req w = (Ok (Some u), w) ->
  require_role (Some u) ["MEMBER"; "LIBRARIAN"; "ADMIN"] = true ->
  json_body req = Ok parsed ->
  book_id_of (or_empty_dict parsed) = Ok v ->
  truthy v = true ->
  int (int_max_str_digits rt) v = Ok n ->
  list_find (fun b => Book.id b = n) (books (data w)) = Some (i, b) ->
  1 <= Book.available_copies b ->
  (forall l, l ∈ loans (data w) -> ~ unreturned_loan_of (User.id u) n l) ->
  path req2 = "/api/loans/return/" ->
  authorization req2 = authorization req ->
  json_body req2 = Ok parsed2 ->
  get (or_empty_dict parsed2) "loan_id" JNull = Ok JNull ->
  book_id_of (or_empty_dict parsed2) = Ok bid2 ->
  int (int_max_str_digits rt) bid2 = Ok n ->
  let w1 := snd (do_POST rt env req w) in
  exists closed w2,
    do_POST rt env2 req2 w1 = (Ok (Json 200 (LoanDict closed)), w2)
    /\ closed =
       {| Loan.id := max_default0 (map Loan.id (loans (data w))) + 1;
          Loan.user_id := User.id u; Loan.book_id := n;
          Loan.borrowed_at := isoformat rt (utcnow env);
          Loan.due_at := isoformat rt (utcnow env + timedelta_days 14);
          Loan.returned_at := Some (isoformat rt (utcnow env2)) |}
    /\ books (data w2) = books (data w)
    /\ loans (data w2) = loans (data w) ++ [closed]
    /\ users (data w2) = users (data w)
    /\ authors (data w2) = authors (data w)
    /\ tokens (data w2) = tokens (data w).
Proof.
  intros Hpath Hauth Hrole Hbody Hbid Htruthy Hint Hbook Havail Hnone
    Hpath2 Hhead Hbody2 Hlid2 Hbid2 Hint2 w1.
  subst w1. rewrite (do_POST_borrow _ _ _ Hpath).
  rewrite (post_loans_borrow_success rt env req w u parsed v n i b) by done.
  cbn [snd]. set (new := Loan.Build_t _ _ _ _ _ None) in *.
  set (w1 := with_books_and_loans _ _ _).
  assert (Hauth1 : _get_auth_user req2 w1 = (Ok (Some u), w1)).
  { rewrite (_get_auth_user_same_header req req2) by done.
    by apply (_get_auth_user_frame req w w1). }
  assert (Htarget : target_loan_of rt JNull bid2 (Some u) (loans (data w1))
                    = Ok (Some (length (loans (data w)), new))).
  { unfold target_loan_of. cbn [id_of and_then].
    destruct bid2; rewrite ?Hint2; try (cbn in Hint2; discriminate Hint2).
    all: f_equal; apply list_find_Some; subst w1 new; cbn; split_and!;
      try done.
    all: try (rewrite lookup_app_r, Nat.sub_diag by lia; done).
    all: intros j y Hj Hlt (? & ? & ?); rewrite lookup_app_l in Hj by lia;
      apply (Hnone y); [by eapply list_elem_of_lookup_2 | done]. }
  rewrite (do_POST_return _ _ _ Hpath2).
  rewrite (post_loans_return_outcome rt env2 req2 w1 u parsed2 JNull bid2
             _ new) by done.
  cbn [new Loan.user_id Loan.returned_at Loan.book_id Loan.set_returned_at].
  rewrite Z.eqb_refl. cbn [negb andb].
  assert (Hbook1 :
    list_find (fun b => Book.id b = n) (books (data w1))
    = Some (i, Book.set_available_copies b (Book.available_copies b - 1))).
  { subst w1. cbn. apply list_find_insert_same with (x := b); [done|].
    apply list_find_Some in Hbook. cbn. tauto. }
  rewrite Hbook1. eexists _, _. split; [reflexivity|].
  subst w1. cbn. split_and!; try reflexivity.
  - rewrite list_insert_insert_eq.
    apply list_find_Some in Hbook as (Hb & _).
    etrans; [|apply (list_insert_id _ i b Hb)].
    f_equal. destruct b; cbn; f_equal; lia.
  - rewrite insert_app_r_alt, Nat.sub_diag by lia. reflexivity.
Qed.

(* ===================================================================== *)
(** * Further properties: what a request can change *)
(* ===================================================================== *)

Ltac run_step Hrun :=
  first
    [ run_case Hrun
    | match type of Hrun with
      | bind load_users _ ?w = _ =>
          rewrite (bind_ok load_users _ w _ w eq_refl) in Hrun
      | bind load_tokens _ ?w = _ =>
          rewrite (bind_ok load_tokens _ w _ w eq_refl) in Hrun
      | bind (_get_auth_user ?req) _ ?w = _ =>
          let user := fresh "user" in
          let Huser := fresh "Huser" in
          destruct (_get_auth_user_total req w) as [user Huser];
          rewrite (bind_ok _ _ _ _ _ Huser) in Hrun
      end ].

Ltac run_steps Hrun := repeat run_step Hrun.

Lemma post_auth_register_step rt req w :
  post_step (data w) (data (snd (post_auth_register rt req w))).
Proof.
  destruct (post_auth_register rt req w) as [r w'] eqn:Hrun.
  unfold post_auth_register, register_user, _parse_json_body, _send_json,
    raise in Hrun.
  run_steps Hrun;
    try (injection Hrun as <- <-; first [apply post_same | idtac]).
  all: cbn; by apply post_user.
Qed.

Lemma fresh_token_fresh draws ts token :
  fresh_token draws ts = Ok token -> ts !! token = None.
Proof.
  induction draws as [|t draws IH]; cbn; [done|].
  destruct (ts !! t) eqn:E; [exact IH|]. by intros [= <-].
Qed.

Lemma post_auth_login_step rt env req w :
  post_step (data w) (data (snd (post_auth_login rt env req w))).
Proof.
  destruct (post_auth_login rt env req w) as [r w'] eqn:Hrun.
  unfold post_auth_login, login, authenticate_user, _parse_json_body,
    _send_json, raise in Hrun.
  run_steps Hrun;
    try (injection Hrun as <- <-; first [apply post_same | idtac]).
  all: cbn; apply post_login; by eapply fresh_token_fresh.
Qed.

Lemma post_auth_logout_step req w :
  post_step (data w) (data (snd (post_auth_logout req w))).
Proof.
  destruct (post_auth_logout req w) as [r w'] eqn:Hrun.
  unfold post_auth_logout, logout, _send_json, raise in Hrun.
  run_steps Hrun;
    try (injection Hrun as <- <-; first [apply post_same | idtac]).
  all: cbn; apply post_logout.
Qed.

Lemma post_authors_step req w :
  post_step (data w) (data (snd (post_authors req w))).
Proof.
  destruct (post_authors req w) as [r w'] eqn:Hrun.
  unfold post_authors, _parse_json_body, _send_json, raise in Hrun.
  run_steps Hrun;
    try (injection Hrun as <- <-; first [apply post_same | idtac]).
  all: cbn; by apply post_author.
Qed.

Lemma post_books_step rt req w :
  post_step (data w) (data (snd (post_books rt req w))).
Proof.
  destruct (post_books rt req w) as [r w'] eqn:Hrun.
  unfold post_books, _parse_json_body, try_except, _send_json, raise in Hrun.
  run_steps Hrun;
    try (injection Hrun as <- <-; first [apply post_same | idtac]).
  all: cbn; by apply post_book.
Qed.

Lemma post_loans_borrow_data_step rt env req w :
  post_step (data w) (data (snd (post_loans_borrow rt env req w))).
Proof.
  destruct (post_loans_borrow rt env req w) as [r w'] eqn:Hrun.
  destruct (post_loans_borrow_cases _ _ _ _ _ _ Hrun)
    as [->|(uid & n & i & b & Hb & Ha & _ & ->)]; [apply post_same|].
  cbn. by apply post_borrow.
Qed.

Lemma post_loans_return_data_step rt env req w :
  post_step (data w) (data (snd (post_loans_return rt env req w))).
Proof.
  destruct (post_loans_return rt env req w) as [r w'] eqn:Hrun.
  destruct (post_loans_return_cases _ _ _ _ _ _ Hrun)
    as [->|(k & l & Hk & Hr & Hw)]; [apply post_same|].
  cbn in Hw. destruct (list_find _ (books (data w))) as [[i b]|] eqn:Hb;
    subst w'; cbn.
  - by apply post_return.
  - by apply post_return_no_book.
Qed.

Lemma do_POST_step rt env req w :
  post_step (data w) (data (snd (do_POST rt env req w))).
Proof.
  unfold do_POST.
  repeat match goal with
         | |- context [if ?c then _ else _] => destruct c
         end;
    auto using post_auth_register_step, post_auth_login_step,
      post_auth_logout_step, post_authors_step, post_books_step,
      post_loans_borrow_data_step, post_loans_return_data_step, post_same.
Qed.

(** The field updates of a book read the authors only and never touch
    the id. *)
Lemma update_book_run rt body b w r w1 :
  update_book rt body b w = (r, w1) ->
  w1 = w /\ forall b', r = Ok b' -> Book.id b' = Book.id b.
Proof.
  intros Hrun.
  unfold update_book, try_except, int_item, raise in Hrun.
  repeat first
    [ rewrite bind_lift in Hrun
    | rewrite bind_ret in Hrun
    | rewrite bind_assoc in Hrun
    | progress cbn [and_then] in Hrun
    | run_case Hrun ].
  all: injection Hrun as <- <-; split; [reflexivity|].
  all: try (intros b' [= <-]; reflexivity).
  all: intros b' Hb'; discriminate Hb'.
Qed.

Lemma put_author_step req rid w :
  put_step (data w) (data (snd (put_author req rid w))).
Proof.
  destruct (put_author req rid w) as [r w'] eqn:Hrun.
  unfold put_author, _parse_json_body, _send_json, raise in Hrun.
  run_steps Hrun;
    try (injection Hrun as <- <-; first [apply put_same | idtac]).
  all: cbn;
    match goal with
    | H : list_find _ _ = Some _ |- _ =>
        apply list_find_Some in H; eapply put_author_at; [apply H | done]
    end.
Qed.

Lemma put_book_step rt req rid w :
  put_step (data w) (data (snd (put_book rt req rid w))).
Proof.
  destruct (put_book rt req rid w) as [r w'] eqn:Hrun.
  unfold put_book, _parse_json_body, _send_json, raise in Hrun.
  run_steps Hrun;
    try (injection Hrun as <- <-; first [apply put_same | idtac]).
  unfold bind at 1 in Hrun.
  match type of Hrun with
  | context [update_book ?rt ?body ?b ?w] =>
      destruct (update_book rt body b w) as [rb w1] eqn:Hupd;
      destruct (update_book_run _ _ _ _ _ _ Hupd) as [-> Hid]
  end.
  destruct rb as [b'| |]; injection Hrun as <- <-; try apply put_same.
  cbn.
  match goal with
  | H : list_find _ _ = Some _ |- _ =>
      apply list_find_Some in H; eapply put_book_at; [apply H | by apply Hid]
  end.
Qed.

Lemma do_PUT_step rt req w :
  put_step (data w) (data (snd (do_PUT rt req w))).
Proof.
  unfold do_PUT.
  repeat match goal with
         | |- context [match ?c with _ => _ end] => destruct c
         end;
    auto using put_author_step, put_book_step, put_same.
Qed.

Lemma delete_author_step req rid w :
  delete_step (data w) (data (snd (delete_author req rid w))).
Proof.
  destruct (delete_author req rid w) as [r w'] eqn:Hrun.
  unfold delete_author, _send_json, raise in Hrun.
  run_steps Hrun;
    try (injection Hrun as <- <-; first [apply delete_same | idtac]).
  all: cbn; apply delete_authors_of.
Qed.

Lemma delete_book_step req rid w :
  delete_step (data w) (data (snd (delete_book req rid w))).
Proof.
  destruct (delete_book req rid w) as [r w'] eqn:Hrun.
  unfold delete_book, _send_json, raise in Hrun.
  run_steps Hrun;
    try (injection Hrun as <- <-; first [apply delete_same | idtac]).
  all: cbn; apply delete_books_of.
Qed.

Lemma do_DELETE_step rt req w :
  delete_step (data w) (data (snd (do_DELETE rt req w))).
Proof.
  unfold do_DELETE.
  repeat match goal with
         | |- context [match ?c with _ => _ end] => destruct c
         end;
    auto using delete_author_step, delete_book_step, delete_same.
Qed.

Lemma fold_left_max_ge xs : forall x y,
  y = x \/ y ∈ xs -> y <= fold_left Z.max xs x.
Proof.
  induction xs as [|z xs IH]; intros x y [->|Hy]; cbn.
  - lia.
  - by apply elem_of_nil in Hy.
  - etrans; [|apply IH; by left]. lia.
  - apply elem_of_cons in Hy as [->|Hy].
    + etrans; [|apply IH; by left]. lia.
    + apply IH. by right.
Qed.

Lemma max_default0_ge l y : y ∈ l -> y <= max_default0 l.
Proof.
  destruct l as [|x xs]; [by intros ?%elem_of_nil|].
  intros [->|Hy]%elem_of_cons; apply fold_left_max_ge; auto.
Qed.

Lemma NoDup_next_id {A} (f : A -> Z) l x :
  NoDup (map f l) -> f x = max_default0 (map f l) + 1 ->
  NoDup (map f (l ++ [x])).
Proof.
  intros Hl Hx. rewrite map_app. apply NoDup_app. split_and!; [done| |].
  - intros y Hy [->|[]%elem_of_nil]%elem_of_cons.
    apply max_default0_ge in Hy. lia.
  - apply NoDup_singleton.
Qed.

Lemma map_insert_same_id {A} (f : A -> Z) l i x y :
  l !! i = Some x -> f y = f x -> map f (<[i:=y]> l) = map f l.
Proof.
  intros Hi Hy. change (map f) with (fmap (M:=list) f).
  rewrite list_fmap_insert, Hy.
  apply list_insert_id. by rewrite list_lookup_fmap, Hi.
Qed.

Lemma NoDup_map_filter {A} (f : A -> Z) p l :
  NoDup (map f l) -> NoDup (map f (List.filter p l)).
Proof.
  intros H. eapply sublist_NoDup; [exact H|]. clear H.
  induction l as [|x l IH]; cbn; [constructor|].
  destruct (p x); cbn; by constructor.
Qed.

Lemma post_step_ids_unique d d' :
  post_step d d' -> ids_unique d -> ids_unique d'.
Proof.
  intros Hstep (Hu & Ha & Hb & Hl).
  destruct Hstep; unfold ids_unique; cbn; split_and!;
    try done; try by apply NoDup_next_id.
  all: erewrite map_insert_same_id;
    [ done
    | first
        [ eassumption
        | match goal with H : list_find _ _ = Some _ |- _ =>
            apply list_find_Some in H; apply H end ]
    | done ].
Qed.

Lemma put_step_ids_unique d d' :
  put_step d d' -> ids_unique d -> ids_unique d'.
Proof.
  intros Hstep (Hu & Ha & Hb & Hl).
  destruct Hstep; unfold ids_unique; cbn; split_and!;
    try done; by erewrite map_insert_same_id.
Qed.

Lemma delete_step_ids_unique d d' :
  delete_step d d' -> ids_unique d -> ids_unique d'.
Proof.
  intros Hstep (Hu & Ha & Hb & Hl).
  destruct Hstep; unfold ids_unique; cbn; split_and!;
    try done; by apply NoDup_map_filter.
Qed.

Lemma handle_step_ids_unique rt m env req w :
  ids_unique (data w) ->
  ids_unique (data (snd (handle rt m env req w))).
Proof.
  destruct m; cbn [handle]; unfold do_PATCH.
  - apply post_step_ids_unique, do_POST_step.
  - apply put_step_ids_unique, do_PUT_step.
  - apply put_step_ids_unique, do_PUT_step.
  - apply delete_step_ids_unique, do_DELETE_step.
Qed.

(** X6.  Ids stay unique.  If no two users, no two authors, no two books
    and no two loans share an id before a request, none do after it,
    whatever the method and the request, and also when the request
    fails.  So in every world that the requests lead to from the empty
    data directory an id names one record. *)
Theorem handle_ids_unique rt :
  (forall m env req w,
     ids_unique (data w) ->
     ids_unique (data (snd (handle rt m env req w))))
  /\ (forall w, reachable rt w -> ids_unique (data w)).
Proof.
  split; [intros; by apply handle_step_ids_unique|].
  induction 1 as [|m env req w _ IH].
  - cbn. unfold ids_unique. cbn. split_and!; constructor.
  - by apply handle_step_ids_unique.
Qed.

Lemma open_loans_on_snoc n ls x :
  open_loans_on n (ls ++ [x]) =
  open_loans_on n ls
  + (if decide (Loan.book_id x = n /\ Loan.returned_at x = None)
     then 1 else 0).
Proof.
  unfold open_loans_on. rewrite filter_app, length_app, filter_cons.
  destruct (decide _); cbn; lia.
Qed.

Lemma open_loans_on_close n ls : forall k l t,
  ls !! k = Some l -> Loan.returned_at l = None ->
  open_loans_on n (<[k := Loan.set_returned_at l (Some t)]> ls) =
  open_loans_on n ls - (if decide (Loan.book_id l = n) then 1 else 0).
Proof.
  unfold open_loans_on.
  induction ls as [|x ls IH]; intros [|k] l t Hk Hopen; try done; cbn in Hk.
  - injection Hk as ->. cbn [insert list_insert]. rewrite !filter_cons.
    destruct (decide (_ /\ Loan.returned_at (Loan.set_returned_at _ _) = _))
      as [[_ ?]|_]; [done|].
    destruct (decide (Loan.book_id l = n)) as [Hn|Hn];
      destruct (decide (_ /\ _)) as [?|Hno]; cbn; try lia; try tauto.
  - change (<[S k := ?y]> (x :: ls)) with (x :: <[k := y]> ls).
    rewrite !filter_cons. specialize (IH k l t Hk Hopen).
    destruct (decide (_ /\ _)); cbn [length]; lia.
Qed.

Lemma list_find_insert_other {A} (P : A -> Prop) `{forall x, Decision (P x)}
    (l : list A) i x j z y :
  list_find P l = Some (i, x) -> l !! j = Some z -> ~ P z -> ~ P y ->
  list_find P (<[j:=y]> l) = Some (i, x).
Proof.
  intros (Hi & HP & Hlt)%list_find_Some Hj Hz Hy.
  assert (j <> i) by (intros ->; congruence).
  apply list_find_Some. split_and!.
  - by rewrite list_lookup_insert_ne.
  - done.
  - intros j' z' Hj' Hlt'.
    destruct (decide (j' = j)) as [->|Hne].
    + rewrite list_lookup_insert_eq in Hj' by eauto using lookup_lt_Some.
      by injection Hj' as <-.
    + rewrite list_lookup_insert_ne in Hj' by done. eauto.
Qed.

Lemma post_step_conserves d d' n i b :
  post_step d d' ->
  list_find (fun b => Book.id b = n) (books d) = Some (i, b) ->
  exists b',
    list_find (fun b => Book.id b = n) (books d') = Some (i, b')
    /\ Book.available_copies b' + open_loans_on n (loans d')
       = Book.available_copies b + open_loans_on n (loans d).
Proof.
  intros Hstep Hb.
  destruct Hstep as [ | | | | |nb ?|i0 b0 new Hb0 ? ? Hopen
                    |k l t i0 b0 Hk Hopen Hb0|k l t Hk Hopen Hb0]; cbn.
  1-5: by exists b.
  - exists b. split; [by apply list_find_app_l|done].
  - rewrite open_loans_on_snoc.
    destruct (decide (Loan.book_id new = n)) as [Hn|Hn].
    + rewrite Hn, Hb in Hb0. injection Hb0 as <- <-.
      eexists. split.
      * apply list_find_insert_same with (x := b); [done|].
        apply list_find_Some in Hb. cbn. tauto.
      * destruct (decide _) as [_|[]]; [cbn; lia|done].
    + exists b. split.
      * apply list_find_Some in Hb0 as (Hi0 & Hid0 & _).
        eapply list_find_insert_other; [done|exact Hi0|..]; cbn; congruence.
      * destruct (decide _) as [[? _]|_]; [done|lia].
  - rewrite (open_loans_on_close n _ k l t Hk Hopen).
    destruct (decide (Loan.book_id l = n)) as [Hn|Hn].
    + rewrite Hn, Hb in Hb0. injection Hb0 as <- <-.
      eexists. split.
      * apply list_find_insert_same with (x := b); [done|].
        apply list_find_Some in Hb. cbn. tauto.
      * cbn. lia.
    + exists b. split; [|lia].
      apply list_find_Some in Hb0 as (Hi0 & Hid0 & _).
      eapply list_find_insert_other; [done|exact Hi0|..]; cbn; congruence.
  - rewrite (open_loans_on_close n _ k l t Hk Hopen).
    destruct (decide (Loan.book_id l = n)) as [Hn|Hn].
    + rewrite Hn, Hb in Hb0. done.
    + exists b. split; [done|lia].
Qed.

(** X7.  Copies are conserved.  For a book that is in the catalogue
    under id [n], no POST request (borrow, return or any other) changes
    the sum of its available copies and of the open loans on [n]; the
    book stays where it is in the list. *)
Theorem post_conserves_copies rt env req w n i b :
  list_find (fun b => Book.id b = n) (books (data w)) = Some (i, b) ->
  exists b',
    list_find (fun b => Book.id b = n)
      (books (data (snd (do_POST rt env req w)))) = Some (i, b')
    /\ Book.available_copies b'
       + open_loans_on n (loans (data (snd (do_POST rt env req w))))
       = Book.available_copies b + open_loans_on n (loans (data w)).
Proof. apply post_step_conserves, do_POST_step. Qed.

(* ===================================================================== *)
(** * Further properties: registration, login and logout *)
(* ===================================================================== *)

(** What an answer 201 to a registration request tells. *)
Lemma post_auth_register_201 rt req w p w1 :
  post_auth_register rt req w = (Ok (Json 201 p), w1) ->
  exists parsed username email password role hash r,
    json_body req = Ok parsed
    /\ get (or_empty_dict parsed) "username" JNull = Ok username
    /\ get (or_empty_dict parsed) "email" JNull = Ok email
    /\ get (or_empty_dict parsed) "password" JNull = Ok password
    /\ get (or_empty_dict parsed) "role" (JStr "MEMBER") = Ok role
    /\ truthy username = true /\ truthy email = true
    /\ truthy password = true
    /\ any_same_lower User.username username (users (data w)) = Ok false
    /\ any_same_lower User.email email (users (data w)) = Ok false
    /\ _hash_password rt password = Ok hash
    /\ str_upper role = Ok r
    /\ let new :=
         {| User.id := max_default0 (map User.id (users (data w))) + 1;
            User.username := username; User.email := email;
            User.password_hash := hash; User.role := r |} in
       w1 = with_users w (users (data w) ++ [new])
       /\ p = UserSummary (User.id new) username email r.
Proof.
  intros Hrun.
  unfold post_auth_register, register_user, _parse_json_body, _send_json,
    raise in Hrun.
  repeat first [ progress cbn [snd fst] in Hrun | run_step Hrun ];
    try discriminate Hrun.
  all: injection Hrun as <- <-.
  all: repeat match goal with
         | H : (_ || _) = false |- _ => apply orb_false_elim in H as [? ?]
         | H : negb _ = false |- _ => apply negb_false_iff in H
         end.
  all: eexists _, _, _, _, _, _, _; split_and!; try eassumption.
  all: cbn zeta; split; reflexivity.
Qed.

Lemma lower_empty s : lower s = EmptyString -> s = EmptyString.
Proof. by destruct s. Qed.

Lemma first_with_credentials_new name name2 h us new :
  any_same_lower User.username (JStr name) us = Ok false ->
  lower name2 = lower name ->
  User.username new = JStr name -> User.password_hash new = h ->
  first_with_credentials (JStr name2) h (us ++ [new]) = Ok (Some new).
Proof.
  intros Hus Hlow Hname Hhash.
  induction us as [|u us IH]; cbn in *.
  - rewrite Hname. cbn. rewrite Hlow, Hhash, !String.eqb_refl. done.
  - destruct (str_lower (User.username u)) as [a| |]; try done. cbn in *.
    rewrite Hlow. destruct (String.eqb a (lower name)); [done|]. cbn. auto.
Qed.


Lemma list_find_next_id {A} (f : A -> Z) l x :
  f x = max_default0 (map f l) + 1 ->
  list_find (fun y => f y = f x) (l ++ [x]) = Some (length l, x).
Proof.
  intros Hx. apply list_find_Some. split_and!.
  - by rewrite lookup_app_r, Nat.sub_diag by lia.
  - done.
  - intros j y Hj Hlt Hy. rewrite lookup_app_l in Hj by lia.
    assert (f y ∈ map f l).
    { apply list_elem_of_In, in_map, list_elem_of_In.
      by eapply list_elem_of_lookup_2. }
    pose proof (max_default0_ge _ _ H). lia.
Qed.

(** X8.  Registering and logging in.  After a registration that is
    answered 201 for a username that is a string, a login request with
    that username in any mix of upper and lower case and with the same
    password is answered 200 with the token drawn; the token is stored
    for the new user, and resolves to the new user. *)
Theorem register_then_login rt env env2 req req2 w p w1 parsed name pw
    parsed2 name2 token :
  path req = "/api/auth/register/" ->
  json_body req = Ok parsed ->
  get (or_empty_dict parsed) "username" JNull = Ok (JStr name) ->
  get (or_empty_dict parsed) "password" JNull = Ok (JStr pw) ->
  do_POST rt env req w = (Ok (Json 201 p), w1) ->
  path req2 = "/api/auth/login/" ->
  json_body req2 = Ok parsed2 ->
  get (or_empty_dict parsed2) "username" JNull = Ok (JStr name2) ->
  get (or_empty_dict parsed2) "password" JNull = Ok (JStr pw) ->
  lower name2 = lower name ->
  fresh_token (token_hex env2) (tokens (data w)) = Ok token ->
  exists new w2,
    users (data w1) = users (data w) ++ [new]
    /\ User.username new = JStr name
    /\ User.id new = max_default0 (map User.id (users (data w))) + 1
    /\ do_POST rt env2 req2 w1 = (Ok (Json 200 (TokenBody (Some token))), w2)
    /\ tokens (data w2) = <[token := User.id new]> (tokens (data w))
    /\ get_user_by_token token w2 = (Ok (Some new), w2).
Proof.
  intros Hpath Hbody Hname Hpw Hreg Hpath2 Hbody2 Hname2 Hpw2 Hlow Htok.
  unfold do_POST in Hreg |- *. rewrite Hpath in Hreg. rewrite Hpath2.
  cbn [String.eqb Ascii.eqb Bool.eqb] in Hreg |- *.
  apply post_auth_register_201 in Hreg
    as (parsed' & username & email & password & role & hash & r & Hb & Hu
        & He & Hp & Hr & Htu & Hte & Htp & Hfree & _ & Hhash & _ & Hw).
  cbn zeta in Hw. destruct Hw as [-> _].
  assert (parsed' = parsed) as -> by congruence.
  assert (username = JStr name) as -> by congruence.
  assert (password = JStr pw) as -> by congruence.
  set (new := User.Build_t _ _ _ _ _) in *.
  exists new. eexists. split_and!; [reflexivity..| | |].
  - unfold post_auth_login, _parse_json_body.
    rewrite bind_lift, Hbody2, bind_lift, Hname2, bind_lift, Hpw2.
    assert (truthy (JStr name2) = true) as ->.
    { cbn in *. destruct name2; [|done]. by destruct name. }
    rewrite Htp. cbn [negb orb].
    unfold login, authenticate_user.
    rewrite !bind_assoc.
    rewrite (bind_ok load_users _ _ _ _ eq_refl).
    rewrite bind_assoc, bind_lift, Hhash, bind_lift.
    cbn [with_users data users].
    rewrite (first_with_credentials_new name name2 hash _ new) by done.
    rewrite bind_assoc.
    rewrite (bind_ok load_tokens _ _ _ _ eq_refl).
    cbn [with_users data tokens].
    rewrite bind_assoc, bind_lift, Htok. reflexivity.
  - reflexivity.
  - unfold get_user_by_token.
    rewrite (bind_ok load_tokens _ _ _ _ eq_refl).
    cbn [data tokens]. rewrite lookup_insert_eq.
    rewrite (bind_ok load_users _ _ _ _ eq_refl).
    cbn [data users]. unfold ret.
    replace (list_find _ _) with (Some (length (users (data w)), new));
      [done|symmetry].
    exact (list_find_next_id User.id (users (data w)) new eq_refl).
Qed.


Lemma first_with_credentials_elem username h us u :
  first_with_credentials username h us = Ok (Some u) -> u ∈ us.
Proof.
  induction us as [|x us IH]; cbn; [done|].
  destruct (str_lower (User.username x)); try done.
  destruct (str_lower username); try done. cbn.
  destruct (_ && _).
  - intros [= ->]. left.
  - intros H. right. auto.
Qed.

(** What an answer 200 to a login request tells. *)
Lemma post_auth_login_200 rt env req w p w1 :
  post_auth_login rt env req w = (Ok (Json 200 p), w1) ->
  exists u token,
    u ∈ users (data w)
    /\ fresh_token (token_hex env) (tokens (data w)) = Ok token
    /\ p = TokenBody (Some token)
    /\ w1 = with_tokens w (<[token := User.id u]> (tokens (data w))).
Proof.
  intros Hrun.
  unfold post_auth_login, login, authenticate_user, _parse_json_body,
    _send_json, raise in Hrun.
  repeat first [ progress cbn [snd fst] in Hrun | run_step Hrun ];
    try discriminate Hrun.
  all: injection Hrun as <- <-.
  all: try match goal with
           | H : negb (String.eqb _ EmptyString) = false |- _ =>
               cbn in H; discriminate H
           end.
  all: eexists _, _; split_and!;
    [ by eapply first_with_credentials_elem | reflexivity | done | done ].
Qed.

(** X10.  Logging in and out.  After a login that is answered 200 with a
    token, a logout request that carries the token is answered 204, and
    the tokens are then again those of before the login: the token
    resolves to no user any more, and no other token is touched. *)
Theorem login_then_logout rt env env2 req req2 w token w1 :
  path req = "/api/auth/login/" ->
  do_POST rt env req w = (Ok (Json 200 (TokenBody (Some token))), w1) ->
  path req2 = "/api/auth/logout/" ->
  startswith (authorization req2) "Token " = true ->
  strip (Py.drop 6 (authorization req2)) = token ->
  exists w2,
    do_POST rt env2 req2 w1 = (Ok NoContent, w2)
    /\ tokens (data w2) = tokens (data w)
    /\ users (data w2) = users (data w)
    /\ _get_auth_user req2 w2 = (Ok None, w2).
Proof.
  intros Hpath Hlogin Hpath2 Hstart Hstrip.
  unfold do_POST in Hlogin |- *. rewrite Hpath in Hlogin. rewrite Hpath2.
  cbn [String.eqb Ascii.eqb Bool.eqb] in Hlogin |- *.
  apply post_auth_login_200 in Hlogin
    as (u & token' & Hu & Hfresh & [= <-] & ->).
  apply fresh_token_fresh in Hfresh.
  assert (exists v, snd <$> list_find (fun x => User.id x = User.id u)
                      (users (data w)) = Some v) as [v Hv].
  { destruct (list_find _ _) as [[i v]|] eqn:E; [by exists v|].
    apply list_find_None in E. rewrite Forall_forall in E.
    by destruct (E u Hu). }
  unfold post_auth_logout, _get_auth_user. rewrite Hstart, Hstrip.
  unfold get_user_by_token.
  rewrite !bind_assoc.
  rewrite (bind_ok load_tokens _ _ _ _ eq_refl).
  cbn [with_tokens data tokens]. rewrite lookup_insert_eq.
  rewrite bind_assoc.
  rewrite (bind_ok load_users _ _ _ _ eq_refl).
  cbn [with_tokens data users]. rewrite Hv, bind_ret.
  unfold logout. rewrite bind_assoc.
  rewrite (bind_ok load_tokens _ _ _ _ eq_refl).
  cbn [with_tokens data tokens]. rewrite lookup_insert_eq.
  eexists. split; [reflexivity|].
  cbn. rewrite delete_insert_eq, delete_id by done.
  split_and!; try done.
  unfold bind, load_tokens. cbn. by rewrite Hfresh.
Qed.


(* ===================================================================== *)
(** * Further properties: who can change what *)
(* ===================================================================== *)

Lemma keeps_lift {A X} (f : Data -> X) (r : result A) : keeps f (lift r).
Proof. now intros w. Qed.

Lemma keeps_ret {A X} (f : Data -> X) (a : A) : keeps f (ret a).
Proof. now intros w. Qed.

Lemma keeps_bind {A B X} (f : Data -> X) (m : M A) (k : A -> M B) :
  keeps f m -> (forall a, keeps f (k a)) -> keeps f (bind m k).
Proof.
  intros Hm Hk w. unfold bind. specialize (Hm w).
  destruct (m w) as [[a|e|] w1]; simpl in *; [|done..].
  now rewrite Hk.
Qed.

Lemma keeps_reads {A X} (f : Data -> X) (m : M A) : reads m -> keeps f m.
Proof. intros H w. now rewrite H. Qed.

Lemma keeps_try_except {A B X} (f : Data -> X) c (r : result A)
    (ok : A -> M B) h :
  (forall a, keeps f (ok a)) -> keeps f h -> keeps f (try_except c r ok h).
Proof.
  intros Hok Hh. destruct r as [a|e|]; simpl; [apply Hok | | done].
  destruct (c e); [apply Hh | done].
Qed.

Ltac keeps_step :=
  first
    [ apply keeps_ret
    | apply keeps_lift
    | apply keeps_reads, reads__get_auth_user
    | (intros ?; reflexivity)
    | apply keeps_bind; [| intros ?]
    | apply keeps_try_except; [intros ? |]
    | match goal with
      | |- keeps _ (if ?c then _ else _) => destruct c
      | |- keeps _ (match ?x with _ => _ end) => destruct x
      end ].

Ltac keeps_tac := repeat keeps_step.

Lemma keeps_catalogue_register rt req :
  keeps catalogue (post_auth_register rt req).
Proof.
  unfold post_auth_register, register_user, _parse_json_body, _send_json,
    raise.
  keeps_tac.
Qed.

Lemma keeps_catalogue_login rt env req :
  keeps catalogue (post_auth_login rt env req).
Proof.
  unfold post_auth_login, login, authenticate_user, _parse_json_body,
    _send_json.
  keeps_tac.
Qed.

Lemma keeps_catalogue_logout req : keeps catalogue (post_auth_logout req).
Proof. unfold post_auth_logout, logout, _send_json. keeps_tac. Qed.

Lemma catalogue_entry_insert bs i b n :
  bs !! i = Some b ->
  map catalogue_entry (<[i := Book.set_available_copies b n]> bs)
  = map catalogue_entry bs.
Proof.
  intros Hi. change (map catalogue_entry) with (fmap (M:=list) catalogue_entry).
  rewrite list_fmap_insert. apply list_insert_id.
  by rewrite list_lookup_fmap, Hi.
Qed.

Lemma keeps_catalogue_borrow rt env req :
  keeps catalogue (post_loans_borrow rt env req).
Proof.
  intros w. destruct (post_loans_borrow rt env req w) as [r w'] eqn:Hrun.
  destruct (post_loans_borrow_cases _ _ _ _ _ _ Hrun)
    as [->|(uid & n & i & b & Hb & _ & _ & ->)]; [done|].
  unfold catalogue. cbn. f_equal. apply catalogue_entry_insert.
  apply list_find_Some in Hb. tauto.
Qed.

Lemma keeps_catalogue_return rt env req :
  keeps catalogue (post_loans_return rt env req).
Proof.
  intros w. destruct (post_loans_return rt env req w) as [r w'] eqn:Hrun.
  destruct (post_loans_return_cases _ _ _ _ _ _ Hrun)
    as [->|(k & l & Hk & Hr & Hw)]; [done|].
  cbn in Hw. destruct (list_find _ (books (data w))) as [[i b]|] eqn:Hb;
    subst w'; [|done].
  unfold catalogue. cbn. f_equal. apply catalogue_entry_insert.
  apply list_find_Some in Hb. tauto.
Qed.

(** The handlers behind the staff gate, for a user who does not pass
    it. *)
Lemma staff_gate_closed rt req w user :
  _get_auth_user req w = (Ok user, w) ->
  require_role user ["LIBRARIAN"; "ADMIN"] = false ->
  snd (post_authors req w) = w
  /\ snd (post_books rt req w) = w
  /\ (forall rid, snd (put_author req rid w) = w)
  /\ (forall rid, snd (put_book rt req rid w) = w)
  /\ (forall rid, snd (delete_author req rid w) = w)
  /\ (forall rid, snd (delete_book req rid w) = w).
Proof.
  intros Huser Hrole.
  unfold post_authors, post_books, put_author, put_book, delete_author,
    delete_book.
  split_and!; intros; rewrite (bind_ok _ _ _ _ _ Huser), Hrole; reflexivity.
Qed.

(** X12.  The catalogue belongs to the staff.  Whatever the method and
    the request, a request whose user is neither LIBRARIAN nor ADMIN (or
    that has no user) leaves the authors as they are, and the books as
    they are but for their counts of available copies. *)
Theorem non_staff_keeps_catalogue rt m env req w user :
  _get_auth_user req w = (Ok user, w) ->
  require_role user ["LIBRARIAN"; "ADMIN"] = false ->
  catalogue (data (snd (handle rt m env req w))) = catalogue (data w).
Proof.
  intros Huser Hrole.
  destruct (staff_gate_closed rt req w user Huser Hrole)
    as (Ha & Hb & Hpa & Hpb & Hda & Hdb).
  destruct m; cbn [handle]; unfold do_PATCH, do_POST, do_PUT, do_DELETE,
    not_found, _send_json.
  - repeat match goal with
           | |- context [if ?c then _ else _] => destruct c
           end;
      first [ apply keeps_catalogue_register | apply keeps_catalogue_login
            | apply keeps_catalogue_logout | apply keeps_catalogue_borrow
            | apply keeps_catalogue_return | by rewrite Ha | by rewrite Hb
            | done ].
  - repeat match goal with
           | |- context [match ?c with _ => _ end] => destruct c
           end; by rewrite ?Hpa, ?Hpb.
  - repeat match goal with
           | |- context [match ?c with _ => _ end] => destruct c
           end; by rewrite ?Hpa, ?Hpb.
  - repeat match goal with
           | |- context [match ?c with _ => _ end] => destruct c
           end; by rewrite ?Hda, ?Hdb.
Qed.

(** X13.  Without a user nothing is written.  A request whose
    Authorization header resolves to no user writes no file, whatever
    the method, unless it is a registration or a login. *)
Theorem anonymous_request_writes_nothing rt m env req w :
  _get_auth_user req w = (Ok None, w) ->
  path req <> "/api/auth/register/" ->
  path req <> "/api/auth/login/" ->
  snd (handle rt m env req w) = w.
Proof.
  intros Huser Hreg Hlogin.
  destruct (staff_gate_closed rt req w None Huser eq_refl)
    as (Ha & Hb & Hpa & Hpb & Hda & Hdb).
  destruct m; cbn [handle]; unfold do_PATCH, do_POST, do_PUT, do_DELETE,
    not_found, _send_json.
  - destruct (String.eqb_spec (path req) "/api/auth/register/"); [done|].
    destruct (String.eqb_spec (path req) "/api/auth/login/"); [done|].
    repeat match goal with
           | |- context [if ?c then _ else _] => destruct c
           end; try done.
    + unfold post_auth_logout. by rewrite (bind_ok _ _ _ _ _ Huser).
    + unfold post_loans_borrow. by rewrite (bind_ok _ _ _ _ _ Huser).
    + unfold post_loans_return. by rewrite (bind_ok _ _ _ _ _ Huser).
  - repeat match goal with
           | |- context [match ?c with _ => _ end] => destruct c
           end; by rewrite ?Hpa, ?Hpb.
  - repeat match goal with
           | |- context [match ?c with _ => _ end] => destruct c
           end; by rewrite ?Hpa, ?Hpb.
  - repeat match goal with
           | |- context [match ?c with _ => _ end] => destruct c
           end; by rewrite ?Hda, ?Hdb.
Qed.

(* ===================================================================== *)
(** * Further properties: GET *)
(* ===================================================================== *)

Ltac reads_step :=
  first
    [ apply reads_ret
    | apply reads_lift
    | apply reads__get_auth_user
    | (intros ?; reflexivity)
    | apply reads_bind; [| intros ?]
    | match goal with
      | |- reads (if ?c then _ else _) => destruct c
      | |- reads (match ?x with _ => _ end) => destruct x
      | |- reads (let '(_, _) := ?x in _) => destruct x
      end ].

Ltac reads_tac := repeat reads_step.

(** X14.  GET is safe.  A GET request writes no file and leaves the data
    as they are, whatever the path, the query and the answer, also when
    it ends in an exception. *)
Theorem do_GET_reads rt fromisoformat clock params req :
  reads (do_GET rt fromisoformat clock params req).
Proof.
  unfold do_GET, get_authors, get_author, get_books, get_book,
    get_loans_mine, get_loans, get_loan, loan_page, get_error.
  reads_tac.
Qed.

Lemma startswith_append p r : startswith (p +:+ r) p = true.
Proof.
  unfold startswith. induction p as [|c p IH].
  - change (EmptyString +:+ r) with r. by destruct r.
  - change (String c p +:+ r) with (String c (p +:+ r)). cbn.
    by destruct (ascii_dec c c).
Qed.

Lemma startswith_refl p : startswith p p = true.
Proof.
  unfold startswith. induction p as [|c p IH]; [done|]. cbn.
  by destruct (ascii_dec c c).
Qed.

Lemma _parse_resource_path_base rt p prefix :
  endswith prefix "/" = true ->
  startswith p prefix = true ->
  startswith (fst (_parse_resource_path rt p prefix)) prefix = true.
Proof.
  intros Hend Hstart. unfold _parse_resource_path. rewrite Hend, Hstart.
  cbn [negb]. destruct (_ || _); cbn [fst].
  - apply startswith_refl.
  - destruct (int_of_str _ _); cbn [fst]; [|done].
    apply startswith_append.
Qed.

Lemma _parse_resource_path_elsewhere rt p prefix :
  endswith prefix "/" = true ->
  startswith p prefix = false ->
  _parse_resource_path rt p prefix = (p, None).
Proof.
  intros Hend Hstart. unfold _parse_resource_path.
  by rewrite Hend, Hstart.
Qed.

(** Two prefixes of one string: one is a prefix of the other. *)
Lemma startswith_disjoint p a b :
  startswith p a = true -> startswith a b = false ->
  startswith b a = false -> startswith p b = false.
Proof.
  intros Hpa Hab Hba. unfold startswith in *.
  apply prefix_app in Hpa as [r ->].
  destruct (String.prefix b (a +:+ r)) eqn:E; [|done].
  exfalso. revert b Hab Hba E.
  induction a as [|c a IH]; intros [|c' b] Hab Hba E; try done.
  change (String c a +:+ r) with (String c (a +:+ r)) in E.
  cbn in *. destruct (ascii_dec c' c) as [->|]; [|done].
  destruct (ascii_dec c c); [|done]. eauto.
Qed.

(** X15.  A path that does not parse is a list.  A GET on any path under
    /api/authors/ whose first segment is not an integer, such as
    /api/authors/abc/, is answered as /api/authors/ is, with the list of
    the authors; so it is under /api/books/ with the books.  Under
    /api/loans/ such a path is answered 404. *)
Theorem get_unparsed_path_lists rt fromisoformat clock params req :
  (startswith (path req) "/api/authors/" = true ->
   detail_id rt (path req) "/api/authors/" = None ->
   do_GET rt fromisoformat clock params req = get_authors rt params)
  /\ (startswith (path req) "/api/books/" = true ->
      detail_id rt (path req) "/api/books/" = None ->
      do_GET rt fromisoformat clock params req = get_books rt params)
  /\ (startswith (path req) "/api/loans/" = true ->
      detail_id rt (path req) "/api/loans/" = None ->
      path req <> "/api/loans/" -> path req <> "/api/loans/mine/" ->
      do_GET rt fromisoformat clock params req
      = get_error "Not found" "not_found" 404).
Proof.
  split_and!.
  - intros Hstart Hnone. unfold do_GET, detail_id in *.
    pose proof (_parse_resource_path_base rt (path req) "/api/authors/"
                  eq_refl Hstart) as Hbase.
    destruct (_parse_resource_path rt (path req) "/api/authors/")
      as [base res_id].
    cbn [fst] in Hbase. rewrite Hbase in *. by subst res_id.
  - intros Hstart Hnone. unfold do_GET, detail_id in *.
    assert (Hno : startswith (path req) "/api/authors/" = false).
    { eapply startswith_disjoint; [exact Hstart|done..]. }
    rewrite (_parse_resource_path_elsewhere rt _ "/api/authors/" eq_refl Hno), Hno.
    pose proof (_parse_resource_path_base rt (path req) "/api/books/"
                  eq_refl Hstart) as Hbase.
    destruct (_parse_resource_path rt (path req) "/api/books/")
      as [base res_id].
    cbn [fst] in Hbase. rewrite Hbase in *. by subst res_id.
  - intros Hstart Hnone Hne1 Hne2. unfold do_GET.
    assert (Hno : startswith (path req) "/api/authors/" = false).
    { eapply startswith_disjoint; [exact Hstart|done..]. }
    assert (Hno' : startswith (path req) "/api/books/" = false).
    { eapply startswith_disjoint; [exact Hstart|done..]. }
    rewrite (_parse_resource_path_elsewhere rt _ "/api/authors/" eq_refl Hno), Hno.
    rewrite (_parse_resource_path_elsewhere rt _ "/api/books/" eq_refl Hno'), Hno'.
    destruct (String.eqb_spec (path req) "/api/loans/mine/"); [done|].
    destruct (String.eqb_spec (path req) "/api/loans/"); [done|].
    by rewrite Hnone.
Qed.

(* ===================================================================== *)
(** * Further properties: ordering, filters and pages *)
(* ===================================================================== *)

Lemma insert_sorted_perm {A} reverse (x : sortkey * A) l :
  insert_sorted reverse x l ≡ₚ x :: l.
Proof.
  induction l as [|y l IH]; cbn; [done|].
  destruct (if reverse then _ else _); [|done].
  rewrite IH. apply Permutation_swap.
Qed.

Lemma sort_keyed_perm {A} reverse (l : list (sortkey * A)) :
  sort_keyed reverse l ≡ₚ l.
Proof.
  induction l as [|x l IH]; cbn; [done|].
  rewrite insert_sorted_perm. by rewrite IH.
Qed.

Lemma map_result_length {A B} (f : A -> result B) l ks :
  map_result f l = Ok ks -> length ks = length l.
Proof.
  revert ks. induction l as [|x l IH]; intros ks; cbn.
  - by intros [= <-].
  - destruct (f x); try done. cbn.
    destruct (map_result f l) as [r| |]; try done. cbn.
    intros [= <-]. cbn. f_equal. by apply IH.
Qed.

Lemma sorted_perm {A} (key : A -> result sortkey) reverse l l' :
  sorted key reverse l = Ok l' -> l' ≡ₚ l.
Proof.
  unfold sorted. destruct (map_result key l) as [ks| |] eqn:E; try done.
  cbn. intros [= <-].
  change (map snd) with (fmap (M:=list) (@snd sortkey A)).
  rewrite sort_keyed_perm. rewrite snd_zip; [done|].
  apply map_result_length in E. lia.
Qed.

(** The common part of the three orderings returns a permutation. *)
Lemma apply_order_permutation {A}
    (key_funcs : string -> option (A -> result sortkey)) l ordering l' :
  apply_order key_funcs l ordering = Ok l' -> l' ≡ₚ l.
Proof.
  unfold apply_order. destruct (String.eqb _ _); [by intros [= <-]|].
  cbn zeta. destruct (key_funcs _); [|by intros [= <-]].
  apply sorted_perm.
Qed.









(** X16.  Ordering moves, it does not choose.  The list that an ordering
    of authors, of books or of loans returns has the elements of the
    list it was given, each as often as there, whatever ordering is
    asked for: nothing is dropped and nothing is added. *)
Theorem orderings_permute :
  (forall authors ordering l',
     apply_author_order authors ordering = Ok l' -> l' ≡ₚ authors)
  /\ (forall books ordering l',
        apply_book_order books ordering = Ok l' -> l' ≡ₚ books)
  /\ (forall loans ordering l',
        apply_loan_order loans ordering = Ok l' -> l' ≡ₚ loans).
Proof. split_and!; intros *; apply apply_order_permutation. Qed.


Lemma filter_int_param_elem {A} rt params k (f : A -> Z) l x :
  x ∈ filter_int_param rt params k f l -> x ∈ l.
Proof.
  unfold filter_int_param. destruct (params !! k); [|done].
  destruct (int_of_str _ _); [|done].
  rewrite !list_elem_of_In, filter_In. tauto.
Qed.

Lemma filter_overdue_elem fi clock ls : forall n r n' x,
  filter_overdue fi clock n ls = Ok (r, n') -> x ∈ r -> x ∈ ls.
Proof.
  induction ls as [|l ls IH]; intros n r n' x; cbn.
  - intros [= <- <-]. done.
  - destruct (is_overdue fi clock n l) as [[b m]| |]; try done. cbn.
    destruct (filter_overdue fi clock m ls) as [[r' m']| |] eqn:E; try done.
    cbn. intros [= <- <-] Hx.
    destruct b; [apply elem_of_cons in Hx as [->|Hx]; [left|]|];
      right; eapply IH; eauto.
Qed.

Lemma apply_loan_filters_elem rt fi clock n loans params r n' x :
  apply_loan_filters rt fi clock n loans params = Ok (r, n') ->
  x ∈ r -> x ∈ loans.
Proof.
  unfold apply_loan_filters. intros Hrun Hx.
  assert (Hstatus : forall y,
    y ∈ match params !! "status" with
        | None => filter_int_param rt params "user_id" Loan.user_id loans
        | Some s =>
            if String.eqb (upper s) "BORROWED"
            then List.filter
                   (fun l => match Loan.returned_at l with
                             | None => true | Some _ => false end)
                   (filter_int_param rt params "user_id" Loan.user_id loans)
            else if String.eqb (upper s) "RETURNED"
            then List.filter
                   (fun l => match Loan.returned_at l with
                             | None => false | Some _ => true end)
                   (filter_int_param rt params "user_id" Loan.user_id loans)
            else filter_int_param rt params "user_id" Loan.user_id loans
        end -> y ∈ loans).
  { intros y Hy. apply (filter_int_param_elem rt params "user_id" Loan.user_id).
    destruct (params !! "status"); [|done].
    repeat destruct (String.eqb _ _); try done;
      rewrite list_elem_of_In, filter_In, <- list_elem_of_In in Hy; tauto. }
  cbn zeta in Hrun. destruct (String.eqb _ "true").
  - apply Hstatus. eapply filter_overdue_elem; eauto.
  - injection Hrun as <- <-. by apply Hstatus.
Qed.

Lemma slice_elem {A} (l : list A) lo hi x : x ∈ slice l lo hi -> x ∈ l.
Proof.
  unfold slice. cbn zeta. intros H.
  eapply elem_of_sublist; [exact H|].
  etrans; [apply sublist_take|apply sublist_drop].
Qed.

Lemma paginate_elem {A} (l : list A) page size paged meta x :
  paginate l page size = Ok (paged, meta) -> x ∈ paged -> x ∈ l.
Proof.
  unfold paginate. cbn zeta.
  destruct (if 0 <? _ then _ else _); try done. cbn.
  intros [= <- _]. apply slice_elem.
Qed.

Lemma loan_views_loans fi clock ls : forall n vs n',
  loan_views fi clock n ls = Ok (vs, n') -> map LoanView.loan vs = ls.
Proof.
  induction ls as [|l ls IH]; intros n vs n'; cbn.
  - by intros [= <- <-].
  - unfold loan_view.
    destruct (is_overdue fi clock n l) as [[b m]| |]; try done. cbn.
    destruct (loan_views fi clock m ls) as [[vs' m']| |] eqn:E; try done.
    cbn. intros [= <- <-]. cbn. f_equal. eauto.
Qed.

(** The loans on a page of loans are among the loans it was made of. *)
Lemma loan_page_shows rt fi clock params page size loans w s payload w' :
  loan_page rt fi clock params page size loans w
  = (Ok (GetJson s payload), w') ->
  forall l, l ∈ loans_shown payload -> l ∈ loans.
Proof.
  intros Hrun l Hl. unfold loan_page in Hrun.
  run_steps Hrun; try discriminate Hrun.
  all: injection Hrun as <- <- <-; cbn in Hl.
  all: repeat match goal with
         | a : (_ * _)%type |- _ => destruct a
         end; cbn [fst snd] in *.
  all: match goal with
       | H : loan_views _ _ _ _ = Ok _ |- _ =>
           apply loan_views_loans in H; rewrite H in Hl
       end.
  all: match goal with
       | H : paginate _ _ _ = Ok _ |- _ =>
           eapply paginate_elem in H; [|exact Hl]
       end.
  all: match goal with
       | H : apply_loan_order _ _ = Ok _ |- _ =>
           apply apply_order_permutation in H; rewrite H in *
       end.
  all: match goal with
       | H : apply_loan_filters _ _ _ _ _ _ = Ok _, H' : _ ∈ _ |- _ =>
           exact (apply_loan_filters_elem _ _ _ _ _ _ _ _ _ H H')
       end.
Qed.

(** X18.  The loans of the others.  To a user who is neither LIBRARIAN
    nor ADMIN no GET request shows a loan of another user: every loan in
    an answer, in a page of loans or alone, is a loan of the data that
    belongs to the user of the request; without a user no loan is
    shown. *)
Theorem get_shows_own_loans rt fromisoformat clock params req w user s
    payload w' :
  _get_auth_user req w = (Ok user, w) ->
  require_role user ["LIBRARIAN"; "ADMIN"] = false ->
  do_GET rt fromisoformat clock params req w
  = (Ok (GetJson s payload), w') ->
  forall l, l ∈ loans_shown payload ->
    l ∈ loans (data w)
    /\ exists u, user = Some u /\ Loan.user_id l = User.id u.
Proof.
  intros Huser Hrole Hrun l Hl.
  unfold do_GET, get_authors, get_author, get_books, get_book,
    get_loans_mine, get_loans, get_loan, get_error in Hrun.
  rewrite ?(bind_ok _ _ _ _ _ Huser), ?Hrole in Hrun.
  cbn [negb andb] in Hrun.
  repeat first
    [ match type of Hrun with
      | loan_page _ _ _ _ _ _ _ _ = _ => fail 2
      | (let* _ := lift (loan_view _ _ _ _) in _) _ = _ => fail 2
      end
    | rewrite (bind_ok _ _ _ _ _ Huser) in Hrun
    | run_step Hrun ].
  all: try discriminate Hrun.
  all: try (injection Hrun as <- <- <-; by apply elem_of_nil in Hl).
  all: try (exfalso;
            match goal with
            | H : negb (require_role _ _) = false |- _ =>
                rewrite Hrole in H; discriminate H
            end).
  all: match type of Hrun with
       | loan_page _ _ _ _ _ _ _ _ = _ =>
           (* /api/loans/mine/ *)
           eapply loan_page_shows in Hrun; [|exact Hl];
           apply list_elem_of_In, filter_In in Hrun as [Hin Hown];
           split; [by apply list_elem_of_In|];
           eexists; split; [done|lia]
       | _ =>
           (* /api/loans/{id}/ *)
           run_steps Hrun; try discriminate Hrun;
           injection Hrun as <- <- <-;
           match goal with
           | H : loan_view _ _ _ _ = Ok _ |- _ =>
               unfold loan_view in H;
               destruct (is_overdue _ _ _ _) as [[? ?]| |]; try done;
               cbn in H; injection H as <-
           end;
           cbn in Hl; apply list_elem_of_singleton in Hl as ->;
           match goal with
           | H : list_find _ _ = Some _ |- _ =>
               apply list_find_Some in H as (Hk & _)
           end;
           (split; [by eapply list_elem_of_lookup_2|]);
           eexists; (split; [done|]);
           match goal with
           | H : negb _ && negb _ = false |- _ =>
               rewrite Hrole in H; cbn in H; rewrite andb_true_r in H;
               apply negb_false_iff in H; lia
           end
       end.
Qed.

(** X19.  Where an item is.  With a page size of at least 1, the item
    at index [i] of the list (from 0) is on page [i / page_size + 1], at
    index [i mod page_size] of that page; and a page never has more
    items than the page size. *)
Theorem paginate_places_item {A} (items : list A) (i : nat) x page_size
    paged meta :
  1 <= page_size ->
  items !! i = Some x ->
  paginate items (Z.of_nat i / page_size + 1) page_size = Ok (paged, meta) ->
  paged !! Z.to_nat (Z.of_nat i mod page_size) = Some x
  /\ Z.of_nat (length paged) <= page_size.
Proof.
  intros Hsize Hi. unfold paginate. cbn zeta.
  destruct (if 0 <? _ then _ else _); try done. cbn.
  intros [= <- _].
  pose proof (lookup_lt_Some _ _ _ Hi) as Hlen.
  pose proof (Z.div_pos (Z.of_nat i) page_size ltac:(lia) ltac:(lia)) as Hq.
  pose proof (Z.div_mod (Z.of_nat i) page_size ltac:(lia)) as Hdm.
  pose proof (Z.mod_pos_bound (Z.of_nat i) page_size ltac:(lia)) as Hm.
  rewrite (Z.max_l _ 1), (Z.max_l page_size 1) by lia.
  replace (Z.of_nat i / page_size + 1 - 1) with (Z.of_nat i / page_size)
    by lia.
  set (start := Z.of_nat i / page_size * page_size) in *.
  assert (Hstart : 0 <= start <= Z.of_nat i) by (subst start; nia).
  assert (Hmod : Z.of_nat i mod page_size = Z.of_nat i - start)
    by (subst start; lia).
  unfold slice. cbn zeta.
  destruct (Z.ltb_spec start 0); [lia|].
  destruct (Z.ltb_spec (start + page_size) 0); [lia|].
  rewrite (Z.min_l start) by lia.
  split.
  - rewrite lookup_take_lt by lia. rewrite lookup_drop.
    rewrite <- Hi. f_equal. lia.
  - rewrite length_take. lia.
Qed.

Lemma filter_int_param_spec {A} rt params k (f : A -> Z) l x :
  x ∈ filter_int_param rt params k f l
  <-> x ∈ l
      /\ forall s n, params !! k = Some s ->
           int_of_str (int_max_str_digits rt) s = Some n -> f x = n.
Proof.
  unfold filter_int_param. destruct (params !! k) as [s|].
  - destruct (int_of_str _ s) as [n|] eqn:E.
    + rewrite list_elem_of_In, filter_In, <- list_elem_of_In, Z.eqb_eq.
      split.
      * intros [? ?]. split; [done|]. intros s' n' [= <-] Hn'. congruence.
      * intros [? H]. split; [done|]. by apply (H s n).
    + split; [|tauto]. intros ?. split; [done|].
      intros s' n' [= <-] Hn'. congruence.
  - split; [|tauto]. intros ?. by split.
Qed.

(** X20.  The filters of the books.  A book is in the filtered list
    exactly when it is in the list, its author is the integer given as
    [author], and its year is the integer given as [publication_year];
    a parameter that is absent, or that [int()] does not read, filters
    nothing. *)
Theorem apply_book_filters_spec rt books params b :
  b ∈ apply_book_filters rt books params
  <-> b ∈ books
      /\ (forall s n, params !! "author" = Some s ->
            int_of_str (int_max_str_digits rt) s = Some n ->
            Book.author_id b = n)
      /\ (forall s n, params !! "publication_year" = Some s ->
            int_of_str (int_max_str_digits rt) s = Some n ->
            Book.publication_year b = n).
Proof.
  unfold apply_book_filters. cbn zeta.
  rewrite !filter_int_param_spec. tauto.
Qed.

Lemma filter_overdue_spec fi clock ls : forall n r n' x,
  filter_overdue fi clock n ls = Ok (r, n') -> x ∈ r ->
  Loan.returned_at x = None
  /\ exists due k, fi (Loan.due_at x) = Ok due /\ due < clock k.
Proof.
  induction ls as [|l ls IH]; intros n r n' x; cbn.
  - intros [= <- <-]. by intros ?%elem_of_nil.
  - unfold is_overdue.
    destruct (Loan.returned_at l) eqn:Hr; cbn.
    + destruct (filter_overdue fi clock n ls) as [[r' m']| |] eqn:E;
        try done.
      cbn. intros [= <- <-]. eauto.
    + destruct (fi (Loan.due_at l)) as [due| |] eqn:Hdue; try done. cbn.
      destruct (filter_overdue fi clock (S n) ls) as [[r' m']| |] eqn:E;
        try done.
      cbn. intros [= <- <-].
      destruct (Z.ltb_spec due (clock n)); [|by eauto].
      intros [->|Hx]%elem_of_cons; [|by eauto].
      split; [done|]. by exists due, n.
Qed.

(** X21.  Overdue means open and late.  With [overdue=true] (in any mix
    of upper and lower case) the loan filters keep only loans of the
    list that are not returned and whose due date, as read by
    [fromisoformat], is before a reading of the clock, whatever the
    other parameters are. *)
Theorem apply_loan_filters_overdue rt fromisoformat clock n loans params
    s r n' :
  params !! "overdue" = Some s ->
  lower s = "true" ->
  apply_loan_filters rt fromisoformat clock n loans params = Ok (r, n') ->
  forall l, l ∈ r ->
    l ∈ loans
    /\ Loan.returned_at l = None
    /\ exists due k,
         fromisoformat (Loan.due_at l) = Ok due /\ due < clock k.
Proof.
  intros Hparam Hlow Hrun l Hl.
  split; [by eapply apply_loan_filters_elem|].
  unfold apply_loan_filters in Hrun. cbn zeta in Hrun.
  rewrite Hparam in Hrun.
  change (default "false" (Some s)) with s in Hrun. rewrite Hlow in Hrun.
  cbn [String.eqb Ascii.eqb Bool.eqb] in Hrun.
  eapply filter_overdue_spec; eauto.
Qed.

(* ===================================================================== *)
(** * Further properties: the catalogue *)
(* ===================================================================== *)

(** What an answer 201 to a book creation tells. *)
Lemma post_books_201 rt req w b w1 :
  post_books rt req w = (Ok (Json 201 (BookDict b)), w1) ->
  exists parsed title year isbn aid total avail,
    json_body req = Ok parsed
    /\ new_book_fields rt (or_empty_dict parsed)
       = Ok (title, year, isbn, aid, total, avail)
    /\ existsb (fun a => Author.id a =? aid) (authors (data w)) = true
    /\ b = {| Book.id := max_default0 (map Book.id (books (data w))) + 1;
              Book.title := title; Book.publication_year := year;
              Book.isbn := isbn; Book.author_id := aid;
              Book.total_copies := total;
              Book.available_copies := avail |}
    /\ w1 = with_books w (books (data w) ++ [b]).
Proof.
  intros Hrun.
  unfold post_books, _parse_json_body, try_except, _send_json, raise in Hrun.
  run_steps Hrun; try discriminate Hrun.
  injection Hrun as <- <-.
  repeat match goal with
         | H : negb _ = false |- _ => apply negb_false_iff in H
         end.
  eexists _, _, _, _, _, _, _. split_and!; try eassumption; reflexivity.
Qed.

Lemma new_book_fields_default rt body title year isbn aid total avail :
  new_book_fields rt body = Ok (title, year, isbn, aid, total, avail) ->
  has body "available_copies" = Ok false ->
  avail = total.
Proof.
  unfold new_book_fields, has, item, get.
  destruct body as [| ? | ? | ? | ? | ? | o]; try done. cbn [and_then].
  repeat match goal with
         | |- context [match lookup o ?k with _ => _ end] =>
             destruct (lookup o k)
         | |- context [and_then (int ?a ?v) _] =>
             let E := fresh in destruct (int a v) eqn:E
         | _ => progress cbn [and_then]
         end; try done.
  all: intros [= <- <- <- <- <- <-]; try done.
  all: intros _; cbn in *; congruence.
Qed.

(** X22.  A book that was created.  A book creation that is answered 201
    has put the book at the end of the books, under the id after the
    largest; the author of the book is an author of the data; where the
    body has no [available_copies] all copies are available; and a GET
    on the path of the book is answered 200 with the book. *)
Theorem create_book_then_get rt fromisoformat clock params env req req2 w
    parsed b w1 :
  path req = "/api/books/" ->
  json_body req = Ok parsed ->
  do_POST rt env req w = (Ok (Json 201 (BookDict b)), w1) ->
  detail_id rt (path req2) "/api/books/" = Some (Book.id b) ->
  books (data w1) = books (data w) ++ [b]
  /\ Book.id b = max_default0 (map Book.id (books (data w))) + 1
  /\ (exists a, a ∈ authors (data w) /\ Author.id a = Book.author_id b)
  /\ (has (or_empty_dict parsed) "available_copies" = Ok false ->
      Book.available_copies b = Book.total_copies b)
  /\ do_GET rt fromisoformat clock params req2 w1
     = (Ok (GetJson 200 (Plain (BookDict b))), w1).
Proof.
  intros Hpath Hbody Hrun Hdetail.
  unfold do_POST in Hrun. rewrite Hpath in Hrun.
  cbn [String.eqb Ascii.eqb Bool.eqb] in Hrun.
  apply post_books_201 in Hrun
    as (parsed' & title & year & isbn & aid & total & avail & Hb & Hfields
        & Hauthor & Hbook & ->).
  assert (parsed' = parsed) as -> by congruence.
  split_and!.
  - done.
  - by subst b.
  - apply existsb_exists in Hauthor as (a & Ha & Heq).
    exists a. split; [by apply list_elem_of_In|]. subst b. cbn. lia.
  - intros Hhas. subst b. cbn.
    eapply new_book_fields_default; eauto.
  - pose proof (detail_id_startswith rt _ "/api/books/" _ eq_refl Hdetail) as Hstart.
    assert (Hno : startswith (path req2) "/api/authors/" = false).
    { eapply startswith_disjoint; [exact Hstart|done..]. }
    unfold do_GET.
    rewrite (_parse_resource_path_elsewhere rt _ "/api/authors/" eq_refl Hno),
      Hno.
    unfold detail_id in Hdetail.
    destruct (_parse_resource_path rt (path req2) "/api/books/")
      as [base2 rid2].
    destruct (startswith base2 "/api/books/"); [|done]. subst rid2.
    unfold get_book. rewrite (bind_ok load_books _ _ _ _ eq_refl).
    cbn [with_books data books].
    rewrite (list_find_next_id Book.id (books (data w)) b);
      [done|by subst b].
Qed.

(** X23.  A deletion does not cascade.  A staff request to delete an
    author that exists is answered 204 and drops the authors of that id
    and no other; the books stay as they are, also the books of that
    author.  A staff request to delete a book that exists drops the
    books of that id and no other; the loans stay as they are, also the
    open loans on that book. *)
Theorem delete_does_not_cascade rt req w user rid :
  _get_auth_user req w = (Ok user, w) ->
  require_role user ["LIBRARIAN"; "ADMIN"] = true ->
  (detail_id rt (path req) "/api/authors/" = Some rid ->
   (exists a, a ∈ authors (data w) /\ Author.id a = rid) ->
   exists w1,
     do_DELETE rt req w = (Ok NoContent, w1)
     /\ (forall a, a ∈ authors (data w1)
                   <-> a ∈ authors (data w) /\ Author.id a <> rid)
     /\ books (data w1) = books (data w)
     /\ loans (data w1) = loans (data w))
  /\ (detail_id rt (path req) "/api/books/" = Some rid ->
      (exists b, b ∈ books (data w) /\ Book.id b = rid) ->
      exists w1,
        do_DELETE rt req w = (Ok NoContent, w1)
        /\ (forall b, b ∈ books (data w1)
                      <-> b ∈ books (data w) /\ Book.id b <> rid)
        /\ authors (data w1) = authors (data w)
        /\ loans (data w1) = loans (data w)).
Proof.
  intros Huser Hrole. split.
  - intros Hdetail (a & Ha & Hid).
    unfold do_DELETE. rewrite Hdetail. unfold delete_author.
    rewrite (bind_ok _ _ _ _ _ Huser), Hrole. cbn [negb].
    rewrite (bind_ok load_authors _ _ _ _ eq_refl).
    assert (existsb (fun a => Author.id a =? rid) (authors (data w)) = true)
      as ->.
    { apply existsb_exists. exists a. split; [by apply list_elem_of_In|lia]. }
    cbn [negb]. eexists. split; [reflexivity|]. cbn. split_and!; try done.
    intros a'. rewrite list_elem_of_In, filter_In, <- list_elem_of_In.
    rewrite negb_true_iff, Z.eqb_neq. done.
  - intros Hdetail (b & Hb & Hid).
    unfold do_DELETE.
    rewrite (detail_id_books_not_authors _ _ _ Hdetail), Hdetail.
    unfold delete_book.
    rewrite (bind_ok _ _ _ _ _ Huser), Hrole. cbn [negb].
    rewrite (bind_ok load_books _ _ _ _ eq_refl).
    destruct (list_find _ (books (data w))) as [[i b']|] eqn:E.
    + eexists. split; [reflexivity|]. cbn. split_and!; try done.
      intros b0. rewrite list_elem_of_In, filter_In, <- list_elem_of_In.
      rewrite negb_true_iff, Z.eqb_neq. done.
    + apply list_find_None in E. rewrite Forall_forall in E.
      by destruct (E b Hb).
Qed.

(** X24.  The last word on the copies.  In a book update that is
    answered 200, a body with an [available_copies] that [int()] reads
    sets the available copies to that integer, whatever the other
    fields do before: the number is not compared with the total, and it
    can be negative. *)
Theorem put_book_available_copies rt req w parsed o v n b' w1 :
  json_body req = Ok parsed ->
  or_empty_dict parsed = JObj o ->
  lookup o "available_copies" = Some v ->
  int (int_max_str_digits rt) v = Ok n ->
  (exists rid, detail_id rt (path req) "/api/books/" = Some rid) ->
  do_PUT rt req w = (Ok (Json 200 (BookDict b')), w1) ->
  Book.available_copies b' = n.
Proof.
  intros Hbody Hobj Hlookup Hint [rid Hdetail] Hrun.
  rewrite (do_PUT_book _ _ _ Hdetail) in Hrun.
  unfold put_book, _parse_json_body, _send_json, raise in Hrun.
  run_steps Hrun; try discriminate Hrun.
  unfold bind at 1 in Hrun.
  match type of Hrun with
  | context [update_book ?rt ?body ?b ?w] =>
      destruct (update_book rt body b w) as [rb w2] eqn:Hupd
  end.
  destruct rb as [b2| |]; try discriminate Hrun.
  injection Hrun as <- _.
  match goal with
  | H : json_body req = Ok ?a |- _ =>
      assert (a = parsed) as -> by congruence
  end.
  rewrite Hobj in Hupd. clear - Hupd Hlookup Hint.
  unfold update_book, try_except, int_item, raise in Hupd.
  cbn [has item] in Hupd. rewrite Hlookup in Hupd.
  repeat first
    [ rewrite bind_lift in Hupd
    | rewrite bind_ret in Hupd
    | rewrite bind_assoc in Hupd
    | progress cbn [and_then] in Hupd
    | rewrite Hint in Hupd
    | run_case Hupd ].
  all: try discriminate Hupd.
  all: by injection Hupd as <- _.
Qed.



(* ===================================================================== *)
(** * The further properties at the example *)
(* ===================================================================== *)

(** X1 at the example: the member asks for the book when no copy is
    left. *)
Lemma borrow_without_copies_witness :
  let body := Some (JObj [("book_id", JInt 1)]) in
  let b := Book.set_available_copies emma 0 in
  (path borrow_emma = "/api/loans/borrow/"
   /\ _get_auth_user borrow_emma sold_out = (Ok (Some alice), sold_out)
   /\ require_role (Some alice) ["MEMBER"; "LIBRARIAN"; "ADMIN"] = true
   /\ json_body borrow_emma = Ok body
   /\ book_id_of (or_empty_dict body) = Ok (JInt 1)
   /\ truthy (JInt 1) = true
   /\ int (int_max_str_digits example_runtime) (JInt 1) = Ok 1
   /\ list_find (fun b => Book.id b = 1) (books (data sold_out))
      = Some (0%nat, b)
   /\ Book.available_copies b < 1)
  /\ do_POST example_runtime (at_time 9 []) borrow_emma sold_out
     = (Ok (Json 409 (Error "No copies available" "no_copies")), sold_out).
Proof.
  intros body b. split.
  - split_and!; vm_compute; reflexivity.
  - apply (borrow_without_copies example_runtime (at_time 9 []) borrow_emma
             sold_out (Some alice) body (JInt 1) 1 0%nat b);
      vm_compute; reflexivity.
Defined.

(** X2 at the example: the member returns a loan that does not exist. *)
Lemma return_failure_saves_nothing_witness :
  let req := return_loan "Token token-alice" 99 in
  let r := Ok (Json 404 (Error "Loan not found" "not_found")) in
  (path req = "/api/loans/return/"
   /\ do_POST example_runtime (at_time 9 []) req borrowed = (r, borrowed)
   /\ (forall p, r <> Ok (Json 200 p)))
  /\ borrowed = borrowed.
Proof.
  intros req r.
  assert (path req = "/api/loans/return/") as H1 by reflexivity.
  assert (do_POST example_runtime (at_time 9 []) req borrowed = (r, borrowed))
    as H2 by (vm_compute; reflexivity).
  assert (forall p, r <> Ok (Json 200 p)) as H3 by (intros p; discriminate).
  split; [done|].
  exact (return_failure_saves_nothing example_runtime (at_time 9 []) req
           borrowed r borrowed H1 H2 H3).
Defined.



(** X5 at the example: the member borrows the book and gives it back. *)
Lemma borrow_then_return_witness :
  let body := Some (JObj [("book_id", JInt 1)]) in
  let req2 := request "/api/loans/return/" "Token token-alice"
                (JObj [("book_id", JInt 1)]) in
  let w1 := snd (do_POST example_runtime (at_time 7 []) borrow_emma seeded) in
  exists closed w2,
    do_POST example_runtime (at_time 9 []) req2 w1
    = (Ok (Json 200 (LoanDict closed)), w2)
    /\ closed = Loan.set_returned_at loan_of_alice (Some "t9")
    /\ books (data w2) = books (data seeded)
    /\ loans (data w2) = loans (data seeded) ++ [closed].
Proof.
  intros body req2 w1.
  destruct (borrow_then_return example_runtime (at_time 7 []) (at_time 9 [])
              borrow_emma req2 seeded alice body (JInt 1) 1 0%nat emma body
              (JInt 1))
    as (closed & w2 & H1 & H2 & H3 & H4 & _);
    try (vm_compute; reflexivity);
    try (cbn; lia);
    try (intros l Hl; by apply elem_of_nil in Hl).
  exists closed, w2. split_and!; try done.
Defined.

Lemma ids_unique_seeded : ids_unique (data seeded).
Proof.
  unfold ids_unique. cbn.
  split_and!; apply (bool_decide_unpack _); by vm_compute.
Qed.

(** X6 at the example: the member borrows the book. *)
Lemma handle_ids_unique_witness :
  ids_unique (data seeded)
  /\ ids_unique
       (data (snd (handle example_runtime POST (at_time 7 []) borrow_emma
                     seeded))).
Proof.
  split; [exact ids_unique_seeded|].
  exact (proj1 (handle_ids_unique example_runtime) POST (at_time 7 [])
           borrow_emma seeded ids_unique_seeded).
Defined.

(** X7 at the example: the member borrows the book; one copy less, one
    open loan more. *)
Lemma post_conserves_copies_witness :
  let w' := snd (do_POST example_runtime (at_time 7 []) borrow_emma seeded) in
  list_find (fun b => Book.id b = 1) (books (data seeded))
  = Some (0%nat, emma)
  /\ exists b',
       list_find (fun b => Book.id b = 1) (books (data w')) = Some (0%nat, b')
       /\ Book.available_copies b' + open_loans_on 1 (loans (data w'))
          = Book.available_copies emma
            + open_loans_on 1 (loans (data seeded)).
Proof.
  intros w'. split; [vm_compute; reflexivity|].
  apply (post_conserves_copies example_runtime (at_time 7 []) borrow_emma
           seeded 1 0%nat emma).
  vm_compute. reflexivity.
Defined.

(** X8 at the example: bob registers, and logs in as BOB. *)
Lemma register_then_login_witness :
  let body := JObj [("username", JStr "bob"); ("email", JStr "bob@example.org");
                    ("password", JStr "pw3")] in
  let req := request "/api/auth/register/" EmptyString body in
  let body2 := JObj [("username", JStr "BOB"); ("password", JStr "pw3")] in
  let req2 := request "/api/auth/login/" EmptyString body2 in
  let p := UserSummary 3 (JStr "bob") (JStr "bob@example.org") "MEMBER" in
  let w1 := snd (do_POST example_runtime (at_time 7 []) req seeded) in
  (do_POST example_runtime (at_time 7 []) req seeded = (Ok (Json 201 p), w1)
   /\ lower "BOB" = lower "bob"
   /\ fresh_token ["token-alice"; "token-bob"] (tokens (data seeded))
      = Ok "token-bob")
  /\ exists new w2,
       users (data w1) = users (data seeded) ++ [new]
       /\ User.username new = JStr "bob"
       /\ User.id new = max_default0 (map User.id (users (data seeded))) + 1
       /\ do_POST example_runtime (at_time 8 ["token-alice"; "token-bob"])
            req2 w1
          = (Ok (Json 200 (TokenBody (Some "token-bob"))), w2)
       /\ tokens (data w2)
          = <["token-bob" := User.id new]> (tokens (data seeded))
       /\ get_user_by_token "token-bob" w2 = (Ok (Some new), w2).
Proof.
  intros body req body2 req2 p w1. split.
  - split_and!; vm_compute; reflexivity.
  - apply (register_then_login example_runtime (at_time 7 [])
             (at_time 8 ["token-alice"; "token-bob"]) req req2 seeded p w1
             (Some body) "bob" "pw3" (Some body2) "BOB" "token-bob");
      vm_compute; reflexivity.
Defined.


(** X10 at the example: the member logs in again, and out. *)
Lemma login_then_logout_witness :
  let body := JObj [("username", JStr "alice"); ("password", JStr "secret1")] in
  let req := request "/api/auth/login/" EmptyString body in
  let req2 := request "/api/auth/logout/" "Token token-2" JNull in
  let w1 := snd (do_POST example_runtime (at_time 7 ["token-2"]) req seeded) in
  (do_POST example_runtime (at_time 7 ["token-2"]) req seeded
   = (Ok (Json 200 (TokenBody (Some "token-2"))), w1)
   /\ startswith (authorization req2) "Token " = true
   /\ strip (Py.drop 6 (authorization req2)) = "token-2")
  /\ exists w2,
       do_POST example_runtime (at_time 8 []) req2 w1 = (Ok NoContent, w2)
       /\ tokens (data w2) = tokens (data seeded)
       /\ users (data w2) = users (data seeded)
       /\ _get_auth_user req2 w2 = (Ok None, w2).
Proof.
  intros body req req2 w1. split.
  - split_and!; vm_compute; reflexivity.
  - apply (login_then_logout example_runtime (at_time 7 ["token-2"])
             (at_time 8 []) req req2 seeded "token-2" w1);
      vm_compute; reflexivity.
Defined.


(** X12 at the example: the member borrows the book. *)
Lemma non_staff_keeps_catalogue_witness :
  (_get_auth_user borrow_emma seeded = (Ok (Some alice), seeded)
   /\ require_role (Some alice) ["LIBRARIAN"; "ADMIN"] = false)
  /\ catalogue
       (data (snd (handle example_runtime POST (at_time 7 []) borrow_emma
                     seeded)))
     = catalogue (data seeded).
Proof.
  split; [split; vm_compute; reflexivity|].
  apply (non_staff_keeps_catalogue example_runtime POST (at_time 7 [])
           borrow_emma seeded (Some alice));
    vm_compute; reflexivity.
Defined.

(** X13 at the example: a request without a token to delete the book. *)
Lemma anonymous_request_writes_nothing_witness :
  let req := request "/api/books/1/" EmptyString JNull in
  (_get_auth_user req seeded = (Ok None, seeded)
   /\ path req <> "/api/auth/register/"
   /\ path req <> "/api/auth/login/")
  /\ snd (handle example_runtime DELETE (at_time 7 []) req seeded) = seeded.
Proof.
  intros req. split.
  - split_and!; [vm_compute; reflexivity|discriminate..].
  - apply (anonymous_request_writes_nothing example_runtime DELETE
             (at_time 7 []) req seeded);
      [vm_compute; reflexivity|discriminate..].
Defined.

(** X15 at the example: GET /api/authors/abc/. *)
Lemma get_unparsed_path_lists_witness :
  let req := request "/api/authors/abc/" EmptyString JNull in
  (startswith (path req) "/api/authors/" = true
   /\ detail_id example_runtime (path req) "/api/authors/" = None)
  /\ do_GET example_runtime example_fromisoformat (clock_at 9) ∅ req
     = get_authors example_runtime ∅.
Proof.
  intros req.
  assert (startswith (path req) "/api/authors/" = true) as H1
    by (vm_compute; reflexivity).
  assert (detail_id example_runtime (path req) "/api/authors/" = None) as H2
    by (vm_compute; reflexivity).
  split; [done|].
  exact (proj1 (get_unparsed_path_lists example_runtime example_fromisoformat
                  (clock_at 9) ∅ req) H1 H2).
Defined.

(** X16 at the example: two authors by descending id. *)
Lemma orderings_permute_witness :
  let bob := {| Author.id := 2; Author.name := JStr "Bob" |} in
  apply_author_order [ann; bob] "-id" = Ok [bob; ann]
  /\ [bob; ann] ≡ₚ [ann; bob].
Proof.
  intros bob.
  assert (apply_author_order [ann; bob] "-id" = Ok [bob; ann]) as H
    by (vm_compute; reflexivity).
  split; [done|].
  exact (proj1 orderings_permute [ann; bob] "-id" [bob; ann] H).
Defined.


(** X18 at the example: the member lists her loans. *)
Lemma get_shows_own_loans_witness :
  let req := request "/api/loans/mine/" "Token token-alice" JNull in
  let payload :=
    LoanPage
      [{| LoanView.loan := loan_of_alice; LoanView.status := "BORROWED";
          LoanView.overdue := false |}]
      {| Pagination.count := 1; Pagination.page := 1;
         Pagination.page_size := 10; Pagination.total_pages := 1 |} in
  (_get_auth_user req two_loans = (Ok (Some alice), two_loans)
   /\ require_role (Some alice) ["LIBRARIAN"; "ADMIN"] = false
   /\ do_GET example_runtime example_fromisoformat (clock_at 9) ∅ req
        two_loans
      = (Ok (GetJson 200 payload), two_loans)
   /\ loan_of_alice ∈ loans_shown payload)
  /\ loan_of_alice ∈ loans (data two_loans)
  /\ exists u, Some alice = Some u /\ Loan.user_id loan_of_alice = User.id u.
Proof.
  intros req payload.
  assert (_get_auth_user req two_loans = (Ok (Some alice), two_loans)) as H1
    by (vm_compute; reflexivity).
  assert (require_role (Some alice) ["LIBRARIAN"; "ADMIN"] = false) as H2
    by (vm_compute; reflexivity).
  assert (do_GET example_runtime example_fromisoformat (clock_at 9) ∅ req
            two_loans = (Ok (GetJson 200 payload), two_loans)) as H3
    by (vm_compute; reflexivity).
  assert (loan_of_alice ∈ loans_shown payload) as H4 by (cbn; left).
  split; [done|].
  exact (get_shows_own_loans example_runtime example_fromisoformat
           (clock_at 9) ∅ req two_loans (Some alice) 200 payload two_loans
           H1 H2 H3 loan_of_alice H4).
Defined.

(** X19 at the example: the fourth of five items, two to a page. *)
Lemma paginate_places_item_witness :
  let meta := {| Pagination.count := 5; Pagination.page := 2;
                 Pagination.page_size := 2; Pagination.total_pages := 3 |} in
  (1 <= 2
   /\ [10; 20; 30; 40; 50] !! 3%nat = Some 40
   /\ paginate [10; 20; 30; 40; 50] (Z.of_nat 3 / 2 + 1) 2
      = Ok ([30; 40], meta))
  /\ [30; 40] !! Z.to_nat (Z.of_nat 3 mod 2) = Some 40
  /\ Z.of_nat (length [30; 40]) <= 2.
Proof.
  intros meta.
  assert (1 <= 2) as H1 by lia.
  assert ([10; 20; 30; 40; 50] !! 3%nat = Some 40) as H2 by reflexivity.
  assert (paginate [10; 20; 30; 40; 50] (Z.of_nat 3 / 2 + 1) 2
          = Ok ([30; 40], meta)) as H3 by (vm_compute; reflexivity).
  split; [done|].
  exact (paginate_places_item [10; 20; 30; 40; 50] 3 40 2 [30; 40] meta
           H1 H2 H3).
Defined.

(** X21 at the example: the loan of the member, long after it was due. *)
Lemma apply_loan_filters_overdue_witness :
  let params : gmap string string := {["overdue" := "True"]} in
  let late := clock_at 2000000000000 in
  (params !! "overdue" = Some "True"
   /\ lower "True" = "true"
   /\ apply_loan_filters example_runtime example_fromisoformat late 0
        [loan_of_alice] params = Ok ([loan_of_alice], 1%nat)
   /\ loan_of_alice ∈ [loan_of_alice])
  /\ loan_of_alice ∈ [loan_of_alice]
  /\ Loan.returned_at loan_of_alice = None
  /\ exists due k,
       example_fromisoformat (Loan.due_at loan_of_alice) = Ok due
       /\ due < late k.
Proof.
  intros params late.
  assert (params !! "overdue" = Some "True") as H1
    by (vm_compute; reflexivity).
  assert (lower "True" = "true") as H2 by reflexivity.
  assert (apply_loan_filters example_runtime example_fromisoformat late 0
            [loan_of_alice] params = Ok ([loan_of_alice], 1%nat)) as H3
    by (vm_compute; reflexivity).
  assert (loan_of_alice ∈ [loan_of_alice]) as H4 by left.
  split; [done|].
  exact (apply_loan_filters_overdue example_runtime example_fromisoformat
           late 0 [loan_of_alice] params "True" [loan_of_alice] 1 H1 H2 H3
           loan_of_alice H4).
Defined.

(** X22 at the example: the librarian adds a second book, with no count
    of available copies, and reads it. *)
Lemma create_book_then_get_witness :
  let body := JObj [("title", JStr "Persuasion"); ("publication_year", JInt 1817);
                    ("isbn", JStr "y"); ("author", JInt 1);
                    ("total_copies", JStr "3")] in
  let req := request "/api/books/" "Token token-libby" body in
  let req2 := request "/api/books/2/" EmptyString JNull in
  let b := {| Book.id := 2; Book.title := "Persuasion";
              Book.publication_year := 1817; Book.isbn := "y";
              Book.author_id := 1; Book.total_copies := 3;
              Book.available_copies := 3 |} in
  let w1 := snd (do_POST example_runtime (at_time 7 []) req seeded) in
  (do_POST example_runtime (at_time 7 []) req seeded
   = (Ok (Json 201 (BookDict b)), w1)
   /\ detail_id example_runtime (path req2) "/api/books/" = Some (Book.id b))
  /\ books (data w1) = books (data seeded) ++ [b]
  /\ Book.id b = max_default0 (map Book.id (books (data seeded))) + 1
  /\ (exists a, a ∈ authors (data seeded) /\ Author.id a = Book.author_id b)
  /\ (has (or_empty_dict (Some body)) "available_copies" = Ok false ->
      Book.available_copies b = Book.total_copies b)
  /\ do_GET example_runtime example_fromisoformat (clock_at 9) ∅ req2 w1
     = (Ok (GetJson 200 (Plain (BookDict b))), w1).
Proof.
  intros body req req2 b w1. split.
  - split; vm_compute; reflexivity.
  - apply (create_book_then_get example_runtime example_fromisoformat
             (clock_at 9) ∅ (at_time 7 []) req req2 seeded (Some body) b w1);
      vm_compute; reflexivity.
Defined.

(** X23 at the example: the librarian deletes the author of the book. *)
Lemma delete_does_not_cascade_witness :
  let req := request "/api/authors/1/" "Token token-libby" JNull in
  (_get_auth_user req seeded = (Ok (Some libby), seeded)
   /\ require_role (Some libby) ["LIBRARIAN"; "ADMIN"] = true
   /\ detail_id example_runtime (path req) "/api/authors/" = Some 1
   /\ (exists a, a ∈ authors (data seeded) /\ Author.id a = 1))
  /\ exists w1,
       do_DELETE example_runtime req seeded = (Ok NoContent, w1)
       /\ (forall a, a ∈ authors (data w1)
                     <-> a ∈ authors (data seeded) /\ Author.id a <> 1)
       /\ books (data w1) = books (data seeded)
       /\ loans (data w1) = loans (data seeded).
Proof.
  intros req.
  assert (_get_auth_user req seeded = (Ok (Some libby), seeded)) as H1
    by (vm_compute; reflexivity).
  assert (require_role (Some libby) ["LIBRARIAN"; "ADMIN"] = true) as H2
    by (vm_compute; reflexivity).
  assert (detail_id example_runtime (path req) "/api/authors/" = Some 1) as H3
    by (vm_compute; reflexivity).
  assert (exists a, a ∈ authors (data seeded) /\ Author.id a = 1) as H4
    by (exists ann; split; [left|reflexivity]).
  split; [done|].
  exact (proj1 (delete_does_not_cascade example_runtime req seeded
                  (Some libby) 1 H1 H2) H3 H4).
Defined.

(** X24 at the example: the librarian sets the available copies of the
    book, of which there are two, to -5. *)
Lemma put_book_available_copies_witness :
  let o := [("available_copies", JInt (-5))] in
  let req := request "/api/books/1/" "Token token-libby" (JObj o) in
  let b' := Book.set_available_copies emma (-5) in
  let w1 := snd (do_PUT example_runtime req seeded) in
  (json_body req = Ok (Some (JObj o))
   /\ or_empty_dict (Some (JObj o)) = JObj o
   /\ lookup o "available_copies" = Some (JInt (-5))
   /\ int (int_max_str_digits example_runtime) (JInt (-5)) = Ok (-5)
   /\ (exists rid,
         detail_id example_runtime (path req) "/api/books/" = Some rid)
   /\ do_PUT example_runtime req seeded = (Ok (Json 200 (BookDict b')), w1))
  /\ Book.available_copies b' = -5.
Proof.
  intros o req b' w1.
  assert (exists rid,
            detail_id example_runtime (path req) "/api/books/" = Some rid)
    as H5 by (exists 1; vm_compute; reflexivity).
  assert (do_PUT example_runtime req seeded
          = (Ok (Json 200 (BookDict b')), w1)) as H6
    by (vm_compute; reflexivity).
  split.
  - split_and!; try (vm_compute; reflexivity); done.
  - exact (put_book_available_copies example_runtime req seeded
             (Some (JObj o)) o (JInt (-5)) (-5) b' w1 eq_refl eq_refl
             eq_refl eq_refl H5 H6).
Defined.

